(** * api-conver: the Anthropic <-> OpenAI protocol translation core

    A shallow embedding of the translation code of the repository:
    - [internal/domain/service/converter.go] (the [Converter] methods; the
      monolithic [main] package holds textually identical free functions),
    - the request/response parts of [HandleAnthropic] and
      [handleAnthropicStream] of the Gin use case,
    - [handleAnthropic] and [streamOpenAIToAnthropic] of the monolithic
      [main] package.

    Go values are modelled as follows.  [string] is a byte string (a Rocq
    [string] is a list of 8-bit [ascii]); [int] is a [Z], and the one place
    where the code does arithmetic on an [int] (the block counter of the
    stream state) writes the 64-bit wrap-around out; [interface{}] holding
    decoded JSON is the inductive [json]; [map[string]interface{}] is a
    [gmap string json]; a pointer that may be [nil] is an [option].
    [encoding/json], the wall clock and the iteration order of Go's [range]
    over a map are not code of the repository: they are parameters. *)

From Stdlib Require Import ZArith String Ascii DecimalString Permutation.
From Stdlib Require Import Floats.SpecFloat.
From stdpp Require Import gmap strings list fin_maps sorting.

Local Open Scope Z_scope.
Local Open Scope string_scope.
Local Open Scope list_scope.

Set Warnings "-register-all".

(** ** Go's [strings] and [strconv] functions used by the code *)

Module GoStrings.

(** [unicode.IsSpace] on a one-byte rune: TAB, LF, VT, FF, CR, SPACE. *)
Definition isSpaceByte (c : ascii) : bool :=
  let n := N_of_ascii c in
  ((9 <=? n) && (n <=? 13) || (n =? 32))%N.

(** The white-space runes above U+007F, as [unicode.IsSpace] lists them,
    in their UTF-8 encoding: U+0085, U+00A0, U+1680, U+2000..U+200A,
    U+2028, U+2029, U+202F, U+205F, U+3000. *)
Definition wideSpaces : list (list N) :=
  [ [194; 133]; [194; 160]; [225; 154; 128];
    [226; 128; 128]; [226; 128; 129]; [226; 128; 130]; [226; 128; 131];
    [226; 128; 132]; [226; 128; 133]; [226; 128; 134]; [226; 128; 135];
    [226; 128; 136]; [226; 128; 137]; [226; 128; 138];
    [226; 128; 168]; [226; 128; 169]; [226; 128; 175];
    [226; 129; 159]; [227; 128; 128] ]%N.

Fixpoint hasBytePrefix (p : list N) (l : list ascii) : bool :=
  match p, l with
  | [], _ => true
  | _ :: _, [] => false
  | n :: p', c :: l' => (N_of_ascii c =? n)%N && hasBytePrefix p' l'
  end.

(** Width in bytes of the white-space rune that [l] starts with according
    to the table [tbl]; [0%nat] when [l] does not start with one. *)
Definition spaceWidth (tbl : list (list N)) (l : list ascii) : nat :=
  match l with
  | [] => 0%nat
  | c :: _ =>
      if isSpaceByte c then 1%nat
      else match List.find (fun p => hasBytePrefix p l) tbl with
           | Some p => length p
           | None => 0%nat
           end
  end.

(** Drops leading white-space runes; [skip] counts the bytes of the
    current rune still to be dropped. *)
Fixpoint dropSpaces (tbl : list (list N)) (skip : nat) (l : list ascii)
  : list ascii :=
  match l with
  | [] => []
  | _ :: r =>
      match skip with
      | S k => dropSpaces tbl k r
      | O =>
          match spaceWidth tbl l with
          | O => l
          | S k => dropSpaces tbl k r
          end
      end
  end.

(** [strings.TrimSpace]: leading runes are decoded from the front, trailing
    runes from the back, so the right trim runs on the reversed bytes with
    the reversed table. *)
Definition TrimSpace (s : string) : string :=
  let l := dropSpaces wideSpaces 0 (list_ascii_of_string s) in
  let r := dropSpaces (List.map (@List.rev N) wideSpaces) 0 (List.rev l) in
  string_of_list_ascii (List.rev r).

(** [strings.Join]. *)
Fixpoint Join (elems : list string) (sep : string) : string :=
  match elems with
  | [] => ""
  | [x] => x
  | x :: rest => x +:+ sep +:+ Join rest sep
  end.

(** [strconv.FormatInt(n, 10)]. *)
Definition FormatInt (n : Z) : string :=
  NilZero.string_of_int (Z.to_int n).

(** [s[n:]] and [s[:n]], for [n] within the string. *)
Fixpoint slice_from (s : string) (n : nat) {struct n} : string :=
  match n, s with
  | O, _ => s
  | S n, String _ s => slice_from s n
  | S _, EmptyString => EmptyString
  end.

Fixpoint slice_to (s : string) (n : nat) {struct n} : string :=
  match n, s with
  | O, _ => EmptyString
  | S n, String c s => String c (slice_to s n)
  | S _, EmptyString => EmptyString
  end.

(** [strings.HasPrefix], [strings.HasSuffix], [strings.TrimPrefix]. *)
Definition HasPrefix (s prefix : string) : bool :=
  (String.length prefix <=? String.length s)%nat
  && bool_decide (slice_to s (String.length prefix) = prefix).

Definition HasSuffix (s suffix : string) : bool :=
  (String.length suffix <=? String.length s)%nat
  && bool_decide
       (slice_from s (String.length s - String.length suffix) = suffix).

Definition TrimPrefix (s prefix : string) : string :=
  if HasPrefix s prefix then slice_from s (String.length prefix) else s.

End GoStrings.
Import GoStrings.

(** The double quote character, for JSON text. *)
Definition dq : string := String (ascii_of_N 34) EmptyString.

(** A Go [float64]: an IEEE 754 binary64 value.  The code only carries
    such values from the request to the flat request. *)
Definition float64 : Type := spec_float.

(** ** Decoded JSON: what an [interface{}] holds

    [JInt] is a Go [int] and [JFloat] a [float64] stored by the code itself,
    [JNumber] a [json.Number] kept as its literal (the monolith decodes the
    request with [UseNumber]); a decoded object is a Go map. *)

Inductive json : Type :=
| JNull
| JBool (b : bool)
| JInt (n : Z)
| JFloat (f : float64)
| JNumber (lit : string)
| JStr (s : string)
| JArr (items : list json)
| JObj (fields : gmap string json).

(** A [nil] interface is [JNull]: that is what a decoded [null] is, and what
    indexing a map at an absent key gives. *)
Definition is_nil (v : json) : bool :=
  match v with JNull => true | _ => false end.

(** [m[k]] on a [map[string]interface{}]. *)
Definition get (m : gmap string json) (k : string) : json :=
  default JNull (m !! k).

(** [text, _ := v.(string)]: the zero value when [v] holds no string. *)
Definition as_string (v : json) : string :=
  match v with JStr s => s | _ => "" end.

(** [text, ok := v.(string)]. *)
Definition is_string (v : json) : option string :=
  match v with JStr s => Some s | _ => None end.

(** [strings.TrimSpace(s) == ""] *)
Definition blank (s : string) : bool :=
  bool_decide (TrimSpace s = "").

(** ** internal/domain/model *)

Record AnthropicMessage := {
  am_Role : string;
  am_Content : json
}.

Record AnthropicToolDefinition := {
  atd_Name : string;
  atd_Description : string;
  atd_InputSchema : json;
  atd_Type : string
}.

Record AnthropicRequest := {
  ar_Model : string;
  ar_Messages : list AnthropicMessage;
  ar_System : json;
  ar_MaxTokens : Z;
  ar_Temperature : option float64;
  ar_TopP : option float64;
  ar_TopK : option Z;
  ar_Stream : bool;
  ar_Tools : list AnthropicToolDefinition;
  ar_ToolChoice : json;
  ar_StopSequences : list string
}.

Record AnthropicContentBlock := {
  acb_Type : string;
  acb_Text : string;
  acb_ID : string;
  acb_Name : string;
  acb_Input : json
}.

Record AnthropicUsage := {
  au_InputTokens : Z;
  au_OutputTokens : Z
}.

Record AnthropicResponse := {
  resp_ID : string;
  resp_Type : string;
  resp_Role : string;
  resp_Model : string;
  resp_Content : list AnthropicContentBlock;
  resp_StopReason : string;
  resp_StopSequence : string;
  resp_Usage : AnthropicUsage
}.

Record OpenAIFunctionCall := {
  fc_Name : string;
  fc_Arguments : string
}.

Record OpenAIToolCall := {
  tc_ID : string;
  tc_Type : string;
  tc_Function : OpenAIFunctionCall
}.

Record OpenAIMessage := {
  om_Role : string;
  om_Content : json;
  om_ToolCalls : list OpenAIToolCall;
  om_FunctionCall : option OpenAIFunctionCall
}.

Record OpenAIUsage := {
  ou_PromptTokens : Z;
  ou_CompletionTokens : Z;
  ou_TotalTokens : Z
}.

Record OpenAIChoice := {
  oc_Index : Z;
  oc_Message : option OpenAIMessage;
  oc_FinishReason : string
}.

Record OpenAIResponse := {
  or_ID : string;
  or_Object : string;
  or_Created : Z;
  or_Model : string;
  or_Choices : list OpenAIChoice;
  or_Usage : OpenAIUsage
}.

Record StreamToolCall := {
  stc_Index : Z;
  stc_ID : string;
  stc_Type : string;
  stc_Function : OpenAIFunctionCall
}.

Record StreamDelta := {
  sd_Role : string;
  sd_Content : string;
  sd_ToolCalls : list StreamToolCall
}.

Record StreamChoice := {
  sc_Index : Z;
  sc_Delta : StreamDelta;
  sc_FinishReason : option string
}.

Record OpenAIStreamResponse := {
  sr_ID : string;
  sr_Object : string;
  sr_Created : Z;
  sr_Model : string;
  sr_Usage : option OpenAIUsage;
  sr_Choices : list StreamChoice
}.

(** [encoding/json] on [interface{}] values.  [Marshal] fails on values it
    cannot encode; [Unmarshal] fails on text that is not JSON. *)
Record JSONCodec : Type := {
  Marshal : json -> option string;
  Unmarshal : string -> option json;
  (* json.Unmarshal(respBody, &openAIResp) *)
  UnmarshalOpenAIResponse : string -> option OpenAIResponse
}.

(** [time.Now().UnixNano()]: the reading of the [n]-th call.  Functions that
    read the clock take the number of readings made so far and return the
    new count. *)
Definition Clock : Type := nat -> Z.

(** ** internal/domain/service: helper.go and converter.go *)

(** [GenerateToolCallID]: reads the clock once. *)
Definition GenerateToolCallID (clock : Clock) (tick : nat) : string * nat :=
  ("call_" +:+ FormatInt (clock tick), S tick).

(** The three slices [parseAnthropicBlock] appends to through pointers. *)
Record parts := {
  textParts : list string;
  toolCalls : list (gmap string json);
  toolResults : list (gmap string json)
}.

Definition no_parts : parts :=
  {| textParts := []; toolCalls := []; toolResults := [] |}.

Definition add_text (text : string) (p : parts) : parts :=
  if blank text then p
  else {| textParts := textParts p ++ [text];
          toolCalls := toolCalls p; toolResults := toolResults p |}.

Section Converter.

Variable codec : JSONCodec.
Variable clock : Clock.

(** The text of a block map when it is a non-blank string. *)
Definition block_text (block : gmap string json) : list string :=
  match is_string (get block "text") with
  | Some text => if blank text then [] else [text]
  | None => []
  end.

Definition ExtractTextParts (v : json) : list string :=
  match v with
  | JNull => []
  | JStr t => if blank t then [] else [t]
  | JArr t =>
      List.fold_left
        (fun parts item =>
           match item with
           | JStr text => if blank text then parts else parts ++ [text]
           | JObj block =>
               if decide (as_string (get block "type") = "text")
               then parts ++ block_text block
               else parts ++ block_text block
           | _ => parts
           end) t []
  | JObj t =>
      let typed :=
        if decide (as_string (get t "type") = "text") then block_text t
        else [] in
      match typed with
      | [] => block_text t
      | _ => typed
      end
  | _ => []
  end.

Definition FlattenAnthropicText (v : json) : string :=
  Join (ExtractTextParts v) (String (ascii_of_N 10) EmptyString).

Definition StringifyToolResult (content : json) : string :=
  match content with
  | JNull => ""
  | JStr text => text
  | _ => match Marshal codec content with
         | Some payload => payload
         | None => ""
         end
  end.

Definition parseAnthropicBlock (block : gmap string json) (p : parts)
    (tick : nat) : parts * nat :=
  let typeVal := as_string (get block "type") in
  if decide (typeVal = "text") then
    (add_text (as_string (get block "text")) p, tick)
  else if decide (typeVal = "tool_use") then
    let name := as_string (get block "name") in
    let id := as_string (get block "id") in
    let '(id, tick) :=
      if blank id then GenerateToolCallID clock tick else (id, tick) in
    let input := get block "input" in
    let args :=
      if is_nil input then "{}"
      else match Marshal codec input with
           | Some b => b
           | None => "{}"
           end in
    ({| textParts := textParts p;
        toolCalls := toolCalls p ++
          [ {[ "id" := JStr id;
               "type" := JStr "function";
               "function" := JObj {[ "name" := JStr name;
                                     "arguments" := JStr args ]} ]} ];
        toolResults := toolResults p |}, tick)
  else if decide (typeVal = "tool_result") then
    let toolUseID := as_string (get block "tool_use_id") in
    ({| textParts := textParts p;
        toolCalls := toolCalls p;
        toolResults := toolResults p ++
          [ {[ "role" := JStr "tool";
               "tool_call_id" := JStr toolUseID;
               "content" := JStr (StringifyToolResult (get block "content")) ]} ]
     |}, tick)
  else
    (add_text (as_string (get block "text")) p, tick).

Definition ParseAnthropicContent (content : json) (tick : nat)
  : parts * nat :=
  match content with
  | JStr v => (add_text v no_parts, tick)
  | JArr v =>
      List.fold_left
        (fun acc item =>
           match item with
           | JObj block => parseAnthropicBlock block (fst acc) (snd acc)
           | _ => acc
           end) v (no_parts, tick)
  | JObj v => parseAnthropicBlock v no_parts tick
  | JNull => (no_parts, tick)
  | v => (add_text (FlattenAnthropicText v) no_parts, tick)
  end.

Definition ConvertAnthropicMessage (msg : AnthropicMessage) (tick : nat)
  : list (gmap string json) * nat :=
  let '(p, tick) := ParseAnthropicContent (am_Content msg) tick in
  let messages :=
    if bool_decide (textParts p <> [] \/ toolCalls p <> []) then
      let mainMsg : gmap string json :=
        {[ "role" := JStr (am_Role msg);
           "content" := JStr (Join (textParts p) (String (ascii_of_N 10) EmptyString)) ]} in
      let mainMsg :=
        if bool_decide (toolCalls p <> [])
        then <[ "tool_calls" := JArr (JObj <$> toolCalls p) ]> mainMsg
        else mainMsg in
      [mainMsg]
    else if bool_decide (toolResults p = []) then
      [ {[ "role" := JStr (am_Role msg); "content" := JStr "" ]} ]
    else [] in
  (messages ++ toolResults p, tick).

Definition ConvertAnthropicToOpenAIMessages (system : json)
    (messages : list AnthropicMessage) (tick : nat)
  : list (gmap string json) * nat :=
  let sysText := FlattenAnthropicText system in
  let openAIMessages : list (gmap string json) :=
    if blank sysText then []
    else [ {[ "role" := JStr "system"; "content" := JStr sysText ]} ] in
  List.fold_left
    (fun acc msg =>
       let '(converted, tick) := ConvertAnthropicMessage msg (snd acc) in
       (fst acc ++ converted, tick))
    messages (openAIMessages, tick).

Definition ConvertAnthropicTools (tools : list AnthropicToolDefinition)
  : list (gmap string json) :=
  List.fold_left
    (fun openAITools tool =>
       let name := TrimSpace (atd_Name tool) in
       if decide (name = "") then openAITools
       else
         let function : gmap string json := {[ "name" := JStr name ]} in
         let function :=
           if blank (atd_Description tool) then function
           else <[ "description" := JStr (atd_Description tool) ]> function in
         let function :=
           if is_nil (atd_InputSchema tool) then function
           else <[ "parameters" := atd_InputSchema tool ]> function in
         openAITools ++
           [ {[ "type" := JStr "function"; "function" := JObj function ]} ])
    tools [].

Definition ConvertAnthropicToolChoice (choice : json) : json :=
  match choice with
  | JStr v =>
      if decide (v = "any") then JStr "required"
      else if decide (v = "auto") then JStr "auto"
      else JStr v
  | JObj v =>
      if decide (as_string (get v "type") = "tool") then
        match is_string (get v "name") with
        | Some name =>
            if blank name then JObj v
            else JObj {[ "type" := JStr "function";
                         "function" := JObj {[ "name" := JStr name ]} ]}
        | None => JObj v
        end
      else JObj v
  | _ => choice
  end.

Definition OpenAIContentToString (content : json) : string :=
  match content with
  | JStr v => v
  | JArr v =>
      Join
        (List.fold_left
           (fun parts item =>
              match item with
              | JObj block =>
                  if decide (as_string (get block "type") = "text")
                  then parts ++ block_text block
                  else parts
              | _ => parts
              end) v [])
        (String (ascii_of_N 10) EmptyString)
  | _ => ""
  end.

Definition ParseToolCallArgs (args : string) : json :=
  if blank args then JObj ∅
  else match Unmarshal codec args with
       | None => JObj {[ "arguments" := JStr args ]}
       | Some payload => payload
       end.

Definition BuildAnthropicContentBlocks (message : option OpenAIMessage)
    (tick : nat) : list AnthropicContentBlock * nat :=
  let textBlock (text : string) :=
    {| acb_Type := "text"; acb_Text := text; acb_ID := "";
       acb_Name := ""; acb_Input := JNull |} in
  match message with
  | None => ([textBlock ""], tick)
  | Some message =>
      let text := OpenAIContentToString (om_Content message) in
      let blocks := if blank text then [] else [textBlock text] in
      let '(blocks, tick) :=
        List.fold_left
          (fun acc call =>
             let '(blocks, tick) := acc in
             let name := TrimSpace (fc_Name (tc_Function call)) in
             if bool_decide (name = "")
                && blank (fc_Arguments (tc_Function call))
             then acc
             else
               let id := TrimSpace (tc_ID call) in
               let '(id, tick) :=
                 if decide (id = "") then GenerateToolCallID clock tick
                 else (id, tick) in
               (blocks ++
                  [ {| acb_Type := "tool_use"; acb_Text := "";
                       acb_ID := id; acb_Name := name;
                       acb_Input :=
                         ParseToolCallArgs (fc_Arguments (tc_Function call))
                    |} ], tick))
          (om_ToolCalls message) (blocks, tick) in
      let '(blocks, tick) :=
        match om_FunctionCall message with
        | Some fc =>
            let name := TrimSpace (fc_Name fc) in
            if bool_decide (name <> "") || negb (blank (fc_Arguments fc))
            then
              let '(id, tick) := GenerateToolCallID clock tick in
              (blocks ++
                 [ {| acb_Type := "tool_use"; acb_Text := "";
                      acb_ID := id; acb_Name := name;
                      acb_Input := ParseToolCallArgs (fc_Arguments fc) |} ],
               tick)
            else (blocks, tick)
        | None => (blocks, tick)
        end in
      (match blocks with
       | [] => [textBlock ""]
       | _ => blocks
       end, tick)
  end.

Definition MapStopReason (finish : string) (hasToolCalls : bool) : string :=
  if decide (finish = "length") then "max_tokens"
  else if decide (finish = "stop") then "end_turn"
  else if decide (finish = "tool_calls" \/ finish = "function_call")
  then "tool_use"
  else if hasToolCalls then "tool_use" else "end_turn".

End Converter.

(** ** The monolithic [main] package: the stream reframer *)

(** What [writeAnthropicEvent] writes: the event name with the fields of its
    payload that vary.  ([json.Marshal] cannot fail on these payloads, which
    hold strings, integers and [nil] only; [Flush] writes nothing.) *)
Inductive event : Type :=
| message_start (id model : string)
| content_block_start_text (index : Z)
| content_block_start_tool_use (index : Z) (id name : string)
| content_block_delta_text (index : Z) (text : string)
| content_block_delta_input_json (index : Z) (partial_json : string)
| content_block_stop (index : Z)
| message_delta (stop_reason : string) (output_tokens : Z)
                (input_tokens : option Z)
| message_stop.

Record anthropicToolBlock := {
  tb_index : Z;
  tb_id : string;
  tb_name : string;
  tb_arguments : string;            (* strings.Builder *)
  tb_started : bool;
  tb_finished : bool;
  tb_openAIIndex : Z
}.

Record anthropicStreamState := {
  st_messageID : string;
  st_model : string;
  st_started : bool;
  st_textBlockIndex : Z;
  st_nextBlockIndex : Z;
  st_textBlockStarted : bool;
  st_toolBlocks : gmap Z anthropicToolBlock;
  st_promptTokens : Z;
  st_completionTokens : Z
}.

(** The state of one call of [streamOpenAIToAnthropic]: the stream state,
    the two local variables of the function, the clock readings made and
    what has been written to the response so far. *)
Record reframer := {
  state : anthropicStreamState;
  lastFinishReason : option string;
  hasToolCalls : bool;
  tick : nat;
  written : list event
}.

(** Go's [range] over a map visits every entry once, in an order the
    language leaves open. *)
Record MapRange := {
  range_order :
    list (Z * anthropicToolBlock) -> list (Z * anthropicToolBlock);
  range_order_perm : forall l, range_order l ≡ₚ l
}.

(** What one call of [readSSEData] followed by [json.Unmarshal] gives the
    loop: [data == ""], [data == "[DONE]"], text that does not decode, or a
    decoded chunk. *)
Inductive sse_data : Type :=
| DataEmpty
| DataDone
| DataInvalid
| DataChunk (chunk : OpenAIStreamResponse).

(** [ReadFailed]: an error other than [io.EOF]; [ReadData d eof]: data [d],
    with [io.EOF] when [eof] holds. *)
Inductive sse_read : Type :=
| ReadFailed (err : string)
| ReadData (data : sse_data) (eof : bool).

Inductive go_error : Type :=
| io_EOF
| read_error (err : string).

(** [n + 1] on a Go [int] (64 bits, two's complement). *)
Definition int_succ (n : Z) : Z :=
  (n + 1 + 2 ^ 63) mod 2 ^ 64 - 2 ^ 63.

Definition set_state (f : anthropicStreamState -> anthropicStreamState)
    (r : reframer) : reframer :=
  {| state := f (state r); lastFinishReason := lastFinishReason r;
     hasToolCalls := hasToolCalls r; tick := tick r; written := written r |}.

Definition writeAnthropicEvent (e : event) (r : reframer) : reframer :=
  {| state := state r; lastFinishReason := lastFinishReason r;
     hasToolCalls := hasToolCalls r; tick := tick r;
     written := written r ++ [e] |}.

Definition set_toolBlocks (m : gmap Z anthropicToolBlock)
    (st : anthropicStreamState) : anthropicStreamState :=
  {| st_messageID := st_messageID st; st_model := st_model st;
     st_started := st_started st; st_textBlockIndex := st_textBlockIndex st;
     st_nextBlockIndex := st_nextBlockIndex st;
     st_textBlockStarted := st_textBlockStarted st;
     st_toolBlocks := m;
     st_promptTokens := st_promptTokens st;
     st_completionTokens := st_completionTokens st |}.

Definition set_nextBlockIndex (n : Z)
    (st : anthropicStreamState) : anthropicStreamState :=
  {| st_messageID := st_messageID st; st_model := st_model st;
     st_started := st_started st; st_textBlockIndex := st_textBlockIndex st;
     st_nextBlockIndex := n;
     st_textBlockStarted := st_textBlockStarted st;
     st_toolBlocks := st_toolBlocks st;
     st_promptTokens := st_promptTokens st;
     st_completionTokens := st_completionTokens st |}.

(** [state.textBlockIndex = state.nextBlockIndex; state.nextBlockIndex++;
    ...; state.textBlockStarted = true] *)
Definition open_text_block (st : anthropicStreamState) : anthropicStreamState :=
  {| st_messageID := st_messageID st; st_model := st_model st;
     st_started := st_started st;
     st_textBlockIndex := st_nextBlockIndex st;
     st_nextBlockIndex := int_succ (st_nextBlockIndex st);
     st_textBlockStarted := true;
     st_toolBlocks := st_toolBlocks st;
     st_promptTokens := st_promptTokens st;
     st_completionTokens := st_completionTokens st |}.

Definition set_usage (u : OpenAIUsage)
    (st : anthropicStreamState) : anthropicStreamState :=
  {| st_messageID := st_messageID st; st_model := st_model st;
     st_started := st_started st; st_textBlockIndex := st_textBlockIndex st;
     st_nextBlockIndex := st_nextBlockIndex st;
     st_textBlockStarted := st_textBlockStarted st;
     st_toolBlocks := st_toolBlocks st;
     st_promptTokens := ou_PromptTokens u;
     st_completionTokens := ou_CompletionTokens u |}.

Definition start_message (id model : string)
    (st : anthropicStreamState) : anthropicStreamState :=
  {| st_messageID := id; st_model := model;
     st_started := true; st_textBlockIndex := st_textBlockIndex st;
     st_nextBlockIndex := st_nextBlockIndex st;
     st_textBlockStarted := st_textBlockStarted st;
     st_toolBlocks := st_toolBlocks st;
     st_promptTokens := st_promptTokens st;
     st_completionTokens := st_completionTokens st |}.

(** [mapStopReason] and [generateToolCallID] of the monolith are, word for
    word, [MapStopReason] and [GenerateToolCallID] of the service package. *)
Definition mapStopReason : string -> bool -> string := MapStopReason.
Definition generateToolCallID : Clock -> nat -> string * nat :=
  GenerateToolCallID.

Section Reframer.

Variable clock : Clock.
Variable order : MapRange.
Variable fallbackModel : string.

Definition initial : reframer :=
  {| state :=
       {| st_messageID := ""; st_model := ""; st_started := false;
          st_textBlockIndex := -1; st_nextBlockIndex := 0;
          st_textBlockStarted := false; st_toolBlocks := ∅;
          st_promptTokens := 0; st_completionTokens := 0 |};
     lastFinishReason := None; hasToolCalls := false;
     tick := 0%nat; written := [] |}.

(** The body of [for _, call := range choice.Delta.ToolCalls]. *)
Definition on_tool_call (r : reframer) (call : StreamToolCall) : reframer :=
  let r := {| state := state r; lastFinishReason := lastFinishReason r;
              hasToolCalls := true; tick := tick r;
              written := written r |} in
  let '(block, r) :=
    match st_toolBlocks (state r) !! stc_Index call with
    | Some block => (block, r)
    | None =>
        let '(id, tick') :=
          if decide (stc_ID call = "")
          then generateToolCallID clock (tick r)
          else (stc_ID call, tick r) in
        let block :=
          {| tb_index := st_nextBlockIndex (state r);
             tb_id := id;
             tb_name := fc_Name (stc_Function call);
             tb_arguments := "";
             tb_started := false; tb_finished := false;
             tb_openAIIndex := stc_Index call |} in
        (block,
         {| state :=
              set_nextBlockIndex (int_succ (st_nextBlockIndex (state r)))
                (set_toolBlocks
                   (<[stc_Index call := block]> (st_toolBlocks (state r)))
                   (state r));
            lastFinishReason := lastFinishReason r;
            hasToolCalls := hasToolCalls r; tick := tick';
            written := written r |})
    end in
  let name :=
    if decide (fc_Name (stc_Function call) = "") then tb_name block
    else fc_Name (stc_Function call) in
  let arguments :=
    if decide (fc_Arguments (stc_Function call) = "") then tb_arguments block
    else tb_arguments block +:+ fc_Arguments (stc_Function call) in
  let r :=
    if tb_started block then r
    else writeAnthropicEvent
           (content_block_start_tool_use (tb_index block) (tb_id block) name)
           r in
  let block :=
    {| tb_index := tb_index block; tb_id := tb_id block; tb_name := name;
       tb_arguments := arguments; tb_started := true;
       tb_finished := tb_finished block;
       tb_openAIIndex := tb_openAIIndex block |} in
  set_state
    (fun st => set_toolBlocks (<[stc_Index call := block]> (st_toolBlocks st)) st)
    r.

(** The body of [for _, choice := range chunk.Choices]. *)
Definition on_choice (r : reframer) (choice : StreamChoice) : reframer :=
  let r :=
    match sc_FinishReason choice with
    | Some f =>
        {| state := state r; lastFinishReason := Some f;
           hasToolCalls := hasToolCalls r; tick := tick r;
           written := written r |}
    | None => r
    end in
  let content := sd_Content (sc_Delta choice) in
  let r :=
    if decide (content = "") then r
    else
      let r :=
        if st_textBlockStarted (state r) then r
        else
          let r := set_state open_text_block r in
          writeAnthropicEvent
            (content_block_start_text (st_textBlockIndex (state r))) r in
      writeAnthropicEvent
        (content_block_delta_text (st_textBlockIndex (state r)) content) r in
  List.fold_left on_tool_call (sd_ToolCalls (sc_Delta choice)) r.

(** The loop body once a chunk has been decoded. *)
Definition on_chunk (r : reframer) (chunk : OpenAIStreamResponse) : reframer :=
  let r :=
    if st_started (state r) then r
    else
      let '(id, tick') :=
        if decide (sr_ID chunk = "")
        then ("msg_" +:+ FormatInt (clock (tick r)), S (tick r))
        else (sr_ID chunk, tick r) in
      let model :=
        if decide (sr_Model chunk = "") then fallbackModel
        else sr_Model chunk in
      writeAnthropicEvent (message_start id model)
        {| state := start_message id model (state r);
           lastFinishReason := lastFinishReason r;
           hasToolCalls := hasToolCalls r; tick := tick';
           written := written r |} in
  let r :=
    match sr_Usage chunk with
    | Some u => set_state (set_usage u) r
    | None => r
    end in
  List.fold_left on_choice (sr_Choices chunk) r.

(** The [for] loop over the reads, up to its [break] ([None]) or its
    [return err] ([Some err]).  A reader that has nothing left returns
    no data and [io.EOF]. *)
Fixpoint read_loop (reads : list sse_read) (r : reframer)
  : reframer * option go_error :=
  match reads with
  | [] => (r, Some io_EOF)
  | ReadFailed err :: _ => (r, Some (read_error err))
  | ReadData data eof :: rest =>
      match data with
      | DataEmpty => if eof then (r, Some io_EOF) else read_loop rest r
      | DataDone => (r, None)
      | DataInvalid => read_loop rest r
      | DataChunk chunk =>
          let r := on_chunk r chunk in
          if eof then (r, None) else read_loop rest r
      end
  end.

(** The body of [for _, block := range state.toolBlocks] at the close. *)
Definition close_tool_block (r : reframer)
    (entry : Z * anthropicToolBlock) : reframer :=
  let '(key, block) := entry in
  let r :=
    if tb_started block then
      let args := TrimSpace (tb_arguments block) in
      if decide (args = "") then r
      else writeAnthropicEvent
             (content_block_delta_input_json (tb_index block) args) r
    else r in
  if tb_started block && negb (tb_finished block) then
    set_state
      (fun st =>
         set_toolBlocks
           (<[key := {| tb_index := tb_index block; tb_id := tb_id block;
                        tb_name := tb_name block;
                        tb_arguments := tb_arguments block;
                        tb_started := tb_started block;
                        tb_finished := true;
                        tb_openAIIndex := tb_openAIIndex block |}]>
              (st_toolBlocks st)) st)
      (writeAnthropicEvent (content_block_stop (tb_index block)) r)
  else r.

(** Everything after the loop. *)
Definition close_stream (r : reframer) : reframer :=
  let r :=
    if st_textBlockStarted (state r)
    then writeAnthropicEvent
           (content_block_stop (st_textBlockIndex (state r))) r
    else r in
  let r :=
    List.fold_left close_tool_block
      (range_order order (map_to_list (st_toolBlocks (state r)))) r in
  let r :=
    match lastFinishReason r with
    | Some f =>
        writeAnthropicEvent
          (message_delta (mapStopReason f (hasToolCalls r))
             (st_completionTokens (state r))
             (if (0 <? st_promptTokens (state r))%Z
              then Some (st_promptTokens (state r)) else None)) r
    | None => r
    end in
  writeAnthropicEvent message_stop r.

(** [streamOpenAIToAnthropic]: what is written to the response, and the
    error returned. *)
Definition streamOpenAIToAnthropic (reads : list sse_read)
  : list event * option go_error :=
  match read_loop reads initial with
  | (r, Some err) => (written r, Some err)
  | (r, None) => (written (close_stream r), None)
  end.

End Reframer.

(** ** The two HTTP handlers of the typed-block endpoint

    The upstream gateway is a parameter: [ProxyRequest] and [ProxyStream]
    take the flat request (the code hands them its [json.Marshal]) and give
    an error message or the upstream status and body.  Response headers
    are left out of the model. *)

Record UpstreamResponse := {
  up_StatusCode : Z;
  up_Body : string
}.

Record Client := {
  ProxyRequest : gmap string json -> string + UpstreamResponse;
  ProxyStream : gmap string json -> string + UpstreamResponse
}.

(** What a handler writes to a streamed response body: bytes copied as
    they are, or one typed-block event. *)
Inductive output : Type :=
| Raw (bytes : string)
| SSE (e : event).

Inductive reply : Type :=
| reply_error (code : Z) (message : string)
| reply_data (status code : Z) (body : string)
    (* c.Status(status); c.Data(code, "application/json", body) *)
| reply_upstream (status : Z) (body : string)
    (* w.WriteHeader(status); w.Write(body) *)
| reply_message (resp : AnthropicResponse)
| reply_stream (status : Z) (body : list output).

Definition with_model (model : string) (req : AnthropicRequest)
  : AnthropicRequest :=
  {| ar_Model := model; ar_Messages := ar_Messages req;
     ar_System := ar_System req; ar_MaxTokens := ar_MaxTokens req;
     ar_Temperature := ar_Temperature req; ar_TopP := ar_TopP req;
     ar_TopK := ar_TopK req; ar_Stream := ar_Stream req;
     ar_Tools := ar_Tools req; ar_ToolChoice := ar_ToolChoice req;
     ar_StopSequences := ar_StopSequences req |}.

(** [statusCode < 200 || statusCode > 299] *)
Definition not_2xx (statusCode : Z) : bool :=
  ((statusCode <? 200) || (299 <? statusCode))%Z.

(** The part of both packages' handlers from the decoded upstream response
    to the reply. *)
Definition anthropic_reply (codec : JSONCodec) (clock : Clock)
    (req : AnthropicRequest) (openAIResp : OpenAIResponse) (tick : nat)
  : reply :=
  match or_Choices openAIResp with
  | [] => reply_error 502 "no choices in response"
  | choice :: _ =>
      match oc_Message choice with
      | None => reply_error 502 "no choices in response"
      | Some message =>
          let '(contentBlocks, _) :=
            BuildAnthropicContentBlocks codec clock (Some message) tick in
          let hasToolCalls :=
            bool_decide (om_ToolCalls message <> [])
            || bool_decide (om_FunctionCall message <> None) in
          reply_message
            {| resp_ID := or_ID openAIResp;
               resp_Type := "message";
               resp_Role := "assistant";
               resp_Model :=
                 if decide (or_Model openAIResp = "") then ar_Model req
                 else or_Model openAIResp;
               resp_Content := contentBlocks;
               resp_StopReason :=
                 MapStopReason (oc_FinishReason choice) hasToolCalls;
               resp_StopSequence := "";
               resp_Usage :=
                 {| au_InputTokens := ou_PromptTokens (or_Usage openAIResp);
                    au_OutputTokens :=
                      ou_CompletionTokens (or_Usage openAIResp) |} |}
      end
  end.

(** internal/usecase: the Gin handlers. *)
Module Usecase.
Section Handlers.

Variable codec : JSONCodec.
Variable clock : Clock.
Variable client : Client.
Variable defaultModel : string.      (* getDefaultModel(alias) *)

(** The [if] statements that fill [openAIReq] after its literal, the
    same in [HandleAnthropic] and in [handleAnthropicStream]. *)
Definition fill_openAIReq (req : AnthropicRequest)
    (openAIReq : gmap string json) : gmap string json :=
  let openAIReq :=
    if (0 <? ar_MaxTokens req)%Z
    then <[ "max_tokens" := JInt (ar_MaxTokens req) ]> openAIReq
    else openAIReq in
  let openAIReq :=
    match ar_Temperature req with
    | Some t => <[ "temperature" := JFloat t ]> openAIReq
    | None => openAIReq
    end in
  let openAIReq :=
    match ar_TopP req with
    | Some t => <[ "top_p" := JFloat t ]> openAIReq
    | None => openAIReq
    end in
  let openAIReq :=
    match ar_StopSequences req with
    | [] => openAIReq
    | stop => <[ "stop" := JArr (JStr <$> stop) ]> openAIReq
    end in
  let openAIReq :=
    match ConvertAnthropicTools (ar_Tools req) with
    | [] => openAIReq
    | tools => <[ "tools" := JArr (JObj <$> tools) ]> openAIReq
    end in
  if is_nil (ar_ToolChoice req) then openAIReq
  else <[ "tool_choice" := ConvertAnthropicToolChoice (ar_ToolChoice req) ]>
         openAIReq.

(** The flat request [HandleAnthropic] sends upstream, and the clock
    readings made while building it. *)
Definition HandleAnthropic_openAIReq (req : AnthropicRequest)
  : gmap string json * nat :=
  let '(openAIMessages, tick) :=
    ConvertAnthropicToOpenAIMessages codec clock
      (ar_System req) (ar_Messages req) 0 in
  (fill_openAIReq req
     {[ "model" := JStr (ar_Model req);
        "messages" := JArr (JObj <$> openAIMessages);
        "stream" := JBool false ]}, tick).

Definition handleAnthropicStream_openAIReq (req : AnthropicRequest)
  : gmap string json * nat :=
  let '(openAIMessages, tick) :=
    ConvertAnthropicToOpenAIMessages codec clock
      (ar_System req) (ar_Messages req) 0 in
  (fill_openAIReq req
     {[ "model" := JStr (ar_Model req);
        "messages" := JArr (JObj <$> openAIMessages);
        "stream" := JBool true;
        "stream_options" := JObj {[ "include_usage" := JBool true ]} ]},
   tick).

Definition handleAnthropicStream (req : AnthropicRequest) : reply :=
  let '(openAIReq, _) := handleAnthropicStream_openAIReq req in
  match ProxyStream client openAIReq with
  | inl err => reply_error 502 err
  | inr resp =>
      if not_2xx (up_StatusCode resp)
      then reply_stream (up_StatusCode resp) [Raw (up_Body resp)]
      else
        (* Stream conversion would go here
           For simplicity, we passthrough the stream *)
        reply_stream 200 [Raw (up_Body resp)]
  end.

Definition HandleAnthropic (req : AnthropicRequest) : reply :=
  let req :=
    if decide (ar_Model req = "") then with_model defaultModel req
    else req in
  if ar_Stream req then handleAnthropicStream req
  else
    let '(openAIReq, tick) := HandleAnthropic_openAIReq req in
    match ProxyRequest client openAIReq with
    | inl err => reply_error 502 err
    | inr resp =>
        if not_2xx (up_StatusCode resp)
        then reply_data (up_StatusCode resp) 200 (up_Body resp)
        else
          match UnmarshalOpenAIResponse codec (up_Body resp) with
          | None => reply_error 502 "invalid upstream response"
          | Some openAIResp => anthropic_reply codec clock req openAIResp tick
          end
    end.

End Handlers.
End Usecase.

(** The monolithic [main] package. *)
Module Main.
Section Handlers.

Variable codec : JSONCodec.
Variable clock : Clock.
Variable order : MapRange.
Variable client : Client.
Variable defaultModel : string.      (* getEnvFirst(..., "tstars2.0") *)
(** [readSSEData] and [json.Unmarshal] run over a response body. *)
Variable readSSE : string -> list sse_read.

Definition fill_openAIReq (req : AnthropicRequest)
    (openAIReq : gmap string json) : gmap string json :=
  let openAIReq :=
    if (0 <? ar_MaxTokens req)%Z
    then <[ "max_tokens" := JInt (ar_MaxTokens req) ]> openAIReq
    else openAIReq in
  let openAIReq :=
    match ar_Temperature req with
    | Some t => <[ "temperature" := JFloat t ]> openAIReq
    | None => openAIReq
    end in
  let openAIReq :=
    match ar_TopP req with
    | Some t => <[ "top_p" := JFloat t ]> openAIReq
    | None => openAIReq
    end in
  let openAIReq :=
    match ar_TopK req with
    | Some k => <[ "top_k" := JInt k ]> openAIReq
    | None => openAIReq
    end in
  let openAIReq :=
    match ar_StopSequences req with
    | [] => openAIReq
    | stop => <[ "stop" := JArr (JStr <$> stop) ]> openAIReq
    end in
  let openAIReq :=
    match ConvertAnthropicTools (ar_Tools req) with
    | [] => openAIReq
    | tools => <[ "tools" := JArr (JObj <$> tools) ]> openAIReq
    end in
  if is_nil (ar_ToolChoice req) then openAIReq
  else <[ "tool_choice" := ConvertAnthropicToolChoice (ar_ToolChoice req) ]>
         openAIReq.

Definition handleAnthropic_openAIReq (req : AnthropicRequest)
  : gmap string json * nat :=
  let '(openAIMessages, tick) :=
    ConvertAnthropicToOpenAIMessages codec clock
      (ar_System req) (ar_Messages req) 0 in
  (fill_openAIReq req
     {[ "model" := JStr (ar_Model req);
        "messages" := JArr (JObj <$> openAIMessages);
        "stream" := JBool false ]}, tick).

Definition handleAnthropicStream_openAIReq (req : AnthropicRequest)
  : gmap string json * nat :=
  let '(openAIMessages, tick) :=
    ConvertAnthropicToOpenAIMessages codec clock
      (ar_System req) (ar_Messages req) 0 in
  (fill_openAIReq req
     {[ "model" := JStr (ar_Model req);
        "messages" := JArr (JObj <$> openAIMessages);
        "stream" := JBool true;
        "stream_options" := JObj {[ "include_usage" := JBool true ]} ]},
   tick).

Definition handleAnthropicStream (req : AnthropicRequest) : reply :=
  let req :=
    if decide (ar_Model req = "") then with_model defaultModel req
    else req in
  let '(openAIReq, _) := handleAnthropicStream_openAIReq req in
  match ProxyStream client openAIReq with
  | inl err => reply_error 502 err
  | inr resp =>
      if not_2xx (up_StatusCode resp)
      then reply_stream (up_StatusCode resp) [Raw (up_Body resp)]
      else
        reply_stream 200
          (SSE <$> fst (streamOpenAIToAnthropic clock order (ar_Model req)
                          (readSSE (up_Body resp))))
  end.

Definition handleAnthropic (req : AnthropicRequest) : reply :=
  if ar_Stream req then handleAnthropicStream req
  else
    let req :=
      if decide (ar_Model req = "") then with_model defaultModel req
      else req in
    let '(openAIReq, tick) := handleAnthropic_openAIReq req in
    match ProxyRequest client openAIReq with
    | inl err => reply_error 502 err
    | inr resp =>
        if not_2xx (up_StatusCode resp)
        then reply_upstream (up_StatusCode resp) (up_Body resp)
        else
          match UnmarshalOpenAIResponse codec (up_Body resp) with
          | None => reply_error 502 "invalid upstream response"
          | Some openAIResp => anthropic_reply codec clock req openAIResp tick
          end
    end.

End Handlers.
End Main.

(** ** Paths and upstream URLs *)

(** [stripAliasPrefix] of the use case. *)
Definition stripAliasPrefix (path alias : string) : string :=
  if decide (alias = "") then path
  else
    let prefix := "/" +:+ alias in
    if HasPrefix path (prefix +:+ "/") then
      slice_from path (String.length prefix)
    else if decide (path = prefix) then "/"
    else path.

(** [buildUpstreamURL], the same in the proxy client and in the monolith. *)
Definition buildUpstreamURL (baseURL path rawQuery : string) : string :=
  let upstreamPath := path in
  let upstreamPath :=
    if HasSuffix baseURL "/v1" && HasPrefix upstreamPath "/v1" then
      let upstreamPath := TrimPrefix upstreamPath "/v1" in
      if decide (upstreamPath = "") then "/" else upstreamPath
    else upstreamPath in
  let upstreamPath :=
    if negb (HasPrefix upstreamPath "/") then "/" +:+ upstreamPath
    else upstreamPath in
  let url := baseURL +:+ upstreamPath in
  if decide (rawQuery <> "") then url +:+ "?" +:+ rawQuery else url.

(** ** The Responses use case: the request side *)

Definition extractTextFromContent (content : json) : string :=
  match content with
  | JNull => ""
  | JStr v => v
  | JArr v =>
      Join
        (List.fold_left
           (fun parts item =>
              match item with
              | JObj block =>
                  let blockType := as_string (get block "type") in
                  if bool_decide (blockType <> "")
                     && bool_decide (blockType <> "input_text")
                     && bool_decide (blockType <> "text")
                     && bool_decide (blockType <> "output_text")
                  then parts
                  else
                    match is_string (get block "text") with
                    | Some text =>
                        if blank text then parts else parts ++ [text]
                    | None => parts
                    end
              | JStr text => if blank text then parts else parts ++ [text]
              | _ => parts
              end) v [])
        (String (ascii_of_N 10) EmptyString)
  | JObj v =>
      match is_string (get v "text") with
      | Some text => text
      | None => ""
      end
  | _ => ""
  end.

(** [buildToolMessage]: [None] is the nil map. *)
Definition buildToolMessage (msg : gmap string json)
  : option (gmap string json) :=
  let toolID := "" in
  let toolID :=
    match is_string (get msg "tool_call_id") with
    | Some v => v
    | None => toolID
    end in
  let toolID :=
    if decide (toolID = "") then
      match is_string (get msg "call_id") with
      | Some v => v
      | None => toolID
      end
    else toolID in
  let toolID :=
    if decide (toolID = "") then
      match is_string (get msg "id") with
      | Some v => v
      | None => toolID
      end
    else toolID in
  let content :=
    match is_string (get msg "output") with
    | Some v => v
    | None =>
        match is_string (get msg "content") with
        | Some v => v
        | None => extractTextFromContent (get msg "content")
        end
    end in
  if bool_decide (toolID = "") && blank content then None
  else
    let message : gmap string json :=
      {[ "role" := JStr "tool"; "content" := JStr content ]} in
    Some (if decide (toolID <> "")
          then <[ "tool_call_id" := JStr toolID ]> message
          else message).

(** [parseResponsesInput]: its error result is always nil, so only the
    messages are returned. *)
Definition parseResponsesInput (input : json) : list (gmap string json) :=
  if is_nil input then []
  else
    let items := match input with JArr list => list | _ => [input] end in
    List.fold_left
      (fun messages item =>
         match item with
         | JObj msg =>
             let itemType := as_string (get msg "type") in
             if bool_decide (itemType = "tool_output")
                || bool_decide (itemType = "tool_result")
             then
               match buildToolMessage msg with
               | Some toolMsg => messages ++ [toolMsg]
               | None => messages
               end
             else
               let role := as_string (get msg "role") in
               let role := if blank role then "user" else role in
               let content := extractTextFromContent (get msg "content") in
               let message : gmap string json :=
                 {[ "role" := JStr role; "content" := JStr content ]} in
               let message :=
                 if decide (role = "tool") then
                   match is_string (get msg "tool_call_id") with
                   | Some toolID =>
                       if blank toolID then message
                       else <[ "tool_call_id" := JStr toolID ]> message
                   | None => message
                   end
                 else message in
               let message :=
                 match msg !! "tool_calls" with
                 | Some toolCalls => <[ "tool_calls" := toolCalls ]> message
                 | None => message
                 end in
               let message :=
                 match msg !! "function_call" with
                 | Some functionCall =>
                     <[ "function_call" := functionCall ]> message
                 | None => message
                 end in
               messages ++ [message]
         | JStr text =>
             if blank text then messages
             else messages ++
                    [ {[ "role" := JStr "user"; "content" := JStr text ]} ]
         | _ => messages
         end) items [].

Definition copyIfPresent (src dst : gmap string json) (key : string)
  : gmap string json :=
  match src !! key with
  | Some val => <[ key := val ]> dst
  | None => dst
  end.

(** [buildChatRequestFromResponses]: the chat request and the stream flag,
    or the error.  [defaultModel] is [getDefaultModel(alias)]. *)
Definition buildChatRequestFromResponses (defaultModel : string)
    (payload : gmap string json) : string + (gmap string json * bool) :=
  let chatReq : gmap string json := ∅ in
  let modelVal := as_string (get payload "model") in
  let modelVal := if blank modelVal then defaultModel else modelVal in
  let chatReq := <[ "model" := JStr modelVal ]> chatReq in
  let stream :=
    match payload !! "stream" with
    | Some (JBool v) => v
    | _ => false
    end in
  let chatReq := <[ "stream" := JBool stream ]> chatReq in
  let chatReq :=
    if stream
    then <[ "stream_options" := JObj {[ "include_usage" := JBool true ]} ]>
           chatReq
    else chatReq in
  let instructions := as_string (get payload "instructions") in
  let chatReq :=
    if blank instructions then chatReq
    else <[ "messages" :=
              JArr [ JObj {[ "role" := JStr "system";
                             "content" := JStr instructions ]} ] ]> chatReq in
  let messages := parseResponsesInput (get payload "input") in
  let chatReq :=
    if bool_decide (messages <> []) then
      match chatReq !! "messages" with
      | Some (JArr existing) =>
          <[ "messages" := JArr (existing ++ (JObj <$> messages)) ]> chatReq
      | _ => <[ "messages" := JArr (JObj <$> messages) ]> chatReq
      end
    else chatReq in
  match chatReq !! "messages" with
  | None => inl "missing input messages"
  | Some _ =>
      let chatReq := copyIfPresent payload chatReq "temperature" in
      let chatReq := copyIfPresent payload chatReq "top_p" in
      let chatReq := copyIfPresent payload chatReq "presence_penalty" in
      let chatReq := copyIfPresent payload chatReq "frequency_penalty" in
      let chatReq := copyIfPresent payload chatReq "seed" in
      let chatReq := copyIfPresent payload chatReq "response_format" in
      let chatReq := copyIfPresent payload chatReq "tools" in
      let chatReq := copyIfPresent payload chatReq "tool_choice" in
      let chatReq := copyIfPresent payload chatReq "parallel_tool_calls" in
      let chatReq :=
        match payload !! "max_output_tokens" with
        | Some maxOutputTokens => <[ "max_tokens" := maxOutputTokens ]> chatReq
        | None =>
            match payload !! "max_tokens" with
            | Some maxTokens => <[ "max_tokens" := maxTokens ]> chatReq
            | None => chatReq
            end
        end in
      inr (chatReq, stream)
  end.

(** ** The Responses use case: the response side *)

Definition parseToolCallArguments (codec : JSONCodec) (raw : string) : json :=
  let raw := TrimSpace raw in
  if decide (raw = "") then JObj ∅
  else match Unmarshal codec raw with
       | None => JStr raw
       | Some payload => payload
       end.

Definition buildResponsesToolCallItems (codec : JSONCodec)
    (toolCalls : list OpenAIToolCall) : list (gmap string json) :=
  List.fold_left
    (fun items call =>
       let name := TrimSpace (fc_Name (tc_Function call)) in
       if bool_decide (name = "") && blank (fc_Arguments (tc_Function call))
       then items
       else
         items ++
           [ {[ "id" := JStr (tc_ID call);
                "call_id" := JStr (tc_ID call);
                "type" := JStr "tool_call";
                "name" := JStr name;
                "arguments" :=
                  parseToolCallArguments codec
                    (fc_Arguments (tc_Function call)) ]} ])
    toolCalls [].

(** [responseMessageID]: reads the clock when the response has no id. *)
Definition responseMessageID (clock : Clock) (responseID : string)
    (tick : nat) : string * nat :=
  if blank responseID then ("msg_" +:+ FormatInt (clock tick), S tick)
  else (responseID +:+ "_msg", tick).

Definition convertOpenAIResponseToResponses (codec : JSONCodec)
    (clock : Clock) (openAIResp : OpenAIResponse) (reqModel : string)
    (tick : nat) : gmap string json * nat :=
  let modelName := or_Model openAIResp in
  let modelName := if blank modelName then reqModel else modelName in
  let '(message, finishReason) :=
    match or_Choices openAIResp with
    | choice :: _ => (oc_Message choice, oc_FinishReason choice)
    | [] => (None, "")
    end in
  let outputItems : list json := [] in
  let '(messageID, tick) := responseMessageID clock (or_ID openAIResp) tick in
  let messageItem : gmap string json :=
    {[ "id" := JStr messageID;
       "type" := JStr "message";
       "role" := JStr "assistant";
       "content" := JArr [] ]} in
  let '(messageItem, outputItems) :=
    match message with
    | Some message =>
        let text := TrimSpace (OpenAIContentToString (om_Content message)) in
        let messageItem :=
          if decide (text <> "") then
            <[ "content" :=
                 JArr [ JObj {[ "type" := JStr "output_text";
                                "text" := JStr text ]} ] ]> messageItem
          else messageItem in
        let toolCallItems :=
          buildResponsesToolCallItems codec (om_ToolCalls message) in
        if bool_decide (toolCallItems <> []) then
          (<[ "tool_calls" := JArr (JObj <$> toolCallItems) ]> messageItem,
           outputItems ++ (JObj <$> toolCallItems))
        else (messageItem, outputItems)
    | None => (messageItem, outputItems)
    end in
  let outputItems := [JObj messageItem] ++ outputItems in
  let response : gmap string json :=
    {[ "id" := JStr (or_ID openAIResp);
       "object" := JStr "response";
       "created" := JInt (or_Created openAIResp);
       "model" := JStr modelName;
       "output" := JArr outputItems;
       "usage" := JObj {[ "input_tokens" :=
                            JInt (ou_PromptTokens (or_Usage openAIResp));
                          "output_tokens" :=
                            JInt (ou_CompletionTokens (or_Usage openAIResp));
                          "total_tokens" :=
                            JInt (ou_TotalTokens (or_Usage openAIResp)) ]} ]} in
  let response :=
    if decide (finishReason <> "")
    then <[ "finish_reason" := JStr finishReason ]> response
    else response in
  (response, tick).

(** ** The chat completions route of both packages

    [HandleOpenAI] is the Gin handler of the use case, [handleOpenAI] the
    handler of the monolith; each completes the decoded payload and hands
    it to the gateway. *)

Definition HandleOpenAI_payload (defaultModel : string)
    (payload : gmap string json) : gmap string json :=
  let payload :=
    match is_string (get payload "model") with
    | Some modelVal =>
        if decide (modelVal = "")
        then <[ "model" := JStr defaultModel ]> payload
        else payload
    | None => <[ "model" := JStr defaultModel ]> payload
    end in
  match payload !! "stream" with
  | Some v => if is_nil v then <[ "stream" := JBool false ]> payload
              else payload
  | None => <[ "stream" := JBool false ]> payload
  end.

Definition HandleOpenAI (client : Client) (defaultModel : string)
    (payload : gmap string json) : reply :=
  match ProxyRequest client (HandleOpenAI_payload defaultModel payload) with
  | inl err => reply_error 502 err
  | inr resp => reply_data (up_StatusCode resp) 200 (up_Body resp)
  end.

Definition handleOpenAI_payload (defaultModel : string)
    (payload : gmap string json) : gmap string json :=
  let modelVal := as_string (get payload "model") in
  let payload :=
    if blank modelVal then <[ "model" := JStr defaultModel ]> payload
    else payload in
  match payload !! "stream" with
  | Some v => if is_nil v then <[ "stream" := JBool false ]> payload
              else payload
  | None => <[ "stream" := JBool false ]> payload
  end.

Definition handleOpenAI (client : Client) (defaultModel : string)
    (payload : gmap string json) : reply :=
  match ProxyRequest client (handleOpenAI_payload defaultModel payload) with
  | inl err => reply_error 502 err
  | inr resp => reply_upstream (up_StatusCode resp) (up_Body resp)
  end.

(** ** Definitions the properties are stated with *)

(** Modelled from the spec: the StopReason classification of the data
    model (EndTurn, MaxTokens, ToolUse, Other).  The code has no such type,
    it returns the wire strings; [classify] reads a wire string back. *)
Inductive StopReason : Type := EndTurn | MaxTokens | ToolUse | Other.

Definition classify (stop_reason : string) : StopReason :=
  if decide (stop_reason = "end_turn") then EndTurn
  else if decide (stop_reason = "max_tokens") then MaxTokens
  else if decide (stop_reason = "tool_use") then ToolUse
  else Other.

(** An iteration order for the witnesses: the order of [map_to_list]. *)
Definition range_in_key_order : MapRange :=
  {| range_order := fun l => l;
     range_order_perm := fun l => reflexivity l |}.

Definition clock_from (t0 : Z) : Clock := fun n => (t0 + Z.of_nat n)%Z.

(** The two content chunks and the end marker of the streaming scenario. *)
Definition text_chunk (id model content : string) (finish : option string)
  : OpenAIStreamResponse :=
  {| sr_ID := id; sr_Object := ""; sr_Created := 0; sr_Model := model;
     sr_Usage := None;
     sr_Choices :=
       [ {| sc_Index := 0;
            sc_Delta := {| sd_Role := ""; sd_Content := content;
                           sd_ToolCalls := [] |};
            sc_FinishReason := finish |} ] |}.

Definition scenario_reads : list sse_read :=
  [ ReadData (DataChunk (text_chunk "x" "m" "Hi" None)) false;
    ReadData (DataChunk (text_chunk "" "" " there" (Some "stop"))) false;
    ReadData DataDone false ].

(** A content block of the outgoing stream, named by what opens it: the
    text block, or the tool block of one upstream tool-call position. *)
Inductive block_key : Type :=
| TextBlock
| ToolBlock (position : Z).

Global Instance block_key_eq_dec : EqDecision block_key.
Proof. solve_decision. Defined.

(** The blocks a choice delta touches, in the order the loop handles them:
    the text block when the delta carries text, then one tool block per
    tool-call fragment. *)
Definition choice_keys (choice : StreamChoice) : list block_key :=
  (if decide (sd_Content (sc_Delta choice) = "") then [] else [TextBlock])
  ++ ((fun call => ToolBlock (stc_Index call))
        <$> sd_ToolCalls (sc_Delta choice)).

Definition chunk_keys (chunk : OpenAIStreamResponse) : list block_key :=
  concat (choice_keys <$> sr_Choices chunk).

(** The chunks the loop decodes before it leaves, following the control
    flow of [read_loop]. *)
Fixpoint consumed (reads : list sse_read) : list OpenAIStreamResponse :=
  match reads with
  | [] => []
  | ReadFailed _ :: _ => []
  | ReadData data eof :: rest =>
      match data with
      | DataEmpty => if eof then [] else consumed rest
      | DataDone => []
      | DataInvalid => consumed rest
      | DataChunk chunk => chunk :: (if eof then [] else consumed rest)
      end
  end.

Definition appearances (reads : list sse_read) : list block_key :=
  concat (chunk_keys <$> consumed reads).

(** Keeps the first occurrence of every block, in order. *)
Definition see (seen : list block_key) (k : block_key) : list block_key :=
  if decide (k ∈ seen) then seen else seen ++ [k].

Definition first_seen (l : list block_key) : list block_key :=
  List.fold_left see l [].

(** The index a block has been given in a state, if it has one. *)
Definition index_of (r : reframer) (k : block_key) : option Z :=
  match k with
  | TextBlock =>
      if st_textBlockStarted (state r)
      then Some (st_textBlockIndex (state r)) else None
  | ToolBlock position => tb_index <$> st_toolBlocks (state r) !! position
  end.

(** The indices of the [content_block_start] events, in emission order. *)
Definition start_index (e : event) : option Z :=
  match e with
  | content_block_start_text index => Some index
  | content_block_start_tool_use index _ _ => Some index
  | _ => None
  end.

Definition block_starts (events : list event) : list Z :=
  omap start_index events.

(** The argument fragments received for one upstream position, joined. *)
Definition call_fragment (position : Z) (call : StreamToolCall) : string :=
  if decide (stc_Index call = position)
  then fc_Arguments (stc_Function call) else "".

Definition chunk_calls (chunk : OpenAIStreamResponse) : list StreamToolCall :=
  concat ((fun choice => sd_ToolCalls (sc_Delta choice)) <$> sr_Choices chunk).

Definition join_all (l : list string) : string :=
  List.fold_right String.append "" l.

Definition received (position : Z) (reads : list sse_read) : string :=
  join_all (call_fragment position <$> concat (chunk_calls <$> consumed reads)).

(** The argument buffer of the tool block of a position. *)
Definition buffer (r : reframer) (position : Z) : string :=
  default "" (tb_arguments <$> st_toolBlocks (state r) !! position).

(** What the close writes for one entry of the tool-block map. *)
Definition block_close_events (entry : Z * anthropicToolBlock) : list event :=
  let block := snd entry in
  (if tb_started block then
     if decide (TrimSpace (tb_arguments block) = "") then []
     else [content_block_delta_input_json (tb_index block)
             (TrimSpace (tb_arguments block))]
   else [])
  ++ (if tb_started block && negb (tb_finished block)
      then [content_block_stop (tb_index block)] else []).

(** The block-index invariant.  [F] lists the blocks opened so far, oldest
    first: the counter is its length, the block at place [n] has index [n],
    the [content_block_start] events written so far carry 0, 1, 2, ... in
    that order, and every tool block of the map has been started and not
    yet finished. *)
Definition indexed (F : list block_key) (r : reframer) : Prop :=
  NoDup F
  /\ st_nextBlockIndex (state r) = Z.of_nat (length F)
  /\ block_starts (written r) = Z.of_nat <$> seq 0 (length F)
  /\ (forall k n, F !! n = Some k -> index_of r k = Some (Z.of_nat n))
  /\ (forall k, k ∉ F -> index_of r k = None)
  /\ (forall p b, st_toolBlocks (state r) !! p = Some b ->
        tb_started b = true /\ tb_finished b = false).

(** The input_json_delta events: index and partial JSON, in emission
    order; and the partial JSON of those with a given index. *)
Definition input_json_of (e : event) : option (Z * string) :=
  match e with
  | content_block_delta_input_json index partial_json =>
      Some (index, partial_json)
  | _ => None
  end.

Definition input_jsons (events : list event) : list (Z * string) :=
  omap input_json_of events.

Definition input_jsons_at (index : Z) (events : list event) : list string :=
  snd <$> filter (fun d => fst d = index) (input_jsons events).

(** A tool-call fragment and a chunk of fragments. *)
Definition fragment (position : Z) (id name arguments : string)
  : StreamToolCall :=
  {| stc_Index := position; stc_ID := id; stc_Type := "";
     stc_Function := {| fc_Name := name; fc_Arguments := arguments |} |}.

Definition tool_chunk (calls : list StreamToolCall) (finish : option string)
  : OpenAIStreamResponse :=
  {| sr_ID := ""; sr_Object := ""; sr_Created := 0; sr_Model := "";
     sr_Usage := None;
     sr_Choices :=
       [ {| sc_Index := 0;
            sc_Delta := {| sd_Role := ""; sd_Content := "";
                           sd_ToolCalls := calls |};
            sc_FinishReason := finish |} ] |}.

(** A text delta, then fragments for the upstream positions 3 and 1
    interleaved (position 3 receives " {}" and then " x ", position 1 a
    single space), then the end marker. *)
Definition interleaved_reads : list sse_read :=
  [ ReadData (DataChunk (text_chunk "x" "m" "Hi" None)) false;
    ReadData (DataChunk
                (tool_chunk [ fragment 3 "" "f" " {}";
                              fragment 1 "a" "g" " ";
                              fragment 3 "" "" " x " ]
                   (Some "tool_calls"))) false;
    ReadData DataDone false ].

(** A typed-block request that sets top_k (and max_tokens). *)
Definition request_with_top_k : AnthropicRequest :=
  {| ar_Model := "m";
     ar_Messages := [ {| am_Role := "user"; am_Content := JStr "hi" |} ];
     ar_System := JNull; ar_MaxTokens := 16;
     ar_Temperature := None; ar_TopP := None; ar_TopK := Some 40;
     ar_Stream := false; ar_Tools := []; ar_ToolChoice := JNull;
     ar_StopSequences := [] |}.

(** The flat tool-role message of one tool_result block. *)
Definition tool_result_message (codec : JSONCodec)
    (block : gmap string json) : gmap string json :=
  {[ "role" := JStr "tool";
     "tool_call_id" := JStr (as_string (get block "tool_use_id"));
     "content" := JStr (StringifyToolResult codec (get block "content")) ]}.



(** The first choice of a flat response has no message, or there is no
    choice at all. *)
Definition lacks_message (openAIResp : OpenAIResponse) : Prop :=
  match or_Choices openAIResp with
  | [] => True
  | choice :: _ => oc_Message choice = None
  end.

(** Stand-ins for the witnesses: a codec that writes one-field objects of
    strings and reads the four shortest JSON texts, and decodes every
    response body to [openAIResp]; a gateway that answers every request
    with [resp]. *)
Definition witness_Marshal (v : json) : option string :=
  match v with
  | JObj fields =>
      match map_to_list fields with
      | [(k, JStr s)] =>
          Some ("{" +:+ dq +:+ k +:+ dq +:+ ":" +:+ dq +:+ s +:+ dq +:+ "}")
      | [] => Some "{}"
      | _ => None
      end
  | JNull => Some "null"
  | _ => None
  end.

Definition witness_Unmarshal (s : string) : option json :=
  if decide (s = "null") then Some JNull
  else if decide (s = "true") then Some (JBool true)
  else if decide (s = "false") then Some (JBool false)
  else if decide (s = "{}") then Some (JObj ∅)
  else None.

Definition witness_codec (openAIResp : OpenAIResponse) : JSONCodec :=
  {| Marshal := witness_Marshal;
     Unmarshal := witness_Unmarshal;
     UnmarshalOpenAIResponse := fun _ => Some openAIResp |}.

Definition witness_client (resp : UpstreamResponse) : Client :=
  {| ProxyRequest := fun _ => inr resp;
     ProxyStream := fun _ => inr resp |}.

Definition text_response : OpenAIResponse :=
  {| or_ID := "r1"; or_Object := ""; or_Created := 0; or_Model := "m";
     or_Choices :=
       [ {| oc_Index := 0;
            oc_Message :=
              Some {| om_Role := "assistant"; om_Content := JStr "hello";
                      om_ToolCalls := []; om_FunctionCall := None |};
            oc_FinishReason := "stop" |} ];
     or_Usage := {| ou_PromptTokens := 1; ou_CompletionTokens := 2;
                    ou_TotalTokens := 3 |} |}.

Definition empty_response : OpenAIResponse :=
  {| or_ID := "r2"; or_Object := ""; or_Created := 0; or_Model := "m";
     or_Choices := [];
     or_Usage := {| ou_PromptTokens := 0; ou_CompletionTokens := 0;
                    ou_TotalTokens := 0 |} |}.

(** Two tool_result blocks, for the witness of the request translator. *)
Definition two_results : list (gmap string json) :=
  [ {[ "type" := JStr "tool_result"; "tool_use_id" := JStr "t1";
       "content" := JStr "42" ]};
    {[ "type" := JStr "tool_result"; "tool_use_id" := JStr "t2";
       "content" := JNull ]} ].

(** The keys of the flat request that carry the sampling parameters. *)
Definition sampling_keys : list string :=
  ["max_tokens"; "temperature"; "top_p"; "top_k"; "stop"].

(** What the claim asks of the flat request [out] built for [req]. *)
Definition passes_sampling (req : AnthropicRequest)
    (out : gmap string json) : Prop :=
  out !! "max_tokens"
    = (if (0 <? ar_MaxTokens req)%Z then Some (JInt (ar_MaxTokens req))
       else None)
  /\ out !! "temperature" = JFloat <$> ar_Temperature req
  /\ out !! "top_p" = JFloat <$> ar_TopP req
  /\ out !! "top_k" = JInt <$> ar_TopK req
  /\ out !! "stop"
     = (match ar_StopSequences req with
        | [] => None
        | stop => Some (JArr (JStr <$> stop))
        end).





(** A streaming typed-block request. *)
Definition streaming_request : AnthropicRequest :=
  {| ar_Model := "m";
     ar_Messages := [ {| am_Role := "user"; am_Content := JStr "hi" |} ];
     ar_System := JNull; ar_MaxTokens := 0;
     ar_Temperature := None; ar_TopP := None; ar_TopK := None;
     ar_Stream := true; ar_Tools := []; ar_ToolChoice := JNull;
     ar_StopSequences := [] |}.

(** The events the read loop writes after [message_start], and the events
    the close writes before [message_stop]. *)
Definition is_body_event (e : event) : bool :=
  match e with
  | content_block_start_text _
  | content_block_start_tool_use _ _ _
  | content_block_delta_text _ _ => true
  | _ => false
  end.

Definition is_close_event (e : event) : bool :=
  match e with
  | content_block_delta_input_json _ _
  | content_block_stop _
  | message_delta _ _ _ => true
  | _ => false
  end.

(** The [message_start] that the first decoded chunk produces. *)
Definition first_message_start (clock : Clock) (fallbackModel : string)
    (chunk : OpenAIStreamResponse) : event :=
  message_start
    (if decide (sr_ID chunk = "") then "msg_" +:+ FormatInt (clock 0%nat)
     else sr_ID chunk)
    (if decide (sr_Model chunk = "") then fallbackModel else sr_Model chunk).

Definition stream_head (clock : Clock) (fallbackModel : string)
    (reads : list sse_read) : list event :=
  match consumed reads with
  | [] => []
  | chunk :: _ => [first_message_start clock fallbackModel chunk]
  end.

(** [r'] is [r] after more body events, with the same [started] flag. *)
Definition extends (r r' : reframer) : Prop :=
  st_started (state r') = st_started (state r)
  /\ exists events,
       written r' = written r ++ events
       /\ Forall (fun e => is_body_event e = true) events.

(** Reads that make the loop do something: every read but undecodable
    data and empty data that is not the end of the input. *)
Definition is_effective (read : sse_read) : bool :=
  match read with
  | ReadData DataInvalid _ => false
  | ReadData DataEmpty false => false
  | _ => true
  end.

(** A read that is a decoded chunk followed by a blank line. *)
Definition is_complete_chunk (read : sse_read) : bool :=
  match read with
  | ReadData (DataChunk _) false => true
  | _ => false
  end.

(** An input that ends after one complete chunk, without the end marker. *)
Definition unterminated_reads : list sse_read :=
  [ ReadData (DataChunk (text_chunk "x" "m" "Hi" None)) false ].

(** The text deltas of an event list, with their block index; and the
    non-empty text contents of the decoded chunks, in order. *)
Definition text_delta_of (e : event) : option (Z * string) :=
  match e with
  | content_block_delta_text index text => Some (index, text)
  | _ => None
  end.

Definition text_deltas (events : list event) : list (Z * string) :=
  omap text_delta_of events.

Definition choice_text (choice : StreamChoice) : list string :=
  if decide (sd_Content (sc_Delta choice) = "") then []
  else [sd_Content (sc_Delta choice)].

Definition chunk_texts (chunk : OpenAIStreamResponse) : list string :=
  concat (choice_text <$> sr_Choices chunk).

Definition texts (reads : list sse_read) : list string :=
  concat (chunk_texts <$> consumed reads).

(** The text deltas written so far are the texts [T], all at the index of
    the text block, which has been started if there is any text. *)
Definition texted (T : list string) (r : reframer) : Prop :=
  text_deltas (written r)
  = (fun text => (st_textBlockIndex (state r), text)) <$> T
  /\ (T <> [] -> st_textBlockStarted (state r) = true).

(** The indices of the [content_block_stop] events, in emission order. *)
Definition stop_index (e : event) : option Z :=
  match e with
  | content_block_stop index => Some index
  | _ => None
  end.

Definition block_stops (events : list event) : list Z :=
  omap stop_index events.

(** The block keys a final state knows: the text block if started, and
    the positions of the tool-block map. *)
Definition known_keys (r : reframer) : list block_key :=
  (if st_textBlockStarted (state r) then [TextBlock] else [])
  ++ (ToolBlock <$> (map_to_list (st_toolBlocks (state r))).*1).

(** What the decoded chunks say about the end of the message. *)
Definition finish_reasons (chunks : list OpenAIStreamResponse) : list string :=
  omap sc_FinishReason (concat (sr_Choices <$> chunks)).

Definition saw_tool_call (chunks : list OpenAIStreamResponse) : bool :=
  bool_decide (concat (chunk_calls <$> chunks) <> []).

Definition usages (chunks : list OpenAIStreamResponse) : list OpenAIUsage :=
  omap sr_Usage chunks.

Definition message_delta_of (e : event) : option (string * Z * option Z) :=
  match e with
  | message_delta stop_reason output_tokens input_tokens =>
      Some (stop_reason, output_tokens, input_tokens)
  | _ => None
  end.

(** The usage a [message_delta] reports when [u] was the last usage
    payload, if any. *)
Definition reported_usage (u : option OpenAIUsage) : Z * option Z :=
  match u with
  | Some u =>
      (ou_CompletionTokens u,
       if (0 <? ou_PromptTokens u)%Z then Some (ou_PromptTokens u) else None)
  | None => (0, None)
  end.

(** The later of two optional values. *)
Definition or_earlier {A} (later earlier : option A) : option A :=
  match later with Some x => Some x | None => earlier end.

(** The tail of the message as the loop has recorded it. *)
Definition ending (fs : list string) (calls : bool) (us : list OpenAIUsage)
    (r0 r : reframer) : Prop :=
  lastFinishReason r = or_earlier (last fs) (lastFinishReason r0)
  /\ hasToolCalls r = hasToolCalls r0 || calls
  /\ (st_promptTokens (state r), st_completionTokens (state r))
     = match last us with
       | Some u => (ou_PromptTokens u, ou_CompletionTokens u)
       | None => (st_promptTokens (state r0), st_completionTokens (state r0))
       end.

(** A byte below 0x80 that is not white space. *)
Definition is_solid (c : ascii) : bool :=
  (N_of_ascii c <? 128)%N && negb (isSpaceByte c).

(** The name of a flat tool definition, [m["function"]["name"]]. *)
Definition flat_tool_name (m : gmap string json) : string :=
  match get m "function" with
  | JObj f => as_string (get f "name")
  | _ => ""
  end.

(** A flat tool call decoded into [OpenAIToolCall], field by field after the
    struct's JSON tags. *)
Definition tool_call_of_flat (m : gmap string json) : OpenAIToolCall :=
  let f := match get m "function" with JObj f => f | _ => ∅ end in
  {| tc_ID := as_string (get m "id");
     tc_Type := as_string (get m "type");
     tc_Function := {| fc_Name := as_string (get f "name");
                       fc_Arguments := as_string (get f "arguments") |} |}.

(** A [tool_use] block as the request carries it, and as the response does. *)
Definition tool_use_request_block (id name : string) (input : json)
  : gmap string json :=
  {[ "type" := JStr "tool_use"; "id" := JStr id; "name" := JStr name;
     "input" := input ]}.

Definition tool_use_block (id name : string) (input : json)
  : AnthropicContentBlock :=
  {| acb_Type := "tool_use"; acb_Text := ""; acb_ID := id; acb_Name := name;
     acb_Input := input |}.

(** What an assistant message that only calls tools looks like. *)
Definition calls_message (calls : list OpenAIToolCall) : OpenAIMessage :=
  {| om_Role := "assistant"; om_Content := JNull; om_ToolCalls := calls;
     om_FunctionCall := None |}.

Definition is_object (v : json) : bool :=
  match v with JObj _ => true | _ => false end.

(** What [ParseAnthropicContent] keeps: no blank text, tool calls of type
    [function] with an id that is not blank, tool results with the role
    [tool]. *)
Definition well_parsed (p : parts) : Prop :=
  Forall (fun s => blank s = false) (textParts p)
  /\ Forall (fun c => get c "type" = JStr "function"
                      /\ exists id, get c "id" = JStr id /\ blank id = false)
       (toolCalls p)
  /\ Forall (fun r => get r "role" = JStr "tool"
                      /\ exists s, get r "content" = JStr s)
       (toolResults p).

(** A flat chat message as the upstream needs it: a role that is not blank
    and a string as content. *)
Definition chat_message (m : gmap string json) : Prop :=
  (exists role, get m "role" = JStr role /\ blank role = false)
  /\ exists content, get m "content" = JStr content.

(** The fields of a Responses payload that are copied to the chat request
    under their own name, and all the fields a chat request can have. *)
Definition copied_keys : list string :=
  [ "temperature"; "top_p"; "presence_penalty"; "frequency_penalty"; "seed";
    "response_format"; "tools"; "tool_choice"; "parallel_tool_calls" ].

Definition chat_request_keys : list string :=
  [ "model"; "stream"; "stream_options"; "messages"; "max_tokens" ]
  ++ copied_keys.

(** A Responses payload for the witnesses. *)
Definition responses_payload : gmap string json :=
  {[ "model" := JStr "m"; "input" := JStr "hi"; "seed" := JInt 7;
     "max_output_tokens" := JInt 64; "max_tokens" := JInt 32;
     "metadata" := JObj ∅ ]}.

(** The message of the first choice of a response, if any. *)
Definition first_message (openAIResp : OpenAIResponse)
  : option OpenAIMessage :=
  match or_Choices openAIResp with
  | choice :: _ => oc_Message choice
  | [] => None
  end.

(** ** The stop-reason mapping *)

Lemma MapStopReason_length hasToolCalls :
  MapStopReason "length" hasToolCalls = "max_tokens".
Proof. reflexivity. Qed.

Lemma MapStopReason_cases finish hasToolCalls :
  MapStopReason finish hasToolCalls = "max_tokens"
  \/ MapStopReason finish hasToolCalls = "end_turn"
  \/ MapStopReason finish hasToolCalls = "tool_use".
Proof.
  unfold MapStopReason.
  repeat case_decide; destruct hasToolCalls; auto.
Qed.

(** C1, as the spec states it, fails: with finish reason "length" and a tool
    call emitted the first half asks for max_tokens, the second for
    tool_use, and the code answers max_tokens. *)
Lemma C1_length_with_tool_call_is_max_tokens :
  ~ (forall (f : string) (hasToolCalls : bool),
        (f = "length" -> MapStopReason f hasToolCalls = "max_tokens")
        /\ (hasToolCalls = true -> f <> "stop" ->
            MapStopReason f hasToolCalls = "tool_use")).
Proof.
  intros H. destruct (H "length" true) as [_ H2].
  specialize (H2 eq_refl). discriminate H2. discriminate.
Qed.

(** C1 (amended): finish reason "length" maps to max_tokens whatever
    [hasToolCalls] is, and when [hasToolCalls] holds every finish reason
    other than "stop" and "length" maps to tool_use. *)
Theorem C1_stop_reason_length_and_tool_use (f : string) (hasToolCalls : bool) :
  (f = "length" -> MapStopReason f hasToolCalls = "max_tokens")
  /\ (hasToolCalls = true -> f <> "stop" -> f <> "length" ->
      MapStopReason f hasToolCalls = "tool_use").
Proof.
  split.
  - intros ->. apply MapStopReason_length.
  - intros -> Hstop Hlen. unfold MapStopReason.
    repeat case_decide; congruence.
Qed.

Lemma C1_stop_reason_witness :
  MapStopReason "length" true = "max_tokens"
  /\ MapStopReason "content_filter" true = "tool_use".
Proof.
  split.
  - apply (proj1 (C1_stop_reason_length_and_tool_use "length" true)).
    reflexivity.
  - apply (proj2 (C1_stop_reason_length_and_tool_use "content_filter" true)).
    + reflexivity.
    + discriminate.
    + discriminate.
Defined.

(** C10: the stop-reason mapping returns max_tokens, end_turn or tool_use,
    each of them for some input, and never a string that classifies as
    Other. *)
Theorem C10_stop_reason_range :
  (forall (finish : string) (hasToolCalls : bool),
      MapStopReason finish hasToolCalls ∈ ["max_tokens"; "end_turn"; "tool_use"]
      /\ classify (MapStopReason finish hasToolCalls) <> Other)
  /\ (forall s, s ∈ ["max_tokens"; "end_turn"; "tool_use"] ->
        exists finish hasToolCalls, MapStopReason finish hasToolCalls = s).
Proof.
  split.
  - intros finish hasToolCalls.
    destruct (MapStopReason_cases finish hasToolCalls) as [-> | [-> | ->]];
      (split; [set_solver | discriminate]).
  - intros s Hs.
    apply elem_of_cons in Hs as [-> | Hs]; [by exists "length", false |].
    apply elem_of_cons in Hs as [-> | Hs]; [by exists "stop", false |].
    apply elem_of_cons in Hs as [-> | Hs]; [by exists "tool_calls", false |].
    by apply elem_of_nil in Hs.
Qed.

(** ** The stream reframer *)

Lemma range_order_nil (order : MapRange) : range_order order [] = [].
Proof. apply Permutation_nil_r. apply range_order_perm. Qed.

Section Close.

Variable order : MapRange.

Lemma close_tool_block_frame r entry :
  let r' := close_tool_block r entry in
  written r' = written r ++ block_close_events entry
  /\ lastFinishReason r' = lastFinishReason r
  /\ hasToolCalls r' = hasToolCalls r
  /\ st_completionTokens (state r') = st_completionTokens (state r)
  /\ st_promptTokens (state r') = st_promptTokens (state r).
Proof.
  destruct entry as [key block].
  unfold close_tool_block, block_close_events; cbn [snd].
  destruct (tb_started block), (tb_finished block); cbn [andb negb];
    try case_decide; cbn; rewrite ?app_nil_r, <- ?app_assoc; done.
Qed.

Lemma close_tool_blocks_frame entries r :
  let r' := List.fold_left close_tool_block entries r in
  written r' = written r ++ concat (block_close_events <$> entries)
  /\ lastFinishReason r' = lastFinishReason r
  /\ hasToolCalls r' = hasToolCalls r
  /\ st_completionTokens (state r') = st_completionTokens (state r)
  /\ st_promptTokens (state r') = st_promptTokens (state r).
Proof.
  revert r. induction entries as [|entry entries IH]; intros r; cbn.
  - by rewrite app_nil_r.
  - destruct (close_tool_block_frame r entry) as (Hw & Hf & Ht & Hc & Hp).
    destruct (IH (close_tool_block r entry)) as (Hw' & Hf' & Ht' & Hc' & Hp').
    cbn in *. rewrite Hw', Hf', Ht', Hc', Hp', Hw, Hf, Ht, Hc, Hp.
    by rewrite <- app_assoc.
Qed.

(** Everything [close_stream] writes. *)
Lemma close_stream_written r :
  written (close_stream order r)
  = written r
    ++ (if st_textBlockStarted (state r)
        then [content_block_stop (st_textBlockIndex (state r))] else [])
    ++ concat (block_close_events
                 <$> range_order order (map_to_list (st_toolBlocks (state r))))
    ++ match lastFinishReason r with
       | Some f =>
           [message_delta (mapStopReason f (hasToolCalls r))
              (st_completionTokens (state r))
              (if (0 <? st_promptTokens (state r))%Z
               then Some (st_promptTokens (state r)) else None)]
       | None => []
       end
    ++ [message_stop].
Proof.
  unfold close_stream.
  set (r1 := if st_textBlockStarted (state r) then _ else r).
  assert (H1 : state r1 = state r /\ lastFinishReason r1 = lastFinishReason r
               /\ hasToolCalls r1 = hasToolCalls r
               /\ written r1 = written r ++
                    (if st_textBlockStarted (state r)
                     then [content_block_stop (st_textBlockIndex (state r))]
                     else [])).
  { subst r1. destruct (st_textBlockStarted (state r)); cbn;
      rewrite ?app_nil_r; done. }
  destruct H1 as (Hst & Hf1 & Ht1 & Hw1).
  destruct (close_tool_blocks_frame
              (range_order order (map_to_list (st_toolBlocks (state r1)))) r1)
    as (Hw & Hf & Ht & Hc & Hp).
  cbn zeta in *.
  set (r2 := List.fold_left close_tool_block _ r1) in *.
  rewrite Hf, Hf1, Ht, Ht1, Hc, Hp, Hst.
  destruct (lastFinishReason r); cbn [writeAnthropicEvent written];
    rewrite Hw, Hw1, Hst, <- ?app_assoc; cbn; rewrite ?app_nil_r; done.
Qed.

End Close.

(** C2: fed the chunk with id x, model m and text Hi, then the chunk with
    text " there" and finish reason stop, then the end marker, the reframer
    writes message_start, content_block_start (text, index 0), the two text
    deltas, content_block_stop (index 0), message_delta with end_turn, and
    message_stop, and returns no error, whatever the clock, the map order
    and the fallback model are. *)
Theorem C2_streaming_scenario (clock : Clock) (order : MapRange)
    (fallbackModel : string) :
  streamOpenAIToAnthropic clock order fallbackModel scenario_reads
  = ([ message_start "x" "m";
       content_block_start_text 0;
       content_block_delta_text 0 "Hi";
       content_block_delta_text 0 " there";
       content_block_stop 0;
       message_delta "end_turn" 0 None;
       message_stop ], None).
Proof.
  unfold streamOpenAIToAnthropic.
  assert (Hloop : exists r,
     read_loop clock fallbackModel scenario_reads initial = (r, None)
     /\ state r =
          {| st_messageID := "x"; st_model := "m"; st_started := true;
             st_textBlockIndex := 0; st_nextBlockIndex := 1;
             st_textBlockStarted := true; st_toolBlocks := ∅;
             st_promptTokens := 0; st_completionTokens := 0 |}
     /\ written r = [ message_start "x" "m";
                      content_block_start_text 0;
                      content_block_delta_text 0 "Hi";
                      content_block_delta_text 0 " there" ]
     /\ lastFinishReason r = Some "stop" /\ hasToolCalls r = false).
  { eexists. vm_compute. repeat split. }
  destruct Hloop as (r & -> & Hs & Hw & Hf & Ht).
  rewrite close_stream_written, Hs, Hw, Hf, Ht. cbn.
  rewrite map_to_list_empty, range_order_nil. reflexivity.
Qed.

(** *** The block-index invariant *)

Lemma indexed_frame F r r' :
  st_nextBlockIndex (state r') = st_nextBlockIndex (state r) ->
  st_textBlockStarted (state r') = st_textBlockStarted (state r) ->
  st_textBlockIndex (state r') = st_textBlockIndex (state r) ->
  st_toolBlocks (state r') = st_toolBlocks (state r) ->
  block_starts (written r') = block_starts (written r) ->
  indexed F r -> indexed F r'.
Proof.
  intros Hn Hs Hi Hm Hw (HF & Hnext & Hst & Hidx & Hnone & Hopen).
  assert (Hio : forall k, index_of r' k = index_of r k).
  { intros [|p]; cbn; by rewrite ?Hs, ?Hi, ?Hm. }
  repeat split.
  - done.
  - by rewrite Hn.
  - by rewrite Hw.
  - intros k n Hk. rewrite Hio. by apply Hidx.
  - intros k Hk. rewrite Hio. by apply Hnone.
  - rewrite Hm in H. by eapply Hopen.
  - rewrite Hm in H. by eapply Hopen.
Qed.

Lemma int_succ_small (n : Z) :
  (0 <= n)%Z -> (n + 1 < 2 ^ 63)%Z -> int_succ n = (n + 1)%Z.
Proof.
  intros H0 H1. unfold int_succ.
  rewrite Z.mod_small; lia.
Qed.

Lemma see_length_le F k : (length F <= length (see F k))%nat.
Proof. unfold see. case_decide; rewrite ?length_app; cbn; lia. Qed.

Lemma fold_see_length_le l F :
  (length F <= length (List.fold_left see l F))%nat.
Proof.
  revert F. induction l as [|k l IH]; intros F; cbn; [lia|].
  etrans; [apply (see_length_le F k) | apply IH].
Qed.

Lemma block_starts_app l1 l2 :
  block_starts (l1 ++ l2) = block_starts l1 ++ block_starts l2.
Proof. unfold block_starts. apply omap_app. Qed.

Lemma seq_snoc_Z (n : nat) :
  Z.of_nat <$> seq 0 (S n) = (Z.of_nat <$> seq 0 n) ++ [Z.of_nat n].
Proof. rewrite seq_S, fmap_app. reflexivity. Qed.

Lemma indexed_tool_known F r p :
  indexed F r ->
  is_Some (st_toolBlocks (state r) !! p) <-> ToolBlock p ∈ F.
Proof.
  intros (HF & Hnext & Hst & Hidx & Hnone & Hopen). split.
  - intros [b Hb]. destruct (decide (ToolBlock p ∈ F)) as [|Hn]; [done|].
    apply Hnone in Hn. cbn in Hn. by rewrite Hb in Hn.
  - intros Hin. apply list_elem_of_lookup in Hin as [n Hn].
    apply Hidx in Hn. cbn in Hn.
    destruct (st_toolBlocks (state r) !! p); [eauto | done].
Qed.

Lemma indexed_text_known F r :
  indexed F r ->
  st_textBlockStarted (state r) = true <-> TextBlock ∈ F.
Proof.
  intros (HF & Hnext & Hst & Hidx & Hnone & Hopen). split.
  - intros Hs. destruct (decide (TextBlock ∈ F)) as [|Hn]; [done|].
    apply Hnone in Hn. cbn in Hn. by rewrite Hs in Hn.
  - intros Hin. apply list_elem_of_lookup in Hin as [n Hn].
    apply Hidx in Hn. cbn in Hn.
    by destruct (st_textBlockStarted (state r)).
Qed.

(** A fragment for a position that has its block: the block keeps its
    index. *)
Lemma indexed_update F r r' p b b' :
  indexed F r ->
  st_toolBlocks (state r) !! p = Some b ->
  tb_index b' = tb_index b -> tb_started b' = true -> tb_finished b' = false ->
  st_nextBlockIndex (state r') = st_nextBlockIndex (state r) ->
  st_textBlockStarted (state r') = st_textBlockStarted (state r) ->
  st_textBlockIndex (state r') = st_textBlockIndex (state r) ->
  st_toolBlocks (state r') = <[p := b']> (st_toolBlocks (state r)) ->
  block_starts (written r') = block_starts (written r) ->
  indexed F r'.
Proof.
  intros (HF & Hnext & Hst & Hidx & Hnone & Hopen) Hb Hi Hs Hf Hn Hts Hti Hm Hw.
  assert (Hio : forall k, index_of r' k = index_of r k).
  { intros [|q]; cbn; rewrite ?Hts, ?Hti, ?Hm; [done|].
    destruct (decide (p = q)) as [->|Hne].
    - by rewrite lookup_insert_eq, Hb; cbn; rewrite Hi.
    - by rewrite lookup_insert_ne. }
  split_and!; try done.
  - by rewrite Hn.
  - by rewrite Hw.
  - intros k n Hk. rewrite Hio. by apply Hidx.
  - intros k Hk. rewrite Hio. by apply Hnone.
  - intros q c. rewrite Hm. destruct (decide (p = q)) as [->|Hne].
    + rewrite lookup_insert_eq. by intros [= <-].
    + rewrite lookup_insert_ne by done. apply Hopen.
Qed.

(** The first fragment for a position: its block takes the counter as its
    index and the counter moves on. *)
Lemma indexed_open_tool F r r' p b' :
  indexed F r ->
  st_toolBlocks (state r) !! p = None ->
  (Z.of_nat (length (F ++ [ToolBlock p])) < 2 ^ 63)%Z ->
  tb_index b' = st_nextBlockIndex (state r) ->
  tb_started b' = true -> tb_finished b' = false ->
  st_nextBlockIndex (state r') = int_succ (st_nextBlockIndex (state r)) ->
  st_textBlockStarted (state r') = st_textBlockStarted (state r) ->
  st_textBlockIndex (state r') = st_textBlockIndex (state r) ->
  st_toolBlocks (state r') = <[p := b']> (st_toolBlocks (state r)) ->
  block_starts (written r')
    = block_starts (written r) ++ [st_nextBlockIndex (state r)] ->
  indexed (F ++ [ToolBlock p]) r'.
Proof.
  intros HI Hb Hbound Hi Hs Hf Hn Hts Hti Hm Hw.
  assert (Hnew : ToolBlock p ∉ F).
  { rewrite <- (indexed_tool_known F r p HI), Hb. by intros [? ?]. }
  destruct HI as (HF & Hnext & Hst & Hidx & Hnone & Hopen).
  rewrite length_app in Hbound; cbn in Hbound.
  split_and!.
  - apply NoDup_app. split_and!; [done | | apply NoDup_singleton].
    intros k Hk ->%list_elem_of_singleton. done.
  - rewrite Hn, Hnext, int_succ_small by lia.
    rewrite length_app; cbn; lia.
  - rewrite Hw, Hst, Hnext, length_app; cbn.
    rewrite Nat.add_1_r. by rewrite seq_snoc_Z.
  - intros k n Hk. apply lookup_app_Some in Hk as [Hk | [Hge Hk]].
    + pose proof (Hidx _ _ Hk) as Ho.
      assert (k ≠ ToolBlock p).
      { intros ->. apply Hnew. by eapply list_elem_of_lookup_2. }
      destruct k as [|q]; cbn in *; rewrite ?Hts, ?Hti, ?Hm; [done|].
      rewrite lookup_insert_ne by congruence. done.
    + apply list_lookup_singleton_Some in Hk as [Hz <-].
      cbn. rewrite Hm, lookup_insert_eq; cbn. rewrite Hi, Hnext.
      f_equal. lia.
  - intros k Hk. apply not_elem_of_app in Hk as [Hk1 Hk2].
    apply not_elem_of_cons in Hk2 as [Hk2 _].
    pose proof (Hnone _ Hk1) as Ho.
    destruct k as [|q]; cbn in *; rewrite ?Hts, ?Hti, ?Hm; [done|].
    rewrite lookup_insert_ne by congruence. done.
  - intros q c. rewrite Hm. destruct (decide (p = q)) as [->|Hne].
    + rewrite lookup_insert_eq. by intros [= <-].
    + rewrite lookup_insert_ne by done. apply Hopen.
Qed.

(** The first text delta: the text block takes the counter as its index. *)
Lemma indexed_open_text F r r' :
  indexed F r ->
  st_textBlockStarted (state r) = false ->
  (Z.of_nat (length (F ++ [TextBlock])) < 2 ^ 63)%Z ->
  st_nextBlockIndex (state r') = int_succ (st_nextBlockIndex (state r)) ->
  st_textBlockStarted (state r') = true ->
  st_textBlockIndex (state r') = st_nextBlockIndex (state r) ->
  st_toolBlocks (state r') = st_toolBlocks (state r) ->
  block_starts (written r')
    = block_starts (written r) ++ [st_nextBlockIndex (state r)] ->
  indexed (F ++ [TextBlock]) r'.
Proof.
  intros HI Hb Hbound Hn Hts Hti Hm Hw.
  assert (Hnew : TextBlock ∉ F).
  { rewrite <- (indexed_text_known F r HI), Hb. done. }
  destruct HI as (HF & Hnext & Hst & Hidx & Hnone & Hopen).
  rewrite length_app in Hbound; cbn in Hbound.
  split_and!.
  - apply NoDup_app. split_and!; [done | | apply NoDup_singleton].
    intros k Hk ->%list_elem_of_singleton. done.
  - rewrite Hn, Hnext, int_succ_small by lia.
    rewrite length_app; cbn; lia.
  - rewrite Hw, Hst, Hnext, length_app; cbn.
    rewrite Nat.add_1_r. by rewrite seq_snoc_Z.
  - intros k n Hk. apply lookup_app_Some in Hk as [Hk | [Hge Hk]].
    + pose proof (Hidx _ _ Hk) as Ho.
      assert (k ≠ TextBlock).
      { intros ->. apply Hnew. by eapply list_elem_of_lookup_2. }
      destruct k as [|q]; cbn in *; rewrite ?Hm; done.
    + apply list_lookup_singleton_Some in Hk as [Hz <-].
      cbn. rewrite Hts, Hti, Hnext. f_equal. lia.
  - intros k Hk. apply not_elem_of_app in Hk as [Hk1 Hk2].
    apply not_elem_of_cons in Hk2 as [Hk2 _].
    pose proof (Hnone _ Hk1) as Ho.
    destruct k as [|q]; cbn in *; rewrite ?Hm; done.
  - intros q c. rewrite Hm. apply Hopen.
Qed.

Section Steps.

Variable clock : Clock.
Variable fallbackModel : string.

Local Abbreviation bounded F := (Z.of_nat (length F) < 2 ^ 63)%Z.

Lemma on_tool_call_indexed F r call :
  indexed F r ->
  bounded (see F (ToolBlock (stc_Index call))) ->
  indexed (see F (ToolBlock (stc_Index call))) (on_tool_call clock r call).
Proof.
  intros HI Hb.
  pose proof (indexed_tool_known F r (stc_Index call) HI) as Hknown.
  unfold on_tool_call. cbn [state st_toolBlocks tick].
  destruct (st_toolBlocks (state r) !! stc_Index call) as [block|] eqn:Hlk.
  - assert (Hin : ToolBlock (stc_Index call) ∈ F) by (apply Hknown; eauto).
    pose proof HI as (_ & _ & _ & _ & _ & Hopen).
    destruct (Hopen _ _ Hlk) as [Hs Hfin].
    unfold see in *. rewrite decide_True in * by done.
    rewrite Hs.
    eapply (indexed_update F r _ _ block); [exact HI | exact Hlk | ..]; cbn.
    7: reflexivity. all: done.
  - assert (Hin : ToolBlock (stc_Index call) ∉ F).
    { rewrite <- Hknown. by intros [? ?]. }
    unfold see in *. rewrite decide_False in * by done.
    destruct (if decide (stc_ID call = "") then _ else _) as [id tick'].
    cbn [tb_started tb_index tb_id].
    eapply (indexed_open_tool F r); [exact HI | exact Hlk | exact Hb | ..];
      cbn.
    7: by rewrite insert_insert_eq.
    all: rewrite ?block_starts_app; done.
Qed.

Lemma on_tool_calls_indexed calls F r :
  let keys := (fun call => ToolBlock (stc_Index call)) <$> calls in
  indexed F r ->
  bounded (List.fold_left see keys F) ->
  indexed (List.fold_left see keys F)
    (List.fold_left (on_tool_call clock) calls r).
Proof.
  revert F r. induction calls as [|call calls IH]; intros F r keys HI Hb.
  - done.
  - cbn in *. apply IH; [|done].
    apply on_tool_call_indexed; [done|].
    pose proof (fold_see_length_le
      ((fun call => ToolBlock (stc_Index call)) <$> calls)
      (see F (ToolBlock (stc_Index call)))). lia.
Qed.

Lemma on_choice_indexed F r choice :
  indexed F r ->
  bounded (List.fold_left see (choice_keys choice) F) ->
  indexed (List.fold_left see (choice_keys choice) F)
    (on_choice clock r choice).
Proof.
  intros HI Hb. unfold on_choice, choice_keys in *.
  set (r1 := match sc_FinishReason choice with Some _ => _ | None => r end).
  assert (HI1 : indexed F r1).
  { subst r1. destruct (sc_FinishReason choice); [|done].
    eapply indexed_frame; [..|exact HI]; done. }
  clearbody r1. clear HI.
  rewrite fold_left_app in *.
  apply on_tool_calls_indexed; [|done].
  match type of Hb with
  | bounded (List.fold_left see ?ks ?F1) =>
      pose proof (fold_see_length_le ks F1) as Hle
  end.
  destruct (decide (sd_Content (sc_Delta choice) = "")) as [He|He]; cbn.
  - done.
  - cbn in Hle, Hb.
    pose proof (indexed_text_known F r1 HI1) as Hknown.
    destruct (st_textBlockStarted (state r1)) eqn:Hts.
    + assert (Hsee : see F TextBlock = F).
      { unfold see. rewrite decide_True; [done | by apply Hknown]. }
      rewrite Hsee.
      eapply indexed_frame; [..|exact HI1]; cbn;
        rewrite ?block_starts_app, ?app_nil_r; done.
    + assert (Hsee : see F TextBlock = F ++ [TextBlock]).
      { unfold see. rewrite decide_False; [done|].
        rewrite <- Hknown. done. }
      rewrite Hsee in *.
      eapply (indexed_open_text F r1); [done | done | lia | ..]; cbn;
        rewrite ?block_starts_app; cbn; rewrite ?app_nil_r; done.
Qed.

Lemma on_choices_indexed choices F r :
  let keys := concat (choice_keys <$> choices) in
  indexed F r ->
  bounded (List.fold_left see keys F) ->
  indexed (List.fold_left see keys F)
    (List.fold_left (on_choice clock) choices r).
Proof.
  revert F r. induction choices as [|choice choices IH]; intros F r keys HI Hb.
  - done.
  - subst keys. cbn in *. rewrite fold_left_app in *.
    apply IH; [|done].
    apply on_choice_indexed; [done|].
    match type of Hb with
    | bounded (List.fold_left see ?ks ?F1) =>
        pose proof (fold_see_length_le ks F1)
    end. lia.
Qed.

Lemma on_chunk_indexed F r chunk :
  indexed F r ->
  bounded (List.fold_left see (chunk_keys chunk) F) ->
  indexed (List.fold_left see (chunk_keys chunk) F)
    (on_chunk clock fallbackModel r chunk).
Proof.
  intros HI Hb. unfold on_chunk, chunk_keys in *.
  apply on_choices_indexed; [|done].
  set (r1 := if st_started (state r) then r else _).
  assert (HI1 : indexed F r1).
  { subst r1. destruct (st_started (state r)); [done|].
    destruct (if decide (sr_ID chunk = "") then _ else _) as [id tick'].
    eapply indexed_frame; [..|exact HI]; cbn;
      rewrite ?block_starts_app, ?app_nil_r; done. }
  clearbody r1.
  destruct (sr_Usage chunk); [|done].
  eapply indexed_frame; [..|exact HI1]; done.
Qed.

Lemma read_loop_indexed reads F r :
  indexed F r ->
  bounded (List.fold_left see (appearances reads) F) ->
  indexed (List.fold_left see (appearances reads) F)
    (fst (read_loop clock fallbackModel reads r)).
Proof.
  unfold appearances.
  revert F r. induction reads as [|read reads IH]; intros F r HI Hb.
  - done.
  - destruct read as [err | data eof]; [done|].
    destruct data as [ | | | chunk]; cbn in *.
    + destruct eof; [done | by apply IH].
    + done.
    + by apply IH.
    + rewrite fold_left_app in *.
      assert (indexed (List.fold_left see (chunk_keys chunk) F)
                (on_chunk clock fallbackModel r chunk)) as HI'.
      { apply on_chunk_indexed; [done|].
        match type of Hb with
        | bounded (List.fold_left see ?ks ?F1) =>
            pose proof (fold_see_length_le ks F1)
        end. lia. }
      destruct eof; cbn in *; [done | by apply IH].
Qed.

Lemma initial_indexed : indexed [] initial.
Proof.
  unfold indexed, initial; cbn. split_and!; try done.
  - apply NoDup_nil_2.
  - intros [|p] _; done.
Qed.

End Steps.

(** *** The argument buffers *)

Lemma string_app_nil_r (s : string) : s +:+ "" = s.
Proof.
  induction s as [|c s IH]; [done|].
  change (String c (s +:+ "") = String c s). by rewrite IH.
Qed.

Lemma string_app_assoc (s1 s2 s3 : string) :
  (s1 +:+ s2) +:+ s3 = s1 +:+ (s2 +:+ s3).
Proof.
  induction s1 as [|c s1 IH]; [done|].
  change (String c ((s1 +:+ s2) +:+ s3) = String c (s1 +:+ (s2 +:+ s3))).
  by rewrite IH.
Qed.

Section Buffers.

Variable clock : Clock.
Variable fallbackModel : string.

Lemma on_tool_call_buffer r call p :
  buffer (on_tool_call clock r call) p
  = buffer r p +:+ call_fragment p call.
Proof.
  unfold on_tool_call, buffer, call_fragment. cbn [state st_toolBlocks tick].
  destruct (st_toolBlocks (state r) !! stc_Index call) as [block|] eqn:Hlk.
  - destruct (tb_started block); cbn.
    all: destruct (decide (stc_Index call = p)) as [<-|Hne].
    all: rewrite ?lookup_insert_eq, ?Hlk; cbn.
    all: try (case_decide as He; [by rewrite He, string_app_nil_r | done]).
    all: rewrite lookup_insert_ne by done; by rewrite string_app_nil_r.
  - destruct (if decide (stc_ID call = "") then _ else _) as [id tick'].
    cbn. rewrite insert_insert_eq.
    destruct (decide (stc_Index call = p)) as [<-|Hne].
    + rewrite lookup_insert_eq, Hlk; cbn. case_decide as He; [by rewrite He | done].
    + rewrite lookup_insert_ne by done. by rewrite string_app_nil_r.
Qed.

Lemma on_tool_calls_buffer calls r p :
  buffer (List.fold_left (on_tool_call clock) calls r) p
  = buffer r p +:+ join_all (call_fragment p <$> calls).
Proof.
  revert r. induction calls as [|call calls IH]; intros r; cbn.
  - by rewrite string_app_nil_r.
  - by rewrite IH, on_tool_call_buffer, string_app_assoc.
Qed.

Lemma buffer_frame r r' p :
  st_toolBlocks (state r') = st_toolBlocks (state r) ->
  buffer r' p = buffer r p.
Proof. unfold buffer. by intros ->. Qed.

Lemma join_all_app l1 l2 : join_all (l1 ++ l2) = join_all l1 +:+ join_all l2.
Proof.
  induction l1 as [|s l1 IH]; [done|].
  change (s +:+ join_all (l1 ++ l2) = (s +:+ join_all l1) +:+ join_all l2).
  by rewrite IH, string_app_assoc.
Qed.

Lemma on_choice_buffer r choice p :
  buffer (on_choice clock r choice) p
  = buffer r p +:+ join_all (call_fragment p <$> sd_ToolCalls (sc_Delta choice)).
Proof.
  unfold on_choice. rewrite on_tool_calls_buffer. f_equal.
  apply buffer_frame.
  destruct (sc_FinishReason choice), (decide (sd_Content (sc_Delta choice) = ""));
    cbn; try done;
    destruct (st_textBlockStarted (state r)); done.
Qed.

Lemma on_choices_buffer choices r p :
  buffer (List.fold_left (on_choice clock) choices r) p
  = buffer r p
    +:+ join_all (call_fragment p <$>
                    concat ((fun choice => sd_ToolCalls (sc_Delta choice))
                              <$> choices)).
Proof.
  revert r. induction choices as [|choice choices IH]; intros r; cbn.
  - by rewrite string_app_nil_r.
  - by rewrite IH, on_choice_buffer, fmap_app, join_all_app, string_app_assoc.
Qed.

Lemma on_chunk_buffer r chunk p :
  buffer (on_chunk clock fallbackModel r chunk) p
  = buffer r p +:+ join_all (call_fragment p <$> chunk_calls chunk).
Proof.
  unfold on_chunk, chunk_calls. rewrite on_choices_buffer. f_equal.
  apply buffer_frame.
  destruct (st_started (state r)).
  - by destruct (sr_Usage chunk).
  - destruct (if decide (sr_ID chunk = "") then _ else _) as [id tick'].
    by destruct (sr_Usage chunk).
Qed.

Lemma read_loop_buffer reads r p :
  buffer (fst (read_loop clock fallbackModel reads r)) p
  = buffer r p +:+ received p reads.
Proof.
  unfold received.
  revert r. induction reads as [|read reads IH]; intros r.
  - cbn. by rewrite string_app_nil_r.
  - destruct read as [err | data eof]; [by cbn; rewrite string_app_nil_r|].
    destruct data as [ | | | chunk]; cbn.
    + destruct eof; [by cbn; rewrite string_app_nil_r | apply IH].
    + by rewrite string_app_nil_r.
    + apply IH.
    + rewrite fmap_app, join_all_app, <- string_app_assoc, <- on_chunk_buffer.
      destruct eof; cbn; [by rewrite string_app_nil_r | apply IH].
Qed.

End Buffers.

(** *** Indices and the final argument deltas *)

Lemma indexed_index_inj F r k1 k2 i :
  indexed F r ->
  index_of r k1 = Some i -> index_of r k2 = Some i -> k1 = k2.
Proof.
  intros (HF & Hnext & Hst & Hidx & Hnone & Hopen) H1 H2.
  assert (Hin : forall k, index_of r k = Some i ->
                 exists n, F !! n = Some k /\ i = Z.of_nat n).
  { intros k Hk. destruct (decide (k ∈ F)) as [Hin|Hn].
    - apply list_elem_of_lookup in Hin as [n Hn]. exists n. split; [done|].
      apply Hidx in Hn. congruence.
    - apply Hnone in Hn. congruence. }
  destruct (Hin _ H1) as (n1 & Hn1 & ->), (Hin _ H2) as (n2 & Hn2 & Hi).
  apply Nat2Z.inj in Hi as ->. congruence.
Qed.

Lemma sorted_seq_Z (a n : nat) :
  StronglySorted Z.lt (Z.of_nat <$> seq a n).
Proof.
  revert a. induction n as [|n IH]; intros a; cbn.
  - constructor.
  - constructor; [apply IH|].
    apply Forall_fmap, Forall_seq. intros i Hi. cbn. lia.
Qed.

Lemma block_close_events_no_start entries :
  block_starts (concat (block_close_events <$> entries)) = [].
Proof.
  induction entries as [|[key block] entries IH]; [done|].
  cbn [fmap list_fmap concat]. rewrite block_starts_app, IH, app_nil_r.
  unfold block_close_events; cbn [snd].
  destruct (tb_started block), (tb_finished block); cbn;
    try case_decide; done.
Qed.

Lemma close_stream_no_start order r :
  block_starts (written (close_stream order r)) = block_starts (written r).
Proof.
  rewrite close_stream_written, !block_starts_app,
    block_close_events_no_start.
  destruct (st_textBlockStarted (state r)), (lastFinishReason r); cbn;
    by rewrite ?app_nil_r.
Qed.

(** C3: as long as fewer than 2^63 blocks are opened (the counter is a
    64-bit int), the content_block_start events of a request carry the
    indices 0, 1, 2, ... in the order they are written, hence strictly
    increasing; the n-th distinct block to appear, the text block on its
    first non-empty text delta or a tool-call position on its first
    fragment, has index n; blocks that never appear have no index; and no
    two blocks share an index. *)
Theorem C3_block_indices_increasing (clock : Clock) (order : MapRange)
    (fallbackModel : string) (reads : list sse_read)
    (Hblocks : (Z.of_nat (length (first_seen (appearances reads))) < 2 ^ 63)%Z) :
  block_starts (fst (streamOpenAIToAnthropic clock order fallbackModel reads))
    = Z.of_nat <$> seq 0 (length (first_seen (appearances reads)))
  /\ StronglySorted Z.lt
       (block_starts
          (fst (streamOpenAIToAnthropic clock order fallbackModel reads)))
  /\ (forall n k,
        first_seen (appearances reads) !! n = Some k ->
        index_of (fst (read_loop clock fallbackModel reads initial)) k
          = Some (Z.of_nat n))
  /\ (forall k,
        k ∉ first_seen (appearances reads) ->
        index_of (fst (read_loop clock fallbackModel reads initial)) k = None)
  /\ (forall k1 k2 i,
        index_of (fst (read_loop clock fallbackModel reads initial)) k1 = Some i ->
        index_of (fst (read_loop clock fallbackModel reads initial)) k2 = Some i ->
        k1 = k2).
Proof.
  pose proof (read_loop_indexed clock fallbackModel reads [] initial
                initial_indexed Hblocks) as HI.
  fold (first_seen (appearances reads)) in HI.
  assert (Hstarts :
    block_starts (fst (streamOpenAIToAnthropic clock order fallbackModel reads))
    = Z.of_nat <$> seq 0 (length (first_seen (appearances reads)))).
  { unfold streamOpenAIToAnthropic.
    destruct HI as (_ & _ & Hst & _).
    destruct (read_loop clock fallbackModel reads initial) as [r [err|]];
      cbn [fst] in *; [done|].
    by rewrite close_stream_no_start. }
  pose proof HI as (_ & _ & _ & Hidx & Hnone & _).
  split_and!.
  - done.
  - rewrite Hstarts. apply sorted_seq_Z.
  - intros n k; apply Hidx.
  - exact Hnone.
  - intros k1 k2 i. by apply indexed_index_inj with (F := first_seen (appearances reads)).
Qed.
Lemma input_jsons_app l1 l2 :
  input_jsons (l1 ++ l2) = input_jsons l1 ++ input_jsons l2.
Proof. unfold input_jsons. apply omap_app. Qed.

Lemma input_jsons_at_app index l1 l2 :
  input_jsons_at index (l1 ++ l2)
  = input_jsons_at index l1 ++ input_jsons_at index l2.
Proof.
  unfold input_jsons_at. by rewrite input_jsons_app, filter_app, fmap_app.
Qed.

Section NoInputJson.

Variable clock : Clock.
Variable fallbackModel : string.

Lemma on_tool_call_input_jsons r call :
  input_jsons (written (on_tool_call clock r call)) = input_jsons (written r).
Proof.
  unfold on_tool_call. cbn [state st_toolBlocks tick].
  destruct (st_toolBlocks (state r) !! stc_Index call) as [block|].
  - destruct (tb_started block); cbn; rewrite ?input_jsons_app, ?app_nil_r; done.
  - destruct (if decide (stc_ID call = "") then _ else _) as [id tick'].
    cbn. by rewrite input_jsons_app, app_nil_r.
Qed.

Lemma on_tool_calls_input_jsons calls r :
  input_jsons (written (List.fold_left (on_tool_call clock) calls r))
  = input_jsons (written r).
Proof.
  revert r. induction calls as [|call calls IH]; intros r; cbn; [done|].
  by rewrite IH, on_tool_call_input_jsons.
Qed.

Lemma on_choice_input_jsons r choice :
  input_jsons (written (on_choice clock r choice)) = input_jsons (written r).
Proof.
  unfold on_choice. rewrite on_tool_calls_input_jsons.
  destruct (sc_FinishReason choice),
    (decide (sd_Content (sc_Delta choice) = "")); cbn; try done;
    destruct (st_textBlockStarted (state r)); cbn;
    rewrite ?input_jsons_app, ?app_nil_r; cbn; rewrite ?app_nil_r; done.
Qed.

Lemma on_choices_input_jsons choices r :
  input_jsons (written (List.fold_left (on_choice clock) choices r))
  = input_jsons (written r).
Proof.
  revert r. induction choices as [|choice choices IH]; intros r; cbn; [done|].
  by rewrite IH, on_choice_input_jsons.
Qed.

Lemma on_chunk_input_jsons r chunk :
  input_jsons (written (on_chunk clock fallbackModel r chunk))
  = input_jsons (written r).
Proof.
  unfold on_chunk. rewrite on_choices_input_jsons.
  destruct (st_started (state r)).
  - by destruct (sr_Usage chunk).
  - destruct (if decide (sr_ID chunk = "") then _ else _) as [id tick'].
    destruct (sr_Usage chunk); cbn; by rewrite input_jsons_app, app_nil_r.
Qed.

Lemma read_loop_input_jsons reads r :
  input_jsons (written (fst (read_loop clock fallbackModel reads r)))
  = input_jsons (written r).
Proof.
  revert r. induction reads as [|read reads IH]; intros r; [done|].
  destruct read as [err | data eof]; [done|].
  destruct data as [ | | | chunk]; cbn.
  - destruct eof; [done | apply IH].
  - done.
  - apply IH.
  - destruct eof; cbn; rewrite ?IH; apply on_chunk_input_jsons.
Qed.

End NoInputJson.

Lemma block_close_events_other index entries :
  (forall entry, entry ∈ entries -> tb_index (snd entry) <> index) ->
  input_jsons_at index (concat (block_close_events <$> entries)) = [].
Proof.
  induction entries as [|[key block] entries IH]; intros Hne; [done|].
  cbn [fmap list_fmap concat]. rewrite input_jsons_at_app, IH.
  - rewrite app_nil_r. unfold block_close_events; cbn [snd].
    assert (tb_index block <> index) by (apply (Hne (key, block)); left).
    unfold input_jsons_at.
    destruct (tb_started block), (tb_finished block); cbn;
      try case_decide; cbn; try done.
    all: by rewrite decide_False.
  - intros entry Hin. apply Hne. by right.
Qed.

Lemma input_jsons_at_hit index partial_json :
  input_jsons_at index
    [ content_block_delta_input_json index partial_json;
      content_block_stop index ] = [partial_json].
Proof.
  unfold input_jsons_at, input_jsons.
  change (omap input_json_of
            [ content_block_delta_input_json index partial_json;
              content_block_stop index ])
    with [(index, partial_json)].
  by rewrite filter_cons_True.
Qed.

Lemma block_close_events_started position block :
  tb_started block = true -> tb_finished block = false ->
  TrimSpace (tb_arguments block) <> "" ->
  block_close_events (position, block)
  = [ content_block_delta_input_json (tb_index block)
        (TrimSpace (tb_arguments block));
      content_block_stop (tb_index block) ].
Proof.
  intros Hs Hf Hne. unfold block_close_events; cbn [snd].
  rewrite Hs, Hf, decide_False by done. reflexivity.
Qed.

(** C4 (amended): when the stream reaches its close with fewer than 2^63
    blocks opened, every tool block whose buffered arguments are not blank
    holds the fragments received for its position, joined unmodified; the
    close writes for it one input_json_delta carrying that buffer with the
    white space around it trimmed, directly followed by the block's
    content_block_stop; and this is the only input_json_delta with the
    block's index in the whole response. *)
Theorem C4_final_input_json_delta (clock : Clock) (order : MapRange)
    (fallbackModel : string) (reads : list sse_read) (r : reframer)
    (position : Z) (block : anthropicToolBlock)
    (Hclose : read_loop clock fallbackModel reads initial = (r, None))
    (Hblocks : (Z.of_nat (length (first_seen (appearances reads))) < 2 ^ 63)%Z)
    (Hblock : st_toolBlocks (state r) !! position = Some block)
    (Hargs : TrimSpace (tb_arguments block) <> "") :
  tb_arguments block = received position reads
  /\ (exists before after,
        fst (streamOpenAIToAnthropic clock order fallbackModel reads)
        = before
          ++ [ content_block_delta_input_json (tb_index block)
                 (TrimSpace (tb_arguments block));
               content_block_stop (tb_index block) ]
          ++ after)
  /\ input_jsons_at (tb_index block)
       (fst (streamOpenAIToAnthropic clock order fallbackModel reads))
     = [TrimSpace (tb_arguments block)].
Proof.
  pose proof (read_loop_indexed clock fallbackModel reads [] initial
                initial_indexed Hblocks) as HI.
  pose proof (read_loop_buffer clock fallbackModel reads initial position) as Hbuf.
  pose proof (read_loop_input_jsons clock fallbackModel reads initial) as Hnone.
  unfold streamOpenAIToAnthropic. rewrite Hclose in *. cbn [fst] in *.
  pose proof HI as (_ & _ & _ & _ & _ & Hopen).
  destruct (Hopen _ _ Hblock) as [Hs Hf].
  set (m := st_toolBlocks (state r)) in *.
  assert (Hin : (position, block) ∈ range_order order (map_to_list m)).
  { rewrite (range_order_perm order). by apply elem_of_map_to_list. }
  apply list_elem_of_split in Hin as (e1 & e2 & Hsplit).
  assert (Hnodup : NoDup (range_order order (map_to_list m))).
  { rewrite (range_order_perm order). apply NoDup_map_to_list. }
  assert (Hother : forall entry, entry ∈ e1 ++ e2 ->
                     tb_index (snd entry) <> tb_index block).
  { intros [q c] Hqc Heq; cbn in Heq.
    assert (Hqc' : (q, c) ∈ range_order order (map_to_list m)).
    { rewrite Hsplit, elem_of_app, elem_of_cons.
      apply elem_of_app in Hqc as [?|?]; auto. }
    rewrite (range_order_perm order) in Hqc'.
    apply elem_of_map_to_list in Hqc'.
    assert (ToolBlock q = ToolBlock position) as [= ->].
    { eapply (indexed_index_inj _ r); [exact HI | |]; cbn; fold m.
      - by rewrite Hqc'.
      - by rewrite Hblock, Heq. }
    assert (c = block) as -> by congruence.
    rewrite Hsplit in Hnodup.
    apply NoDup_app in Hnodup as (_ & Hdisj & Hnd2).
    apply NoDup_cons in Hnd2 as [Hnot2 _].
    apply elem_of_app in Hqc as [H1|H2]; [|done].
    apply (Hdisj _ H1). left. }
  split_and!.
  - unfold buffer in Hbuf. fold m in Hbuf. rewrite Hblock in Hbuf.
    cbn in Hbuf. done.
  - rewrite close_stream_written. fold m. rewrite Hsplit.
    rewrite fmap_app, concat_app. cbn [fmap list_fmap concat].
    rewrite (block_close_events_started _ _ Hs Hf Hargs).
    exists (written r
            ++ (if st_textBlockStarted (state r)
                then [content_block_stop (st_textBlockIndex (state r))] else [])
            ++ concat (block_close_events <$> e1)).
    eexists.
    rewrite <- !app_assoc. reflexivity.
  -     rewrite close_stream_written. fold m. rewrite Hsplit.
    rewrite fmap_app, concat_app. cbn [fmap list_fmap concat].
    rewrite (block_close_events_started _ _ Hs Hf Hargs).
    rewrite !input_jsons_at_app.
    rewrite (block_close_events_other _ e1)
      by (intros entry He; apply Hother, elem_of_app; by left).
    rewrite (block_close_events_other _ e2)
      by (intros entry He; apply Hother, elem_of_app; by right).
    unfold input_jsons_at at 1. rewrite Hnone.
    rewrite input_jsons_at_hit.
    destruct (st_textBlockStarted (state r)), (lastFinishReason r);
      reflexivity.
Qed.

(** *** Witnesses for the stream properties *)

Lemma C3_block_indices_witness :
  block_starts
    (fst (streamOpenAIToAnthropic (clock_from 1000) range_in_key_order "fb"
            interleaved_reads)) = [0; 1; 2]
  /\ index_of (fst (read_loop (clock_from 1000) "fb" interleaved_reads initial))
       (ToolBlock 3) = Some 1.
Proof.
  assert (H : (Z.of_nat (length (first_seen (appearances interleaved_reads)))
               < 2 ^ 63)%Z) by (vm_compute; reflexivity).
  pose proof (C3_block_indices_increasing (clock_from 1000) range_in_key_order
                "fb" interleaved_reads H) as (Hs & _ & Hi & _).
  split.
  - exact Hs.
  - exact (Hi 1%nat (ToolBlock 3) eq_refl).
Defined.

(** C4, as the spec states it, fails: on [interleaved_reads] the block of
    position 3 (index 1) has buffered " {} x " and the close writes the
    trimmed "{} x", not the buffer; the block of position 1 (index 2) has
    the non-empty buffer " " and gets no input_json_delta at all. *)
Lemma C4_buffer_is_trimmed_before_it_is_sent :
  buffer (fst (read_loop (clock_from 1000) "fb" interleaved_reads initial)) 3
    = " {} x "
  /\ buffer (fst (read_loop (clock_from 1000) "fb" interleaved_reads initial)) 1
    = " "
  /\ fst (streamOpenAIToAnthropic (clock_from 1000) range_in_key_order "fb"
            interleaved_reads)
     = [ message_start "x" "m";
         content_block_start_text 0;
         content_block_delta_text 0 "Hi";
         content_block_start_tool_use 1 "call_1000" "f";
         content_block_start_tool_use 2 "a" "g";
         content_block_stop 0;
         content_block_delta_input_json 1 "{} x";
         content_block_stop 1;
         content_block_stop 2;
         message_delta "tool_use" 0 None;
         message_stop ]
  /\ input_jsons_at 1
       (fst (streamOpenAIToAnthropic (clock_from 1000) range_in_key_order "fb"
               interleaved_reads)) <> [" {} x "]
  /\ input_jsons_at 2
       (fst (streamOpenAIToAnthropic (clock_from 1000) range_in_key_order "fb"
               interleaved_reads)) = [].
Proof.
  split_and!; try (vm_compute; reflexivity).
  vm_compute. discriminate.
Qed.

Lemma C4_final_input_json_delta_witness :
  input_jsons_at 1
    (fst (streamOpenAIToAnthropic (clock_from 1000) range_in_key_order "fb"
            interleaved_reads)) = ["{} x"].
Proof.
  refine (proj2 (proj2
    (C4_final_input_json_delta (clock_from 1000) range_in_key_order "fb"
       interleaved_reads
       (fst (read_loop (clock_from 1000) "fb" interleaved_reads initial))
       3
       {| tb_index := 1; tb_id := "call_1000"; tb_name := "f";
          tb_arguments := " {} x "; tb_started := true;
          tb_finished := false; tb_openAIIndex := 3 |}
       _ _ _ _))).
  - vm_compute. reflexivity.
  - vm_compute. reflexivity.
  - vm_compute. reflexivity.
  - vm_compute. discriminate.
Defined.

(** ** The request translator *)

Lemma tool_results_only codec clock blocks p tick :
  Forall (fun block => as_string (get block "type") = "tool_result") blocks ->
  List.fold_left
    (fun acc item =>
       match item with
       | JObj block => parseAnthropicBlock codec clock block (fst acc) (snd acc)
       | _ => acc
       end) (JObj <$> blocks) (p, tick)
  = ({| textParts := textParts p; toolCalls := toolCalls p;
        toolResults := toolResults p
                       ++ (tool_result_message codec <$> blocks) |}, tick).
Proof.
  intros Hall. revert p. induction Hall as [|block blocks Hty _ IH]; intros p.
  - cbn. rewrite app_nil_r. by destruct p.
  - cbn [fmap list_fmap List.fold_left fst snd].
    unfold parseAnthropicBlock at 2. rewrite Hty.
    rewrite decide_False by done. rewrite decide_False by done.
    rewrite decide_True by done.
    rewrite IH. cbn [textParts toolCalls toolResults].
    by rewrite <- app_assoc.
Qed.

(** C6: a message whose content is a non-empty list of tool_result blocks
    converts to exactly the flat tool-role messages of its blocks, one per
    block and in block order, with no main message before them (and
    without reading the clock). *)
Theorem C6_tool_results_only (codec : JSONCodec) (clock : Clock)
    (msg : AnthropicMessage) (blocks : list (gmap string json)) (tick : nat)
    (Hcontent : am_Content msg = JArr (JObj <$> blocks))
    (Hsome : blocks <> [])
    (Hresults :
       Forall (fun block => as_string (get block "type") = "tool_result")
         blocks) :
  ConvertAnthropicMessage codec clock msg tick
    = (tool_result_message codec <$> blocks, tick)
  /\ length (fst (ConvertAnthropicMessage codec clock msg tick))
     = length blocks
  /\ Forall (fun m => get m "role" = JStr "tool")
       (fst (ConvertAnthropicMessage codec clock msg tick)).
Proof.
  assert (Heq : ConvertAnthropicMessage codec clock msg tick
                = (tool_result_message codec <$> blocks, tick)).
  { unfold ConvertAnthropicMessage, ParseAnthropicContent. rewrite Hcontent.
    rewrite (tool_results_only codec clock blocks no_parts tick Hresults).
    cbn [textParts toolCalls toolResults no_parts app].
    rewrite bool_decide_false by (intros [?|?]; done).
    rewrite bool_decide_false by (by destruct blocks).
    reflexivity. }
  rewrite Heq. cbn [fst]. split_and!.
  - done.
  - by rewrite length_fmap.
  - apply Forall_fmap, Forall_forall. intros block _. reflexivity.
Qed.

Lemma C6_tool_results_only_witness :
  length
    (fst (ConvertAnthropicMessage (witness_codec empty_response) (clock_from 0)
            {| am_Role := "user"; am_Content := JArr (JObj <$> two_results) |}
            0)) = 2%nat.
Proof.
  refine (proj1 (proj2
    (C6_tool_results_only (witness_codec empty_response) (clock_from 0)
       {| am_Role := "user"; am_Content := JArr (JObj <$> two_results) |}
       two_results 0 _ _ _))).
  - reflexivity.
  - unfold two_results. discriminate.
  - repeat constructor.
Defined.

Ltac fill_cases req :=
  destruct (0 <? ar_MaxTokens req)%Z, (ar_Temperature req), (ar_TopP req),
    (ar_TopK req), (ar_StopSequences req),
    (ConvertAnthropicTools (ar_Tools req)), (is_nil (ar_ToolChoice req)).

Lemma Main_fill_openAIReq_sampling req (m : gmap string json) :
  Forall (fun k => m !! k = None) sampling_keys ->
  passes_sampling req (Main.fill_openAIReq req m).
Proof.
  intros Hm. unfold sampling_keys in Hm.
  repeat (apply Forall_cons in Hm as [? Hm]).
  unfold passes_sampling, Main.fill_openAIReq.
  fill_cases req; cbn [fmap option_fmap option_map]; split_and!;
    by simplify_map_eq.
Qed.

Lemma Usecase_fill_openAIReq_top_k req (m : gmap string json) :
  Usecase.fill_openAIReq req m !! "top_k" = m !! "top_k".
Proof.
  unfold Usecase.fill_openAIReq.
  fill_cases req; by simplify_map_eq.
Qed.

(** The monolith's [handleAnthropic] builds the flat request the claim C5
    describes. *)
Lemma Main_handleAnthropic_passes_sampling codec clock req :
  passes_sampling req (fst (Main.handleAnthropic_openAIReq codec clock req)).
Proof.
  unfold Main.handleAnthropic_openAIReq.
  destruct (ConvertAnthropicToOpenAIMessages _ _ _ _ _) as [msgs tick].
  cbn [fst]. apply Main_fill_openAIReq_sampling.
  unfold sampling_keys. repeat constructor; by simplify_map_eq.
Qed.

(** The Gin handlers never put top_k into the flat request. *)
Lemma Usecase_never_sends_top_k codec clock req :
  fst (Usecase.HandleAnthropic_openAIReq codec clock req) !! "top_k" = None
  /\ fst (Usecase.handleAnthropicStream_openAIReq codec clock req) !! "top_k"
     = None.
Proof.
  unfold Usecase.HandleAnthropic_openAIReq,
    Usecase.handleAnthropicStream_openAIReq.
  destruct (ConvertAnthropicToOpenAIMessages _ _ _ _ _) as [msgs tick].
  cbn [fst]. rewrite !Usecase_fill_openAIReq_top_k. by simplify_map_eq.
Qed.

(** C5 at the failing input: for a request with top_k set to 40 the Gin
    handler's flat request has no top_k, where the claim (and the
    monolith's handler) has top_k = 40. *)
Theorem C5_gin_request_drops_top_k (codec : JSONCodec) (clock : Clock) :
  ar_TopK request_with_top_k = Some 40
  /\ fst (Usecase.HandleAnthropic_openAIReq codec clock request_with_top_k)
       !! "top_k" = None
  /\ ~ passes_sampling request_with_top_k
       (fst (Usecase.HandleAnthropic_openAIReq codec clock request_with_top_k))
  /\ fst (Main.handleAnthropic_openAIReq codec clock request_with_top_k)
       !! "top_k" = Some (JInt 40).
Proof.
  pose proof (Usecase_never_sends_top_k codec clock request_with_top_k)
    as [Hgin _].
  pose proof (Main_handleAnthropic_passes_sampling codec clock
                request_with_top_k) as (_ & _ & _ & Hmain & _).
  split_and!; try done.
  intros (_ & _ & _ & Hk & _). rewrite Hgin in Hk. discriminate Hk.
Qed.

(** ** Tool-call arguments that are not JSON *)

(** Lookups in maps written with concrete keys. *)
Ltac map_lookup :=
  unfold get;
  repeat first
    [ rewrite lookup_insert_eq
    | rewrite lookup_insert_ne by discriminate
    | rewrite lookup_singleton_eq
    | rewrite lookup_singleton_ne by discriminate
    | rewrite lookup_empty ];
  cbn [default from_option id].






(** ** The response translator *)

Lemma anthropic_reply_cases codec clock req openAIResp tick :
  (lacks_message openAIResp /\
   anthropic_reply codec clock req openAIResp tick
   = reply_error 502 "no choices in response")
  \/ (~ lacks_message openAIResp /\
      exists resp,
        anthropic_reply codec clock req openAIResp tick = reply_message resp).
Proof.
  unfold anthropic_reply, lacks_message.
  destruct (or_Choices openAIResp) as [|choice rest]; [by left|].
  destruct (oc_Message choice) as [message|]; [|by left].
  right. split; [done|].
  destruct (BuildAnthropicContentBlocks _ _ _ _) as [blocks tick'].
  eauto.
Qed.

(** C8: when the upstream answers a non-streaming request with a 2xx
    status and a body that decodes to a flat response, the handler answers
    502 "no choices in response", and no typed-block response, exactly
    when the flat response has no choices or its first choice has no
    message; otherwise it answers with a typed-block response. *)
Theorem C8_upstream_protocol_error (codec : JSONCodec) (clock : Clock)
    (client : Client) (defaultModel : string) (req : AnthropicRequest)
    (resp : UpstreamResponse) (openAIResp : OpenAIResponse)
    (Hplain : ar_Stream req = false)
    (Hsent : forall openAIReq, ProxyRequest client openAIReq = inr resp)
    (H2xx : not_2xx (up_StatusCode resp) = false)
    (Hbody : UnmarshalOpenAIResponse codec (up_Body resp) = Some openAIResp) :
  (Usecase.HandleAnthropic codec clock client defaultModel req
     = reply_error 502 "no choices in response"
   <-> lacks_message openAIResp)
  /\ (lacks_message openAIResp ->
      forall out, Usecase.HandleAnthropic codec clock client defaultModel req
                  <> reply_message out)
  /\ (~ lacks_message openAIResp ->
      exists out, Usecase.HandleAnthropic codec clock client defaultModel req
                  = reply_message out).
Proof.
  assert (Hreply : exists req' tick,
    Usecase.HandleAnthropic codec clock client defaultModel req
    = anthropic_reply codec clock req' openAIResp tick).
  { unfold Usecase.HandleAnthropic.
    set (req' := if decide (ar_Model req = "") then _ else req).
    assert (ar_Stream req' = false) as ->.
    { subst req'. by case_decide. }
    destruct (Usecase.HandleAnthropic_openAIReq codec clock req')
      as [openAIReq tick].
    rewrite Hsent, H2xx, Hbody. eauto. }
  destruct Hreply as (req' & tick & ->).
  destruct (anthropic_reply_cases codec clock req' openAIResp tick)
    as [[Hl ->] | [Hl [out ->]]]; split_and!; try done.
  - intros _. by exists out.
Qed.

(** A flat response with a text message, run through the handler. *)
Example HandleAnthropic_text_response :
  Usecase.HandleAnthropic (witness_codec text_response) (clock_from 0)
    (witness_client {| up_StatusCode := 200; up_Body := "{}" |}) "dm"
    request_with_top_k
  = reply_message
      {| resp_ID := "r1"; resp_Type := "message"; resp_Role := "assistant";
         resp_Model := "m";
         resp_Content :=
           [ {| acb_Type := "text"; acb_Text := "hello"; acb_ID := "";
                acb_Name := ""; acb_Input := JNull |} ];
         resp_StopReason := "end_turn"; resp_StopSequence := "";
         resp_Usage := {| au_InputTokens := 1; au_OutputTokens := 2 |} |}.
Proof. vm_compute. reflexivity. Qed.

(** The monolith's [handleAnthropic] decides in the same way. *)
Lemma Main_handleAnthropic_protocol_error (codec : JSONCodec) (clock : Clock)
    (order : MapRange) (client : Client) (defaultModel : string)
    (readSSE : string -> list sse_read) (req : AnthropicRequest)
    (resp : UpstreamResponse) (openAIResp : OpenAIResponse) :
  ar_Stream req = false ->
  (forall openAIReq, ProxyRequest client openAIReq = inr resp) ->
  not_2xx (up_StatusCode resp) = false ->
  UnmarshalOpenAIResponse codec (up_Body resp) = Some openAIResp ->
  Main.handleAnthropic codec clock order client defaultModel readSSE req
    = reply_error 502 "no choices in response"
  <-> lacks_message openAIResp.
Proof.
  intros Hplain Hsent H2xx Hbody.
  unfold Main.handleAnthropic. rewrite Hplain.
  set (req' := if decide (ar_Model req = "") then _ else req).
  destruct (Main.handleAnthropic_openAIReq codec clock req')
    as [openAIReq tick].
  rewrite Hsent, H2xx, Hbody.
  destruct (anthropic_reply_cases codec clock req' openAIResp tick)
    as [[Hl ->] | [Hl [out ->]]]; done.
Qed.

Lemma C8_upstream_protocol_error_witness :
  Usecase.HandleAnthropic (witness_codec empty_response) (clock_from 0)
    (witness_client {| up_StatusCode := 200; up_Body := "{}" |}) "dm"
    request_with_top_k
  = reply_error 502 "no choices in response".
Proof.
  refine (proj2 (proj1
    (C8_upstream_protocol_error (witness_codec empty_response) (clock_from 0)
       (witness_client {| up_StatusCode := 200; up_Body := "{}" |}) "dm"
       request_with_top_k {| up_StatusCode := 200; up_Body := "{}" |}
       empty_response _ _ _ _)) _).
  - reflexivity.
  - intros openAIReq. reflexivity.
  - vm_compute. reflexivity.
  - reflexivity.
  - vm_compute. exact I.
Defined.

(** ** The streaming handlers *)

(** C9: when the upstream answers a streaming request with a 2xx status,
    the Gin handler's response body is the upstream body, copied as it is,
    and holds no typed-block event; the monolith's handler answers with the
    events that [streamOpenAIToAnthropic] writes for that body (with the
    request's model, or the default one, as fallback model), and with
    nothing else. *)
Theorem C9_gin_stream_is_passthrough (codec : JSONCodec) (clock : Clock)
    (order : MapRange) (client : Client) (defaultModel : string)
    (readSSE : string -> list sse_read)
    (req : AnthropicRequest) (resp : UpstreamResponse)
    (Hsent : forall openAIReq, ProxyStream client openAIReq = inr resp)
    (H2xx : not_2xx (up_StatusCode resp) = false) :
  Usecase.handleAnthropicStream codec clock client req
    = reply_stream 200 [Raw (up_Body resp)]
  /\ (forall e, SSE e ∉ [Raw (up_Body resp)])
  /\ Main.handleAnthropicStream codec clock order client defaultModel
       readSSE req
     = reply_stream 200
         (SSE <$> fst (streamOpenAIToAnthropic clock order
                         (if decide (ar_Model req = "") then defaultModel
                          else ar_Model req)
                         (readSSE (up_Body resp))))
  /\ (forall bytes,
        Raw bytes ∉
          SSE <$> fst (streamOpenAIToAnthropic clock order
                         (if decide (ar_Model req = "") then defaultModel
                          else ar_Model req)
                         (readSSE (up_Body resp)))).
Proof.
  split_and!.
  - unfold Usecase.handleAnthropicStream.
    destruct (Usecase.handleAnthropicStream_openAIReq codec clock req)
      as [openAIReq tick].
    by rewrite Hsent, H2xx.
  - intros e He. apply list_elem_of_singleton in He. discriminate He.
  - unfold Main.handleAnthropicStream.
    destruct (Main.handleAnthropicStream_openAIReq _ _ _) as [openAIReq tick].
    rewrite Hsent, H2xx. by destruct (decide (ar_Model req = "")).
  - intros bytes Hin. apply list_elem_of_fmap in Hin as (e & He & _).
    discriminate He.
Qed.

Lemma C9_gin_stream_is_passthrough_witness :
  Usecase.handleAnthropicStream (witness_codec empty_response) (clock_from 0)
    (witness_client {| up_StatusCode := 200; up_Body := "data: [DONE]" |})
    streaming_request
  = reply_stream 200 [Raw "data: [DONE]"]
  /\ Main.handleAnthropicStream (witness_codec empty_response) (clock_from 0)
       range_in_key_order
       (witness_client {| up_StatusCode := 200; up_Body := "data: [DONE]" |})
       "dm" (fun _ => [ReadData DataDone false]) streaming_request
     = reply_stream 200 [SSE message_stop].
Proof.
  destruct
    (C9_gin_stream_is_passthrough (witness_codec empty_response)
       (clock_from 0) range_in_key_order
       (witness_client {| up_StatusCode := 200; up_Body := "data: [DONE]" |})
       "dm" (fun _ => [ReadData DataDone false])
       streaming_request
       {| up_StatusCode := 200; up_Body := "data: [DONE]" |})
    as (Hgin & _ & Hmain & _).
  - intros openAIReq. reflexivity.
  - reflexivity.
  - split; [exact Hgin|]. rewrite Hmain. vm_compute. reflexivity.
Defined.

(** ** The shape of the event stream *)

Lemma extends_refl r : extends r r.
Proof. split; [done|]. exists []. by rewrite app_nil_r. Qed.

Lemma extends_trans r1 r2 r3 : extends r1 r2 -> extends r2 r3 -> extends r1 r3.
Proof.
  intros [Hs1 (e1 & Hw1 & Hb1)] [Hs2 (e2 & Hw2 & Hb2)]. split; [congruence|].
  exists (e1 ++ e2). rewrite Hw2, Hw1, <- app_assoc. split; [done|].
  by apply Forall_app.
Qed.

Lemma extends_fold {A} (f : reframer -> A -> reframer) l r :
  (forall r x, extends r (f r x)) -> extends r (List.fold_left f l r).
Proof.
  intros Hf. revert r. induction l as [|x l IH]; intros r; cbn.
  - apply extends_refl.
  - eapply extends_trans; [apply Hf | apply IH].
Qed.

Lemma extends_write e r r' :
  written r' = written r ++ [e] ->
  st_started (state r') = st_started (state r) ->
  is_body_event e = true ->
  extends r r'.
Proof. intros Hw Hs He. split; [done|]. exists [e]. split; [done|]. by constructor. Qed.

Lemma extends_same r r' :
  st_started (state r') = st_started (state r) ->
  written r' = written r ->
  extends r r'.
Proof. intros Hs Hw. split; [done|]. exists []. by rewrite app_nil_r. Qed.

Ltac extends_step :=
  first [ apply extends_refl
        | apply extends_same; cbn; reflexivity
        | eapply extends_write; cbn; reflexivity ].

Section Shape.

Variable clock : Clock.
Variable fallbackModel : string.

Lemma on_tool_call_extends r call : extends r (on_tool_call clock r call).
Proof.
  unfold on_tool_call. cbn [state st_toolBlocks tick].
  destruct (st_toolBlocks (state r) !! stc_Index call) as [block|].
  - destruct (tb_started block); extends_step.
  - destruct (if decide (stc_ID call = "") then _ else _) as [id tick'].
    extends_step.
Qed.

Lemma on_choice_extends r choice : extends r (on_choice clock r choice).
Proof.
  unfold on_choice.
  eapply extends_trans; [|apply extends_fold, on_tool_call_extends].
  set (r1 := match sc_FinishReason choice with Some _ => _ | None => r end).
  assert (H1 : extends r r1).
  { subst r1. destruct (sc_FinishReason choice); extends_step. }
  eapply extends_trans; [exact H1|]. clearbody r1.
  destruct (decide (sd_Content (sc_Delta choice) = "")); [apply extends_refl|].
  destruct (st_textBlockStarted (state r1)).
  - extends_step.
  - apply (extends_trans _
             (writeAnthropicEvent
                (content_block_start_text
                   (st_textBlockIndex (state (set_state open_text_block r1))))
                (set_state open_text_block r1))); extends_step.
Qed.

Lemma on_chunk_started r chunk :
  st_started (state r) = true ->
  extends r (on_chunk clock fallbackModel r chunk).
Proof.
  intros Hs. unfold on_chunk. rewrite Hs.
  eapply extends_trans; [|apply extends_fold, on_choice_extends].
  destruct (sr_Usage chunk); extends_step.
Qed.

Lemma on_chunk_first r chunk :
  st_started (state r) = false -> tick r = 0%nat ->
  exists r1,
    written r1 = written r ++ [first_message_start clock fallbackModel chunk]
    /\ st_started (state r1) = true
    /\ extends r1 (on_chunk clock fallbackModel r chunk).
Proof.
  intros Hs Ht. unfold on_chunk. rewrite Hs, Ht.
  set (r1 := let '(id, tick') := _ in writeAnthropicEvent _ _).
  exists r1. split_and!.
  - subst r1. unfold first_message_start. by case_decide.
  - subst r1. by case_decide.
  - eapply extends_trans; [|apply extends_fold, on_choice_extends].
    destruct (sr_Usage chunk); extends_step.
Qed.

Lemma read_loop_started reads r :
  st_started (state r) = true ->
  extends r (fst (read_loop clock fallbackModel reads r)).
Proof.
  revert r. induction reads as [|read reads IH]; intros r Hs.
  - apply extends_refl.
  - destruct read as [err | data eof]; [apply extends_refl|].
    destruct data as [ | | | chunk]; cbn.
    + destruct eof; [apply extends_refl | by apply IH].
    + apply extends_refl.
    + by apply IH.
    + pose proof (on_chunk_started r chunk Hs) as Hc.
      destruct eof; cbn; [done|].
      eapply extends_trans; [exact Hc|]. apply IH.
      destruct Hc as [-> _]. done.
Qed.

(** Whatever the loop ends on, it has written the [message_start] of the
    first decoded chunk, if there is one, and body events after it. *)
Lemma read_loop_shape reads r :
  st_started (state r) = false -> tick r = 0%nat ->
  exists body,
    written (fst (read_loop clock fallbackModel reads r))
    = written r ++ stream_head clock fallbackModel reads ++ body
    /\ Forall (fun e => is_body_event e = true) body.
Proof.
  unfold stream_head.
  revert r. induction reads as [|read reads IH]; intros r Hs Ht.
  - exists []. by rewrite !app_nil_r.
  - destruct read as [err | data eof]; [exists []; by rewrite !app_nil_r|].
    destruct data as [ | | | chunk]; cbn.
    + destruct eof; [exists []; by rewrite !app_nil_r | by apply IH].
    + exists []. by rewrite !app_nil_r.
    + by apply IH.
    + destruct (on_chunk_first r chunk Hs Ht) as (r1 & Hw1 & Hs1 & Hext).
      assert (Hext' : extends r1
        (fst (if eof then (on_chunk clock fallbackModel r chunk, None)
              else read_loop clock fallbackModel reads
                     (on_chunk clock fallbackModel r chunk)))).
      { destruct eof; cbn; [done|].
        eapply extends_trans; [exact Hext|]. apply read_loop_started.
        destruct Hext as [-> _]. done. }
      destruct Hext' as [_ (body & Hw & Hb)].
      exists body. rewrite Hw, Hw1, <- app_assoc. done.
Qed.

End Shape.

Lemma block_close_events_are_close entries :
  Forall (fun e => is_close_event e = true)
    (concat (block_close_events <$> entries)).
Proof.
  induction entries as [|[key block] entries IH]; [constructor|].
  cbn [fmap list_fmap concat]. apply Forall_app. split; [|done].
  unfold block_close_events; cbn [snd].
  destruct (tb_started block), (tb_finished block); cbn;
    try case_decide; repeat constructor.
Qed.

(** X1: when [streamOpenAIToAnthropic] returns without error, what it wrote
    is: the [message_start] of the first decoded chunk (nothing when no
    chunk was decoded), then only block starts and text deltas, then only
    input_json deltas, block stops and at most the message_delta, and
    [message_stop] as the last event. *)
Theorem stream_closed_shape (clock : Clock) (order : MapRange)
    (fallbackModel : string) (reads : list sse_read)
    (Hclosed : snd (streamOpenAIToAnthropic clock order fallbackModel reads)
               = None) :
  exists body closing,
    fst (streamOpenAIToAnthropic clock order fallbackModel reads)
    = stream_head clock fallbackModel reads ++ body ++ closing
      ++ [message_stop]
    /\ Forall (fun e => is_body_event e = true) body
    /\ Forall (fun e => is_close_event e = true) closing.
Proof.
  unfold streamOpenAIToAnthropic in *.
  destruct (read_loop_shape clock fallbackModel reads initial eq_refl eq_refl)
    as (body & Hw & Hb).
  destruct (read_loop clock fallbackModel reads initial) as [r [err|]];
    [done|]. cbn [fst snd] in *.
  rewrite close_stream_written, Hw. cbn [initial written app].
  set (A := if st_textBlockStarted (state r) then _ else []).
  set (B := concat _).
  set (C := match lastFinishReason r with Some _ => _ | None => [] end).
  exists body, (A ++ B ++ C). split; [by rewrite <- !app_assoc|].
  split; [done|].
  apply Forall_app. split.
  { subst A. destruct (st_textBlockStarted (state r)); repeat constructor. }
  apply Forall_app. split; [apply block_close_events_are_close|].
  subst C. destruct (lastFinishReason r); repeat constructor.
Qed.

Lemma stream_closed_shape_witness :
  exists body closing,
    fst (streamOpenAIToAnthropic (clock_from 1000) range_in_key_order "fb"
           interleaved_reads)
    = stream_head (clock_from 1000) "fb" interleaved_reads ++ body ++ closing
      ++ [message_stop]
    /\ Forall (fun e => is_body_event e = true) body
    /\ Forall (fun e => is_close_event e = true) closing.
Proof.
  apply stream_closed_shape. vm_compute. reflexivity.
Defined.

Lemma read_loop_runs_out clock fallbackModel reads r :
  Forall (fun read => is_complete_chunk read = true) reads ->
  snd (read_loop clock fallbackModel reads r) = Some io_EOF.
Proof.
  intros Hall. revert r.
  induction Hall as [|read reads Hread _ IH]; intros r; [done|].
  destruct read as [err | [ | | | chunk] [|]]; try discriminate Hread.
  cbn. apply IH.
Qed.

(** X2: when [streamOpenAIToAnthropic] returns an error, it has written no
    closing event at all: after the [message_start] there are only block
    starts and text deltas, and no block stop, message_delta or
    message_stop.  This is what happens when the input just ends after
    complete chunks, without the end marker: the result is [io.EOF]. *)
Theorem stream_error_writes_no_close (clock : Clock) (order : MapRange)
    (fallbackModel : string) (reads : list sse_read) :
  (forall err,
     snd (streamOpenAIToAnthropic clock order fallbackModel reads) = Some err ->
     exists body,
       fst (streamOpenAIToAnthropic clock order fallbackModel reads)
       = stream_head clock fallbackModel reads ++ body
       /\ Forall (fun e => is_body_event e = true) body)
  /\ (Forall (fun read => is_complete_chunk read = true) reads ->
      snd (streamOpenAIToAnthropic clock order fallbackModel reads)
      = Some io_EOF).
Proof.
  unfold streamOpenAIToAnthropic. split.
  - destruct (read_loop_shape clock fallbackModel reads initial eq_refl eq_refl)
      as (body & Hw & Hb).
    destruct (read_loop clock fallbackModel reads initial) as [r [err'|]];
      [|done]. cbn [fst snd] in *.
    intros err _. exists body. by rewrite Hw.
  - intros Hall.
    pose proof (read_loop_runs_out clock fallbackModel reads initial Hall) as He.
    destruct (read_loop clock fallbackModel reads initial) as [r [err'|]];
      cbn in *; congruence.
Qed.

Lemma stream_error_writes_no_close_witness :
  snd (streamOpenAIToAnthropic (clock_from 1000) range_in_key_order "fb"
         unterminated_reads) = Some io_EOF.
Proof.
  apply (proj2 (stream_error_writes_no_close (clock_from 1000)
                  range_in_key_order "fb" unterminated_reads)).
  repeat constructor.
Defined.

Lemma read_loop_effective clock fallbackModel reads r :
  read_loop clock fallbackModel (List.filter is_effective reads) r
  = read_loop clock fallbackModel reads r.
Proof.
  revert r. induction reads as [|read reads IH]; intros r; [done|].
  destruct read as [err | [ | | | chunk] [|]]; cbn; try done; apply IH.
Qed.

(** X3: undecodable data and empty data (other than the empty read at the
    end of the input) change nothing: with them removed from the reads the
    function writes the same events and returns the same error. *)
Theorem stream_skips_ineffective_reads (clock : Clock) (order : MapRange)
    (fallbackModel : string) (reads : list sse_read) :
  streamOpenAIToAnthropic clock order fallbackModel
    (List.filter is_effective reads)
  = streamOpenAIToAnthropic clock order fallbackModel reads.
Proof.
  unfold streamOpenAIToAnthropic. by rewrite read_loop_effective.
Qed.

Lemma read_loop_done clock fallbackModel before eof eof' after after' r :
  read_loop clock fallbackModel (before ++ ReadData DataDone eof :: after) r
  = read_loop clock fallbackModel (before ++ ReadData DataDone eof' :: after') r.
Proof.
  revert r. induction before as [|read before IH]; intros r; [done|].
  destruct read as [err | [ | | | chunk] [|]]; cbn; try done; apply IH.
Qed.

(** X4: nothing that follows the end marker is looked at: two inputs that
    agree up to their first end marker give the same events and the same
    result. *)
Theorem stream_stops_at_done (clock : Clock) (order : MapRange)
    (fallbackModel : string) (before after after' : list sse_read)
    (eof eof' : bool) :
  streamOpenAIToAnthropic clock order fallbackModel
    (before ++ ReadData DataDone eof :: after)
  = streamOpenAIToAnthropic clock order fallbackModel
      (before ++ ReadData DataDone eof' :: after').
Proof.
  unfold streamOpenAIToAnthropic.
  by rewrite (read_loop_done _ _ before eof eof' after after').
Qed.

(** ** The text of the message *)

Lemma text_deltas_app l1 l2 :
  text_deltas (l1 ++ l2) = text_deltas l1 ++ text_deltas l2.
Proof. unfold text_deltas. apply omap_app. Qed.

Lemma texted_frame T r r' :
  st_textBlockIndex (state r') = st_textBlockIndex (state r) ->
  st_textBlockStarted (state r') = st_textBlockStarted (state r) ->
  text_deltas (written r') = text_deltas (written r) ->
  texted T r -> texted T r'.
Proof. intros Hi Hs Hw [H1 H2]. split; by rewrite ?Hi, ?Hs, ?Hw. Qed.

Section Texts.

Variable clock : Clock.
Variable fallbackModel : string.

Lemma on_tool_call_texted T r call :
  texted T r -> texted T (on_tool_call clock r call).
Proof.
  apply texted_frame; unfold on_tool_call; cbn [state st_toolBlocks tick];
    destruct (st_toolBlocks (state r) !! stc_Index call) as [block|];
    try destruct (tb_started block);
    try destruct (if decide (stc_ID call = "") then _ else _) as [id tick'];
    cbn; rewrite ?text_deltas_app; cbn; rewrite ?app_nil_r; done.
Qed.

Lemma on_tool_calls_texted T calls r :
  texted T r -> texted T (List.fold_left (on_tool_call clock) calls r).
Proof.
  revert r. induction calls as [|call calls IH]; intros r HT; [done|].
  cbn. by apply IH, on_tool_call_texted.
Qed.

Lemma on_choice_texted T r choice :
  texted T r -> texted (T ++ choice_text choice) (on_choice clock r choice).
Proof.
  intros HT. unfold on_choice, choice_text.
  apply on_tool_calls_texted.
  set (r1 := match sc_FinishReason choice with Some _ => _ | None => r end).
  assert (HT1 : texted T r1).
  { subst r1. destruct (sc_FinishReason choice); [|done].
    eapply texted_frame; [..|exact HT]; done. }
  clearbody r1. clear HT.
  destruct (decide (sd_Content (sc_Delta choice) = "")) as [He|He].
  - by rewrite app_nil_r.
  - destruct HT1 as [H1 H2].
    destruct (st_textBlockStarted (state r1)) eqn:Hs.
    + split; [|done]. cbn. rewrite text_deltas_app, H1, fmap_app. done.
    + assert (T = []) as ->.
      { destruct T; [done|]. by discriminate H2. }
      split; [|done]. cbn. rewrite !text_deltas_app, H1. done.
Qed.

Lemma on_choices_texted T choices r :
  texted T r ->
  texted (T ++ concat (choice_text <$> choices))
    (List.fold_left (on_choice clock) choices r).
Proof.
  revert T r. induction choices as [|choice choices IH]; intros T r HT.
  - cbn. by rewrite app_nil_r.
  - cbn. rewrite app_assoc. by apply IH, on_choice_texted.
Qed.

Lemma on_chunk_texted T r chunk :
  texted T r ->
  texted (T ++ chunk_texts chunk) (on_chunk clock fallbackModel r chunk).
Proof.
  intros HT. unfold on_chunk, chunk_texts.
  apply on_choices_texted.
  set (r1 := if st_started (state r) then r else _).
  assert (HT1 : texted T r1).
  { subst r1. destruct (st_started (state r)); [done|].
    destruct (if decide (sr_ID chunk = "") then _ else _) as [id tick'].
    eapply texted_frame; [..|exact HT]; cbn;
      rewrite ?text_deltas_app; cbn; rewrite ?app_nil_r; done. }
  clearbody r1.
  destruct (sr_Usage chunk); [|done].
  eapply texted_frame; [..|exact HT1]; done.
Qed.

Lemma read_loop_texted T reads r :
  texted T r ->
  texted (T ++ texts reads) (fst (read_loop clock fallbackModel reads r)).
Proof.
  unfold texts.
  revert T r. induction reads as [|read reads IH]; intros T r HT.
  - cbn. by rewrite app_nil_r.
  - destruct read as [err | data eof]; [by cbn; rewrite app_nil_r|].
    destruct data as [ | | | chunk]; cbn.
    + destruct eof; [by cbn; rewrite app_nil_r | by apply IH].
    + by rewrite app_nil_r.
    + by apply IH.
    + pose proof (on_chunk_texted T r chunk HT) as HT'.
      destruct eof; cbn.
      * by rewrite app_nil_r.
      * rewrite app_assoc. by apply IH.
Qed.

End Texts.

Lemma block_close_events_no_text entries :
  text_deltas (concat (block_close_events <$> entries)) = [].
Proof.
  induction entries as [|[key block] entries IH]; [done|].
  cbn [fmap list_fmap concat]. rewrite text_deltas_app, IH, app_nil_r.
  unfold block_close_events; cbn [snd].
  destruct (tb_started block), (tb_finished block); cbn;
    try case_decide; done.
Qed.

(** X5: the text deltas written for a request are exactly the non-empty
    text contents of the decoded chunks, in order and unchanged, and all
    of them carry the index of the one text block. *)
Theorem stream_text_is_preserved (clock : Clock) (order : MapRange)
    (fallbackModel : string) (reads : list sse_read) :
  text_deltas (fst (streamOpenAIToAnthropic clock order fallbackModel reads))
  = (fun text =>
       (st_textBlockIndex
          (state (fst (read_loop clock fallbackModel reads initial))), text))
      <$> texts reads.
Proof.
  assert (H0 : texted [] initial) by done.
  pose proof (read_loop_texted clock fallbackModel [] reads initial H0)
    as [Hw _].
  unfold streamOpenAIToAnthropic.
  destruct (read_loop clock fallbackModel reads initial) as [r [err|]];
    cbn [fst] in *; [done|].
  rewrite close_stream_written, !text_deltas_app, Hw,
    block_close_events_no_text.
  destruct (st_textBlockStarted (state r)), (lastFinishReason r); cbn;
    by rewrite ?app_nil_r.
Qed.

(** ** Every started block is stopped *)

Lemma block_stops_app l1 l2 :
  block_stops (l1 ++ l2) = block_stops l1 ++ block_stops l2.
Proof. unfold block_stops. apply omap_app. Qed.

Lemma body_events_no_stop events :
  Forall (fun e => is_body_event e = true) events -> block_stops events = [].
Proof.
  induction 1 as [|e events He _ IH]; [done|].
  destruct e; try discriminate He; done.
Qed.

Lemma block_close_stops entries :
  Forall (fun entry => tb_started (snd entry) = true
                       /\ tb_finished (snd entry) = false) entries ->
  block_stops (concat (block_close_events <$> entries))
  = (fun entry => tb_index (snd entry)) <$> entries.
Proof.
  induction 1 as [|[key block] entries [Hs Hf] _ IH]; [done|].
  cbn [fmap list_fmap concat]. rewrite block_stops_app, IH.
  unfold block_close_events; cbn [snd] in *. rewrite Hs, Hf.
  by case_decide.
Qed.

Lemma known_keys_indexed F r : indexed F r -> known_keys r ≡ₚ F.
Proof.
  intros HI. pose proof HI as (HF & _).
  apply NoDup_Permutation; [|done|].
  - unfold known_keys. apply NoDup_app. split_and!.
    + destruct (st_textBlockStarted (state r));
        [apply NoDup_singleton | apply NoDup_nil_2].
    + intros k Hk Hk'. apply list_elem_of_fmap in Hk' as (p & -> & _).
      destruct (st_textBlockStarted (state r)).
      * by apply list_elem_of_singleton in Hk.
      * by apply elem_of_nil in Hk.
    + apply NoDup_fmap_2; [by intros ?? [=] | apply NoDup_fst_map_to_list].
  - intros k. unfold known_keys. rewrite elem_of_app. destruct k as [|p].
    + rewrite <- (indexed_text_known F r HI). split.
      * intros [Hk | Hk].
        -- destruct (st_textBlockStarted (state r));
             [done | by apply elem_of_nil in Hk].
        -- by apply list_elem_of_fmap in Hk as (? & ? & _).
      * intros ->. left. by left.
    + rewrite <- (indexed_tool_known F r p HI). split.
      * intros [Hk | Hk].
        -- destruct (st_textBlockStarted (state r));
             [by apply list_elem_of_singleton in Hk | by apply elem_of_nil in Hk].
        -- apply list_elem_of_fmap in Hk as (q & [= ->] & Hq).
           apply list_elem_of_fmap in Hq as ([q' b] & -> & Hqb).
           apply elem_of_map_to_list in Hqb. eauto.
      * intros [b Hb]. right. apply list_elem_of_fmap. exists p. split; [done|].
        apply list_elem_of_fmap. exists (p, b). split; [done|].
        by apply elem_of_map_to_list.
Qed.

Lemma indexed_indices F r :
  indexed F r ->
  (fun k => default 0 (index_of r k)) <$> F = Z.of_nat <$> seq 0 (length F).
Proof.
  intros (_ & _ & _ & Hidx & _).
  apply list_eq. intros n. rewrite !list_lookup_fmap.
  destruct (F !! n) as [k|] eqn:Hk; cbn.
  - rewrite (Hidx _ _ Hk). cbn.
    rewrite lookup_seq_lt by (by eapply lookup_lt_Some). done.
  - rewrite lookup_seq_ge by (by apply lookup_ge_None). done.
Qed.

Lemma known_keys_indices r :
  (fun k => default 0 (index_of r k)) <$> known_keys r
  = (if st_textBlockStarted (state r)
     then [st_textBlockIndex (state r)] else [])
    ++ ((fun entry => tb_index (snd entry))
          <$> map_to_list (st_toolBlocks (state r))).
Proof.
  unfold known_keys. rewrite fmap_app. f_equal.
  - cbn. by destruct (st_textBlockStarted (state r)) eqn:Hs; cbn; rewrite ?Hs.
  - rewrite <- !list_fmap_compose. apply list_fmap_ext.
    intros i [p b] Hpb. cbn.
    apply list_elem_of_lookup_2, elem_of_map_to_list in Hpb.
    by rewrite Hpb.
Qed.

(** X6: when the stream is closed (and fewer than 2^63 blocks were
    opened), the [content_block_stop] events stop exactly the blocks that
    were started: their indices are the indices of the
    [content_block_start] events, each once, in some order. *)
Theorem stream_stops_every_started_block (clock : Clock) (order : MapRange)
    (fallbackModel : string) (reads : list sse_read)
    (Hclosed : snd (streamOpenAIToAnthropic clock order fallbackModel reads)
               = None)
    (Hblocks : (Z.of_nat (length (first_seen (appearances reads))) < 2 ^ 63)%Z) :
  block_stops (fst (streamOpenAIToAnthropic clock order fallbackModel reads))
    ≡ₚ block_starts
         (fst (streamOpenAIToAnthropic clock order fallbackModel reads))
  /\ NoDup
       (block_stops
          (fst (streamOpenAIToAnthropic clock order fallbackModel reads))).
Proof.
  pose proof (read_loop_indexed clock fallbackModel reads [] initial
                initial_indexed Hblocks) as HI.
  fold (first_seen (appearances reads)) in HI.
  destruct (read_loop_shape clock fallbackModel reads initial eq_refl eq_refl)
    as (body & Hw & Hb).
  unfold streamOpenAIToAnthropic in *.
  destruct (read_loop clock fallbackModel reads initial) as [r [err|]];
    [done|]. cbn [fst snd] in *.
  set (F := first_seen (appearances reads)) in *.
  assert (Hstops :
    block_stops (written (close_stream order r))
    ≡ₚ Z.of_nat <$> seq 0 (length F)).
  { rewrite close_stream_written, !block_stops_app.
    assert (block_stops (written r) = []) as ->.
    { rewrite Hw. cbn [initial written app]. rewrite block_stops_app.
      rewrite (body_events_no_stop body Hb), app_nil_r.
      unfold stream_head. by destruct (consumed reads). }
    rewrite block_close_stops.
    2:{ apply Forall_forall. intros [p b] Hpb. cbn.
        rewrite (range_order_perm order) in Hpb.
        apply elem_of_map_to_list in Hpb.
        destruct HI as (_ & _ & _ & _ & _ & Hopen). by eapply Hopen. }
    rewrite (range_order_perm order).
    rewrite <- (indexed_indices F r HI), <- (known_keys_indexed F r HI).
    rewrite known_keys_indices.
    destruct (st_textBlockStarted (state r)), (lastFinishReason r); cbn;
      by rewrite ?app_nil_r. }
  assert (Hstarts : block_starts (written (close_stream order r))
                    = Z.of_nat <$> seq 0 (length F)).
  { rewrite close_stream_no_start. by destruct HI as (_ & _ & Hst & _). }
  split.
  - by rewrite Hstarts.
  - rewrite Hstops. apply NoDup_fmap_2; [apply Nat2Z.inj' | apply NoDup_seq].
Qed.

Lemma stream_stops_every_started_block_witness :
  block_stops
    (fst (streamOpenAIToAnthropic (clock_from 1000) range_in_key_order "fb"
            interleaved_reads))
  ≡ₚ [0; 1; 2].
Proof.
  refine (proj1 (stream_stops_every_started_block (clock_from 1000)
                   range_in_key_order "fb" interleaved_reads _ _)).
  - vm_compute. reflexivity.
  - vm_compute. reflexivity.
Defined.

(** ** The end of the message *)

Lemma or_earlier_assoc {A} (a b c : option A) :
  or_earlier a (or_earlier b c) = or_earlier (or_earlier a b) c.
Proof. by destruct a. Qed.

Lemma last_app_or {A} (l1 l2 : list A) :
  last (l1 ++ l2) = or_earlier (last l2) (last l1).
Proof. rewrite last_app. by destruct (last l2). Qed.

Lemma nonempty_app {A} (l1 l2 : list A) :
  bool_decide (l1 ++ l2 <> [])
  = bool_decide (l1 <> []) || bool_decide (l2 <> []).
Proof.
  destruct l1 as [|x l1]; [done|].
  cbn [app]. rewrite (bool_decide_true (x :: l1 ++ l2 <> [])) by done.
  by rewrite (bool_decide_true (x :: l1 <> [])).
Qed.

Lemma ending_refl r : ending [] false [] r r.
Proof. unfold ending; cbn. by rewrite orb_false_r. Qed.

Lemma ending_trans fs1 fs2 c1 c2 us1 us2 r0 r1 r2 :
  ending fs1 c1 us1 r0 r1 -> ending fs2 c2 us2 r1 r2 ->
  ending (fs1 ++ fs2) (c1 || c2) (us1 ++ us2) r0 r2.
Proof.
  intros (Hf1 & Hc1 & Hu1) (Hf2 & Hc2 & Hu2). split_and!.
  - by rewrite Hf2, Hf1, last_app_or, or_earlier_assoc.
  - by rewrite Hc2, Hc1, orb_assoc.
  - rewrite Hu2, last_app. destruct (last us2); [done|]. by rewrite Hu1.
Qed.

Section Ending.

Variable clock : Clock.
Variable fallbackModel : string.

Lemma on_tool_call_ending r call :
  ending [] true [] r (on_tool_call clock r call).
Proof.
  unfold ending, on_tool_call; cbn [state st_toolBlocks tick last or_earlier].
  rewrite orb_true_r.
  destruct (st_toolBlocks (state r) !! stc_Index call) as [block|];
    try destruct (tb_started block);
    try destruct (if decide (stc_ID call = "") then _ else _) as [id tick'];
    done.
Qed.

Lemma on_tool_calls_ending calls r :
  ending [] (bool_decide (calls <> [])) [] r
    (List.fold_left (on_tool_call clock) calls r).
Proof.
  revert r. induction calls as [|call calls IH]; intros r.
  - apply ending_refl.
  - cbn [List.fold_left].
    pose proof (ending_trans _ _ _ _ _ _ _ _ _
                  (on_tool_call_ending r call)
                  (IH (on_tool_call clock r call))) as H.
    by rewrite bool_decide_true.
Qed.

Lemma on_choice_ending r choice :
  ending (omap sc_FinishReason [choice])
    (bool_decide (sd_ToolCalls (sc_Delta choice) <> [])) []
    r (on_choice clock r choice).
Proof.
  unfold on_choice.
  set (r1 := match sc_FinishReason choice with Some _ => _ | None => r end).
  set (r2 := if decide (sd_Content (sc_Delta choice) = "") then r1 else _).
  assert (H1 : ending (omap sc_FinishReason [choice]) false [] r r1).
  { subst r1. unfold ending.
    cbn. destruct (sc_FinishReason choice); cbn; by rewrite orb_false_r. }
  assert (H2 : ending [] false [] r1 r2).
  { subst r2. unfold ending; cbn [last or_earlier]. rewrite orb_false_r.
    destruct (decide (sd_Content (sc_Delta choice) = "")); [done|].
    by destruct (st_textBlockStarted (state r1)). }
  pose proof (ending_trans _ _ _ _ _ _ _ _ _
                (ending_trans _ _ _ _ _ _ _ _ _ H1 H2)
                (on_tool_calls_ending (sd_ToolCalls (sc_Delta choice)) r2))
    as H.
  by rewrite !app_nil_r in H.
Qed.

Lemma on_choices_ending choices r :
  ending (omap sc_FinishReason choices)
    (bool_decide
       (concat ((fun choice => sd_ToolCalls (sc_Delta choice)) <$> choices)
        <> [])) []
    r (List.fold_left (on_choice clock) choices r).
Proof.
  revert r. induction choices as [|choice choices IH]; intros r.
  - apply ending_refl.
  - cbn [List.fold_left].
    pose proof (ending_trans _ _ _ _ _ _ _ _ _
                  (on_choice_ending r choice)
                  (IH (on_choice clock r choice))) as H.
    rewrite <- omap_app, <- nonempty_app in H. exact H.
Qed.

Lemma on_chunk_ending r chunk :
  ending (omap sc_FinishReason (sr_Choices chunk))
    (bool_decide (chunk_calls chunk <> [])) (omap sr_Usage [chunk])
    r (on_chunk clock fallbackModel r chunk).
Proof.
  unfold on_chunk.
  set (r1 := if st_started (state r) then r else _).
  set (r2 := match sr_Usage chunk with Some _ => _ | None => r1 end).
  assert (H1 : ending [] false [] r r1).
  { subst r1. unfold ending; cbn [last or_earlier]. rewrite orb_false_r.
    destruct (st_started (state r)); [done|].
    by destruct (if decide (sr_ID chunk = "") then _ else _). }
  assert (H2 : ending [] false (omap sr_Usage [chunk]) r1 r2).
  { subst r2. unfold ending.
    cbn. destruct (sr_Usage chunk); cbn; by rewrite orb_false_r. }
  pose proof (ending_trans _ _ _ _ _ _ _ _ _
                (ending_trans _ _ _ _ _ _ _ _ _ H1 H2)
                (on_choices_ending (sr_Choices chunk) r2)) as H.
  by rewrite !app_nil_r in H.
Qed.

Lemma read_loop_ending reads r :
  ending (finish_reasons (consumed reads)) (saw_tool_call (consumed reads))
    (usages (consumed reads)) r
    (fst (read_loop clock fallbackModel reads r)).
Proof.
  unfold finish_reasons, saw_tool_call, usages.
  revert r. induction reads as [|read reads IH]; intros r.
  - apply ending_refl.
  - destruct read as [err | data eof]; [apply ending_refl|].
    destruct data as [ | | | chunk]; cbn [read_loop consumed].
    + destruct eof; [apply ending_refl | apply IH].
    + apply ending_refl.
    + apply IH.
    + assert (Hrest : ending
                (finish_reasons (if eof then [] else consumed reads))
                (saw_tool_call (if eof then [] else consumed reads))
                (usages (if eof then [] else consumed reads))
                (on_chunk clock fallbackModel r chunk)
                (fst (if eof then (on_chunk clock fallbackModel r chunk, None)
                      else read_loop clock fallbackModel reads
                             (on_chunk clock fallbackModel r chunk)))).
      { destruct eof; [apply ending_refl | apply IH]. }
      pose proof (ending_trans _ _ _ _ _ _ _ _ _
                    (on_chunk_ending r chunk) Hrest) as H.
      unfold finish_reasons, saw_tool_call, usages in H.
      cbn [fmap list_fmap concat]. rewrite omap_app, nonempty_app.
      rewrite <- (omap_app sr_Usage [chunk]) in H. exact H.
Qed.

End Ending.

Lemma block_close_events_no_message_delta entries :
  omap message_delta_of (concat (block_close_events <$> entries)) = [].
Proof.
  induction entries as [|[key block] entries IH]; [done|].
  cbn [fmap list_fmap concat]. rewrite omap_app, IH, app_nil_r.
  unfold block_close_events; cbn [snd].
  destruct (tb_started block), (tb_finished block); cbn;
    try case_decide; done.
Qed.

Lemma body_events_no_message_delta events :
  Forall (fun e => is_body_event e = true) events ->
  omap message_delta_of events = [].
Proof.
  induction 1 as [|e events He _ IH]; [done|].
  destruct e; try discriminate He; done.
Qed.

(** X7: when the stream is closed, a [message_delta] is written exactly
    when some decoded choice carried a finish reason; there is then one,
    its stop reason is computed from the last finish reason and from
    whether any tool-call fragment was decoded, and its usage is the last
    usage payload received (output tokens 0 when there was none, input
    tokens only when positive). *)
Theorem stream_message_delta (clock : Clock) (order : MapRange)
    (fallbackModel : string) (reads : list sse_read)
    (Hclosed : snd (streamOpenAIToAnthropic clock order fallbackModel reads)
               = None) :
  omap message_delta_of
    (fst (streamOpenAIToAnthropic clock order fallbackModel reads))
  = match last (finish_reasons (consumed reads)) with
    | Some finish =>
        [ (mapStopReason finish (saw_tool_call (consumed reads)),
           fst (reported_usage (last (usages (consumed reads)))),
           snd (reported_usage (last (usages (consumed reads))))) ]
    | None => []
    end.
Proof.
  pose proof (read_loop_ending clock fallbackModel reads initial)
    as (Hf & Hc & Hu).
  destruct (read_loop_shape clock fallbackModel reads initial eq_refl eq_refl)
    as (body & Hw & Hb).
  unfold streamOpenAIToAnthropic in *.
  destruct (read_loop clock fallbackModel reads initial) as [r [err|]];
    [done|]. cbn [fst snd] in *.
  rewrite close_stream_written, !omap_app.
  rewrite block_close_events_no_message_delta.
  assert (omap message_delta_of (written r) = []) as ->.
  { rewrite Hw. cbn [initial written app]. rewrite omap_app.
    rewrite (body_events_no_message_delta body Hb), app_nil_r.
    unfold stream_head. by destruct (consumed reads). }
  rewrite Hf, Hc. cbn [initial lastFinishReason hasToolCalls orb].
  replace (or_earlier (last (finish_reasons (consumed reads))) None)
    with (last (finish_reasons (consumed reads)))
    by (by destruct (last (finish_reasons (consumed reads)))).
  destruct (last (usages (consumed reads))) as [u|]; cbn in Hu;
    injection Hu as Hp Hm; rewrite Hp, Hm;
    destruct (st_textBlockStarted (state r)),
      (last (finish_reasons (consumed reads))); done.
Qed.

Lemma stream_message_delta_witness :
  omap message_delta_of
    (fst (streamOpenAIToAnthropic (clock_from 1000) range_in_key_order "fb"
            interleaved_reads))
  = [ ("tool_use", 0, None) ].
Proof.
  apply (stream_message_delta (clock_from 1000) range_in_key_order "fb"
           interleaved_reads).
  vm_compute. reflexivity.
Defined.

(** ** Blank strings *)

Lemma hasBytePrefix_high p l :
  Forall (fun n => (128 <= n)%N) p ->
  hasBytePrefix p l = true ->
  Forall (fun c => (128 <= N_of_ascii c)%N) (take (length p) l).
Proof.
  intros Hp. revert l. induction Hp as [|n p Hn _ IH]; intros l Hl.
  - constructor.
  - destruct l as [|c l]; [discriminate Hl|].
    cbn in Hl. apply andb_prop in Hl as [Hc Hl].
    apply N.eqb_eq in Hc. cbn. constructor; [lia | by apply IH].
Qed.

Lemma spaceWidth_high tbl l k :
  Forall (Forall (fun n => (128 <= n)%N)) tbl ->
  spaceWidth tbl l = S k ->
  exists c r, l = c :: r /\ is_solid c = false
              /\ Forall (fun c => (128 <= N_of_ascii c)%N) (take k r).
Proof.
  intros Htbl Hw. destruct l as [|c r]; [discriminate Hw|].
  exists c, r. split; [done|]. unfold spaceWidth in Hw.
  destruct (isSpaceByte c) eqn:Hsp.
  - injection Hw as <-. split; [|constructor].
    unfold is_solid. by rewrite Hsp, andb_false_r.
  - destruct (List.find _ tbl) as [p|] eqn:Hfind; [|discriminate Hw].
    apply find_some in Hfind as [Hin Hpre].
    assert (Hp : Forall (fun n => (128 <= n)%N) p).
    { rewrite Forall_forall in Htbl. apply Htbl. by apply list_elem_of_In. }
    pose proof (hasBytePrefix_high p (c :: r) Hp Hpre) as Hhigh.
    rewrite Hw in Hhigh. cbn in Hhigh.
    apply Forall_cons in Hhigh as [Hc Hr]. split; [|done].
    unfold is_solid. apply andb_false_iff. left. apply N.ltb_ge. lia.
Qed.

(** A solid byte survives the dropping of white space. *)
Lemma dropSpaces_keeps tbl c l skip :
  Forall (Forall (fun n => (128 <= n)%N)) tbl ->
  is_solid c = true -> c ∈ l ->
  Forall (fun c => (128 <= N_of_ascii c)%N) (take skip l) ->
  c ∈ dropSpaces tbl skip l.
Proof.
  intros Htbl Hc. revert skip.
  assert (Hlow : ~ (128 <= N_of_ascii c)%N).
  { unfold is_solid in Hc. apply andb_prop in Hc as [Hc _].
    apply N.ltb_lt in Hc. lia. }
  induction l as [|b l IH]; intros skip Hin Hskip; [done|].
  cbn [dropSpaces]. destruct skip as [|k].
  - destruct (spaceWidth tbl (b :: l)) as [|k] eqn:Hw; [done|].
    destruct (spaceWidth_high tbl _ _ Htbl Hw) as (b' & l' & [= <- <-] & Hb & Hk).
    apply IH; [|done].
    apply elem_of_cons in Hin as [->|Hin]; [congruence | done].
  - cbn in Hskip. apply Forall_cons in Hskip as [Hb Hk].
    apply IH; [|done].
    apply elem_of_cons in Hin as [->|Hin]; [done | done].
Qed.

Lemma wideSpaces_high :
  Forall (Forall (fun n => (128 <= n)%N)) wideSpaces
  /\ Forall (Forall (fun n => (128 <= n)%N)) (List.map (@List.rev N) wideSpaces).
Proof. split; repeat constructor; lia. Qed.

(** A string that holds a solid byte is not blank. *)
Lemma solid_not_blank (s : string) (c : ascii) :
  is_solid c = true -> c ∈ list_ascii_of_string s -> blank s = false.
Proof.
  intros Hc Hin. unfold blank. apply bool_decide_eq_false.
  unfold TrimSpace. destruct wideSpaces_high as [Hl Hr].
  pose proof (dropSpaces_keeps wideSpaces c _ 0 Hl Hc Hin (Forall_nil_2 _)) as H1.
  set (l := dropSpaces wideSpaces 0 (list_ascii_of_string s)) in *.
  assert (H1' : c ∈ List.rev l).
  { apply list_elem_of_In. apply -> in_rev. by apply list_elem_of_In. }
  pose proof (dropSpaces_keeps _ c _ 0 Hr Hc H1' (Forall_nil_2 _)) as H2.
  set (r := dropSpaces _ 0 (List.rev l)) in *.
  intros Hempty.
  assert (Hr0 : List.rev r = []).
  { destruct (List.rev r); [done | discriminate Hempty]. }
  assert (r = []) as Hr1.
  { rewrite <- (rev_involutive r), Hr0. done. }
  rewrite Hr1 in H2. by apply elem_of_nil in H2.
Qed.

Lemma generated_id_not_blank clock tick :
  blank (fst (GenerateToolCallID clock tick)) = false.
Proof.
  apply (solid_not_blank _ "c"%char); [done|].
  unfold GenerateToolCallID; cbn [fst].
  change ("call_" +:+ FormatInt (clock tick))
    with (String "c" ("all_" +:+ FormatInt (clock tick))).
  cbn [list_ascii_of_string]. left.
Qed.

(** ** The converter *)

Section ConverterFacts.

Variable codec : JSONCodec.
Variable clock : Clock.

Lemma ConvertAnthropicMessage_nonempty (msg : AnthropicMessage) (tick : nat) :
  fst (ConvertAnthropicMessage codec clock msg tick) <> [].
Proof.
  unfold ConvertAnthropicMessage.
  destruct (ParseAnthropicContent codec clock (am_Content msg) tick) as [p t].
  cbn [fst]. case_bool_decide; [done|].
  case_bool_decide; [done|]. by destruct (toolResults p).
Qed.

(** X8: a converted message is never empty: it is the tool results of the
    content, unchanged and last, after at most one message with the role of
    the original. *)
Theorem ConvertAnthropicMessage_never_empty (msg : AnthropicMessage) (tick : nat) :
  let p := fst (ParseAnthropicContent codec clock (am_Content msg) tick) in
  let out := fst (ConvertAnthropicMessage codec clock msg tick) in
  out <> [] /\
  exists main, out = main ++ toolResults p /\ (length main <= 1)%nat
    /\ Forall (fun m => get m "role" = JStr (am_Role msg)) main.
Proof.
  cbn zeta. unfold ConvertAnthropicMessage.
  destruct (ParseAnthropicContent codec clock (am_Content msg) tick) as [p t].
  cbn [fst]. case_bool_decide as Hmain.
  - split; [done|]. eexists; split; [done|]. split; [cbn; lia|].
    constructor; [|done]. case_bool_decide; by simplify_map_eq.
  - case_bool_decide as Hres.
    + split; [done|]. eexists; split; [done|]. split; [cbn; lia|].
      constructor; [|done]. by simplify_map_eq.
    + split; [by destruct (toolResults p)|].
      exists []. split; [done|]. split; [cbn; lia | done].
Qed.

Lemma fold_left_skip {A B} (f : A -> B -> A) (keep : B -> bool) l a :
  (forall a b, keep b = false -> f a b = a) ->
  Forall (fun b => keep b = false) l -> List.fold_left f l a = a.
Proof.
  intros Hf Hl. revert a. induction Hl as [|b l Hb _ IH]; intros a; [done|].
  cbn. rewrite Hf by done. apply IH.
Qed.

(** X9: content that holds nothing the converter reads (null, a blank
    string, a list without objects: the empty one, or one of bare strings)
    gives one message with the role and an empty content. *)
Theorem ConvertAnthropicMessage_nothing_read (role : string) (content : json)
    (tick : nat) :
  content = JNull
  \/ (exists s, content = JStr s /\ blank s = true)
  \/ (exists items, content = JArr items
                    /\ Forall (fun item => is_object item = false) items) ->
  ConvertAnthropicMessage codec clock
    {| am_Role := role; am_Content := content |} tick
  = ([ {[ "role" := JStr role; "content" := JStr "" ]} ], tick).
Proof.
  intros [->|[(s & -> & Hs)|(items & -> & Hitems)]];
    unfold ConvertAnthropicMessage; cbn [am_Content am_Role].
  - done.
  - cbn [ParseAnthropicContent]. unfold add_text. rewrite Hs. done.
  - cbn [ParseAnthropicContent].
    rewrite (fold_left_skip _ is_object); [done | | done].
    intros a [] Hb; done.
Qed.


Lemma convert_fold_length (messages : list AnthropicMessage)
    (acc : list (gmap string json) * nat) :
  exists rest,
    fst (List.fold_left
      (fun acc msg =>
         let '(converted, tick) :=
           ConvertAnthropicMessage codec clock msg (snd acc) in
         (fst acc ++ converted, tick)) messages acc) = fst acc ++ rest
    /\ (length messages <= length rest)%nat.
Proof.
  revert acc. induction messages as [|msg messages IH]; intros acc.
  - exists []. by rewrite app_nil_r.
  - cbn [List.fold_left].
    pose proof (ConvertAnthropicMessage_nonempty msg (snd acc)) as Hne.
    destruct (ConvertAnthropicMessage codec clock msg (snd acc))
      as [converted t] eqn:Hconv.
    destruct (IH (fst acc ++ converted, t)) as (rest & -> & Hlen).
    cbn [fst] in *. exists (converted ++ rest). rewrite app_assoc.
    split; [done|]. rewrite length_app.
    destruct converted; [done | cbn; lia].
Qed.

(** X10: the flat message list starts with the system message exactly when
    the system text is not blank, and no message of the request is dropped:
    what follows is at least as long as the request's list. *)
Theorem ConvertAnthropicToOpenAIMessages_shape (system : json)
    (messages : list AnthropicMessage) (tick : nat) :
  let sysText := FlattenAnthropicText system in
  exists rest,
    fst (ConvertAnthropicToOpenAIMessages codec clock system messages tick)
    = (if blank sysText then []
       else [ {[ "role" := JStr "system"; "content" := JStr sysText ]} ])
      ++ rest
    /\ (length messages <= length rest)%nat.
Proof.
  cbn zeta. unfold ConvertAnthropicToOpenAIMessages.
  apply (convert_fold_length messages (_, tick)).
Qed.

Lemma ConvertAnthropicTools_fold tools acc :
  let step := fun (openAITools : list (gmap string json)) tool =>
       let name := TrimSpace (atd_Name tool) in
       if decide (name = "") then openAITools
       else
         let function : gmap string json := {[ "name" := JStr name ]} in
         let function :=
           if blank (atd_Description tool) then function
           else <[ "description" := JStr (atd_Description tool) ]> function in
         let function :=
           if is_nil (atd_InputSchema tool) then function
           else <[ "parameters" := atd_InputSchema tool ]> function in
         openAITools ++
           [ {[ "type" := JStr "function"; "function" := JObj function ]} ] in
  exists new,
    List.fold_left step tools acc = acc ++ new
    /\ flat_tool_name <$> new
       = filter (fun n => n <> "") ((fun t => TrimSpace (atd_Name t)) <$> tools)
    /\ Forall (fun m => get m "type" = JStr "function") new.
Proof.
  cbn zeta. revert acc. induction tools as [|tool tools IH]; intros acc.
  - exists []. by rewrite app_nil_r.
  - cbn [List.fold_left fmap list_fmap]. rewrite filter_cons.
    destruct (decide (TrimSpace (atd_Name tool) = "")) as [Hname|Hname].
    + rewrite decide_False by (by intros H; apply H). apply IH.
    + rewrite decide_True by done.
      edestruct IH as (new & -> & Hnames & Htypes).
      eexists (_ :: new). rewrite <- app_assoc. split; [done|].
      split; [|constructor; [by simplify_map_eq | done]].
      cbn [fmap list_fmap]. f_equal; [|done].
      unfold flat_tool_name, get.
      destruct (blank _), (is_nil _); by simplify_map_eq.
Qed.

(** X11: the flat tools are the request's tools with a non-blank name, in
    their order, each under its trimmed name and with the type
    [function]. *)
Theorem ConvertAnthropicTools_names (tools : list AnthropicToolDefinition) :
  flat_tool_name <$> ConvertAnthropicTools tools
  = filter (fun n => n <> "") ((fun t => TrimSpace (atd_Name t)) <$> tools)
  /\ Forall (fun m => get m "type" = JStr "function")
       (ConvertAnthropicTools tools).
Proof.
  destruct (ConvertAnthropicTools_fold tools []) as (new & Hfold & Hn & Ht).
  replace (ConvertAnthropicTools tools) with new by (symmetry; exact Hfold).
  done.
Qed.

(** X12: converting a tool choice twice is converting it once, and the
    result is nil only for a nil choice. *)
Theorem ConvertAnthropicToolChoice_idempotent (choice : json) :
  ConvertAnthropicToolChoice (ConvertAnthropicToolChoice choice)
  = ConvertAnthropicToolChoice choice
  /\ is_nil (ConvertAnthropicToolChoice choice) = is_nil choice.
Proof.
  destruct choice as [| | | | |v| |v]; try done.
  - cbn. repeat case_decide; subst; cbn; repeat case_decide; done.
  - cbn. destruct (decide (as_string (get v "type") = "tool")) as [Htool|Htool].
    + destruct (is_string (get v "name")) as [name|] eqn:Hname.
      * destruct (blank name) eqn:Hblank.
        -- cbn. rewrite decide_True, Hname, Hblank by done. done.
        -- cbn. rewrite decide_False; [done|]. by simplify_map_eq.
      * cbn. rewrite decide_True, Hname by done. done.
    + cbn. rewrite decide_False by done. done.
Qed.

End ConverterFacts.

Lemma ConvertAnthropicMessage_nothing_read_witness :
  ConvertAnthropicMessage (witness_codec empty_response) (clock_from 0)
    {| am_Role := "user"; am_Content := JArr [JStr "hello"] |} 0
  = ([ {[ "role" := JStr "user"; "content" := JStr "" ]} ], 0%nat).
Proof.
  apply (ConvertAnthropicMessage_nothing_read (witness_codec empty_response)
           (clock_from 0) "user" (JArr [JStr "hello"]) 0).
  right. right. exists [JStr "hello"]. split; [reflexivity|].
  repeat constructor.
Defined.

Section ContentFacts.

Variable codec : JSONCodec.
Variable clock : Clock.

Lemma generated_id_nonempty tick : fst (GenerateToolCallID clock tick) <> "".
Proof. unfold GenerateToolCallID. cbn [fst]. discriminate. Qed.

Lemma tool_calls_fold_shape (calls : list OpenAIToolCall)
    (acc : list AnthropicContentBlock * nat) :
  exists tools,
    fst (List.fold_left
      (fun acc call =>
         let '(blocks, tick) := acc in
         let name := TrimSpace (fc_Name (tc_Function call)) in
         if bool_decide (name = "")
            && blank (fc_Arguments (tc_Function call))
         then acc
         else
           let id := TrimSpace (tc_ID call) in
           let '(id, tick) :=
             if decide (id = "") then GenerateToolCallID clock tick
             else (id, tick) in
           (blocks ++
              [ {| acb_Type := "tool_use"; acb_Text := "";
                   acb_ID := id; acb_Name := name;
                   acb_Input :=
                     ParseToolCallArgs codec (fc_Arguments (tc_Function call))
                |} ], tick)) calls acc) = fst acc ++ tools
    /\ (length tools <= length calls)%nat
    /\ Forall (fun b => acb_Type b = "tool_use" /\ acb_ID b <> "") tools.
Proof.
  revert acc. induction calls as [|call calls IH]; intros [blocks tick].
  - exists []. cbn. by rewrite app_nil_r.
  - cbn [List.fold_left].
    destruct (bool_decide _ && blank _).
    + destruct (IH (blocks, tick)) as (tools & Heq & Hlen & Hall).
      exists tools. split; [done|]. split; [cbn; lia | done].
    + destruct (decide (TrimSpace (tc_ID call) = "")) as [Hid|Hid].
      * pose proof (generated_id_nonempty tick) as Hgen.
        destruct (GenerateToolCallID clock tick) as [id t].
        edestruct IH as (tools & -> & Hlen & Hall). cbn [fst].
        eexists (_ :: tools). rewrite <- app_assoc. split; [done|].
        split; [cbn; lia|]. constructor; [done | done].
      * edestruct IH as (tools & -> & Hlen & Hall). cbn [fst].
        eexists (_ :: tools). rewrite <- app_assoc. split; [done|].
        split; [cbn; lia|]. constructor; [done | done].
Qed.

Lemma blocks_shape (text tools : list AnthropicContentBlock) (n : nat) :
  (length text <= 1)%nat ->
  Forall (fun b => acb_Type b = "text") text ->
  Forall (fun b => acb_Type b = "tool_use" /\ acb_ID b <> "") tools ->
  (length tools <= n)%nat ->
  let out :=
    match text ++ tools with
    | [] => [ {| acb_Type := "text"; acb_Text := ""; acb_ID := "";
                 acb_Name := ""; acb_Input := JNull |} ]
    | _ => text ++ tools
    end in
  out <> [] /\
  exists text' tools', out = text' ++ tools'
    /\ (length text' <= 1)%nat
    /\ Forall (fun b => acb_Type b = "text") text'
    /\ Forall (fun b => acb_Type b = "tool_use" /\ acb_ID b <> "") tools'
    /\ (length tools' <= n)%nat.
Proof.
  intros Hlen Htext Htools Hn. cbn zeta.
  destruct (text ++ tools) as [|b blocks] eqn:Hblocks.
  - split; [done|]. eexists [_], []. split; [done|].
    split; [cbn; lia|]. split; [by repeat constructor|].
    split; [done | cbn; lia].
  - rewrite <- Hblocks. split; [by rewrite Hblocks|]. by exists text, tools.
Qed.

(** X13: the content blocks of a response are never empty: at most one text
    block, first, then the [tool_use] blocks, each with a non-empty id; no
    more of these than the message has tool calls, plus one for a legacy
    function call. *)
Theorem BuildAnthropicContentBlocks_shape (message : option OpenAIMessage)
    (tick : nat) :
  let blocks := fst (BuildAnthropicContentBlocks codec clock message tick) in
  blocks <> [] /\
  exists text tools, blocks = text ++ tools
    /\ (length text <= 1)%nat
    /\ Forall (fun b => acb_Type b = "text") text
    /\ Forall (fun b => acb_Type b = "tool_use" /\ acb_ID b <> "") tools
    /\ (length tools
        <= length (from_option om_ToolCalls [] message)
           + match from_option om_FunctionCall None message with
             | Some _ => 1
             | None => 0
             end)%nat.
Proof.
  cbn zeta. destruct message as [message|]; cbn [BuildAnthropicContentBlocks].
  - set (text := if blank _ then [] else [_]).
    assert (Htext : (length text <= 1)%nat
                    /\ Forall (fun b => acb_Type b = "text") text).
    { subst text. destruct (blank _); split; cbn; try lia; by repeat constructor. }
    destruct Htext as [Hlen Htext].
    destruct (tool_calls_fold_shape (om_ToolCalls message) (text, tick))
      as (tools & Hfold & Htools & Hall).
    destruct (List.fold_left _ _ _) as [blocks t]. cbn [fst] in Hfold. subst blocks.
    cbn [from_option].
    destruct (om_FunctionCall message) as [fc|].
    + cbn zeta. destruct (bool_decide _ || negb _).
      * pose proof (generated_id_nonempty t) as Hgen.
        destruct (GenerateToolCallID clock t) as [id t']. cbn [fst] in *.
        rewrite <- app_assoc. apply blocks_shape; try done.
        -- apply Forall_app. split; [done|]. by repeat constructor.
        -- rewrite length_app. cbn. lia.
      * cbn [fst]. apply blocks_shape; try done. lia.
    + cbn [fst]. apply blocks_shape; try done. lia.
  - split; [done|]. eexists [_], []. split; [done|].
    split; [cbn; lia|]. split; [by repeat constructor|].
    split; [done | cbn; lia].
Qed.

(** X14: a [tool_use] block of a request, converted to a flat tool call,
    and that call, as an upstream would echo it in a response, converted
    back, is the block again: when the id and the name carry no outer white
    space, the id is not empty, and the input survives encoding and
    decoding. *)
Theorem tool_use_round_trip (id name : string) (input : json) (args : string)
    (tick tick' : nat) :
  TrimSpace id = id -> id <> "" -> TrimSpace name = name ->
  is_nil input = false ->
  Marshal codec input = Some args ->
  Unmarshal codec args = Some input ->
  blank args = false ->
  exists call,
    ParseAnthropicContent codec clock
      (JArr [JObj (tool_use_request_block id name input)]) tick
    = ({| textParts := []; toolCalls := [call]; toolResults := [] |}, tick)
    /\ BuildAnthropicContentBlocks codec clock
         (Some (calls_message [tool_call_of_flat call])) tick'
       = ([tool_use_block id name input], tick').
Proof.
  intros Hid Hne Hname Hnil Hm Hu Hargs.
  eexists. split.
  - cbn [ParseAnthropicContent List.fold_left fst snd].
    unfold parseAnthropicBlock, tool_use_request_block, get.
    simplify_map_eq. cbn [as_string].
    assert (blank id = false) as ->.
    { unfold blank. apply bool_decide_eq_false. by rewrite Hid. }
    rewrite Hnil. reflexivity.
  - unfold BuildAnthropicContentBlocks, calls_message, tool_call_of_flat, get.
    cbn [om_Content om_ToolCalls om_FunctionCall OpenAIContentToString].
    simplify_map_eq.
    rewrite Hargs, andb_false_r, Hid, Hname.
    rewrite decide_False by done.
    unfold ParseToolCallArgs. rewrite Hargs, Hu. done.
Qed.


Lemma add_text_parts text p :
  Forall (fun s => blank s = false) (textParts p) ->
  Forall (fun s => blank s = false) (textParts (add_text text p)).
Proof.
  intros Hp. unfold add_text. destruct (blank text) eqn:Hb; [done|].
  cbn. apply Forall_app. split; [done | by repeat constructor].
Qed.

Lemma add_text_calls text p : toolCalls (add_text text p) = toolCalls p.
Proof. unfold add_text. by destruct (blank text). Qed.

Lemma add_text_results text p : toolResults (add_text text p) = toolResults p.
Proof. unfold add_text. by destruct (blank text). Qed.

Lemma add_text_well_parsed text p :
  well_parsed p -> well_parsed (add_text text p).
Proof.
  intros (Ht & Hc & Hr). split; [by apply add_text_parts|].
  by rewrite add_text_calls, add_text_results.
Qed.

Lemma parseAnthropicBlock_well_parsed block p tick :
  well_parsed p ->
  well_parsed (fst (parseAnthropicBlock codec clock block p tick)).
Proof.
  intros Hp. unfold parseAnthropicBlock. cbn zeta.
  destruct (decide (as_string (get block "type") = "text"));
    [by apply add_text_well_parsed|].
  destruct (decide (as_string (get block "type") = "tool_use")).
  - destruct Hp as (Ht & Hc & Hr).
    destruct (blank (as_string (get block "id"))) eqn:Hid.
    + pose proof (generated_id_not_blank clock tick) as Hgen.
      destruct (GenerateToolCallID clock tick) as [id t]. cbn [fst] in *.
      split; [done|]. split; [|done]. cbn [toolCalls].
      apply Forall_app. split; [done|]. constructor; [|done].
      unfold get. simplify_map_eq. split; [done|]. by eexists.
    + cbn [fst]. split; [done|]. split; [|done]. cbn [toolCalls].
      apply Forall_app. split; [done|]. constructor; [|done].
      unfold get at 1 3. simplify_map_eq. split; [done|]. by eexists.
  - destruct (decide (as_string (get block "type") = "tool_result")).
    + destruct Hp as (Ht & Hc & Hr). cbn [fst].
      split; [done|]. split; [done|]. cbn [toolResults].
      apply Forall_app. split; [done|]. constructor; [|done].
      unfold get at 1 2. simplify_map_eq. split; [done|]. by eexists.
    + by apply add_text_well_parsed.
Qed.

Lemma no_parts_well_parsed : well_parsed no_parts.
Proof. by split; [|split]. Qed.

(** X15: whatever the content, the parts read from it hold no blank text;
    each tool call has the type [function] and an id that is not blank (the
    block's own, or a generated one); each tool result has the role [tool]
    and a string as content. *)
Theorem ParseAnthropicContent_well_parsed (content : json) (tick : nat) :
  well_parsed (fst (ParseAnthropicContent codec clock content tick)).
Proof.
  destruct content as [| | | | |s|items|block]; cbn [ParseAnthropicContent fst];
    try (apply add_text_well_parsed, no_parts_well_parsed).
  - apply no_parts_well_parsed.
  - assert (H : forall acc, well_parsed (fst acc) ->
      well_parsed (fst (List.fold_left
        (fun acc item =>
           match item with
           | JObj block => parseAnthropicBlock codec clock block (fst acc) (snd acc)
           | _ => acc
           end) items acc))).
    { induction items as [|item items IH]; intros acc Hacc; [done|].
      cbn [List.fold_left]. apply IH.
      destruct item; try done. by apply parseAnthropicBlock_well_parsed. }
    apply H, no_parts_well_parsed.
  - apply parseAnthropicBlock_well_parsed, no_parts_well_parsed.
Qed.

End ContentFacts.

Lemma tool_use_round_trip_witness :
  exists call,
    ParseAnthropicContent (witness_codec empty_response) (clock_from 0)
      (JArr [JObj (tool_use_request_block "toolu_1" "lookup" (JObj ∅))]) 0
    = ({| textParts := []; toolCalls := [call]; toolResults := [] |}, 0%nat)
    /\ BuildAnthropicContentBlocks (witness_codec empty_response) (clock_from 0)
         (Some (calls_message [tool_call_of_flat call])) 0
       = ([tool_use_block "toolu_1" "lookup" (JObj ∅)], 0%nat).
Proof.
  apply (tool_use_round_trip (witness_codec empty_response) (clock_from 0)
           "toolu_1" "lookup" (JObj ∅) "{}" 0 0).
  - vm_compute. reflexivity.
  - discriminate.
  - vm_compute. reflexivity.
  - reflexivity.
  - vm_compute. reflexivity.
  - vm_compute. reflexivity.
  - vm_compute. reflexivity.
Defined.

(** ** Paths and upstream URLs *)

Lemma length_string_app (a b : string) :
  String.length (a +:+ b) = (String.length a + String.length b)%nat.
Proof.
  induction a as [|c a IH]; [reflexivity|].
  change (String c a +:+ b) with (String c (a +:+ b)). cbn. by rewrite IH.
Qed.

Lemma slice_to_app (a b : string) : slice_to (a +:+ b) (String.length a) = a.
Proof.
  induction a as [|c a IH]; [reflexivity|].
  change (String c a +:+ b) with (String c (a +:+ b)). cbn. by rewrite IH.
Qed.

Lemma slice_from_app (a b : string) :
  slice_from (a +:+ b) (String.length a) = b.
Proof.
  induction a as [|c a IH]; [reflexivity|].
  change (String c a +:+ b) with (String c (a +:+ b)). cbn. by rewrite IH.
Qed.

Lemma HasPrefix_app (a b : string) : HasPrefix (a +:+ b) a = true.
Proof.
  unfold HasPrefix. rewrite slice_to_app, length_string_app.
  rewrite bool_decide_true by done. rewrite andb_true_r.
  apply Nat.leb_le. lia.
Qed.

Lemma HasSuffix_app (a b : string) : HasSuffix (a +:+ b) b = true.
Proof.
  unfold HasSuffix. rewrite length_string_app.
  replace (String.length a + String.length b - String.length b)%nat
    with (String.length a) by lia.
  rewrite slice_from_app, bool_decide_true by done. rewrite andb_true_r.
  apply Nat.leb_le. lia.
Qed.

Lemma TrimPrefix_app (a b : string) : TrimPrefix (a +:+ b) a = b.
Proof. unfold TrimPrefix. by rewrite HasPrefix_app, slice_from_app. Qed.

(** X16: with an alias, [stripAliasPrefix] removes the leading [/alias] of a
    path below it and gives [/] for the path [/alias] itself; a path that
    only starts with the letters of the alias is left alone, and so is every
    path when the alias is empty. *)
Theorem stripAliasPrefix_strips (alias rest : string) (Halias : alias <> "") :
  stripAliasPrefix ("/" +:+ alias +:+ "/" +:+ rest) alias = "/" +:+ rest
  /\ stripAliasPrefix ("/" +:+ alias) alias = "/"
  /\ (forall path,
        HasPrefix path ("/" +:+ alias +:+ "/") = false ->
        path <> "/" +:+ alias ->
        stripAliasPrefix path alias = path)
  /\ (forall path, stripAliasPrefix path "" = path).
Proof.
  split; [|split; [|split]].
  - unfold stripAliasPrefix. rewrite decide_False by done. cbn zeta.
    assert (E : "/" +:+ alias +:+ "/" +:+ rest
                = (("/" +:+ alias) +:+ "/") +:+ rest)
      by (by rewrite !string_app_assoc).
    rewrite E at 1. rewrite HasPrefix_app.
    replace ("/" +:+ alias +:+ "/" +:+ rest)
      with (("/" +:+ alias) +:+ ("/" +:+ rest))
      by (by rewrite !string_app_assoc).
    apply slice_from_app.
  - unfold stripAliasPrefix. rewrite decide_False by done. cbn zeta.
    assert (HasPrefix ("/" +:+ alias) (("/" +:+ alias) +:+ "/") = false) as ->.
    { unfold HasPrefix. rewrite length_string_app. cbn [String.length].
      apply andb_false_iff. left. apply Nat.leb_gt. lia. }
    by rewrite decide_True.
  - intros path Hpre Hne. unfold stripAliasPrefix.
    rewrite decide_False by done. cbn zeta.
    replace (("/" +:+ alias) +:+ "/") with ("/" +:+ alias +:+ "/")
      by (by rewrite string_app_assoc).
    rewrite Hpre. by rewrite decide_False.
  - done.
Qed.

Lemma stripAliasPrefix_strips_witness :
  stripAliasPrefix "/openai/v1/models" "openai" = "/v1/models".
Proof.
  exact (proj1 (stripAliasPrefix_strips "openai" "v1/models"
                  ltac:(discriminate))).
Defined.

Lemma query_suffix (url rawQuery : string) :
  (if decide (rawQuery <> "") then url +:+ "?" +:+ rawQuery else url)
  = url +:+ (if decide (rawQuery = "") then "" else "?" +:+ rawQuery).
Proof.
  destruct (decide (rawQuery = "")) as [->|Hq].
  - rewrite decide_False by (by intros H; apply H).
    by rewrite string_app_nil_r.
  - by rewrite decide_True.
Qed.

(** X17: when the base URL ends in [/v1], a path under [/v1/] is appended
    without its own [/v1], so the segment is not doubled, and the path
    [/v1] itself becomes [/]; when the base URL does not end in [/v1], a
    path that starts with a slash is appended as it is.  The query follows
    a question mark when it is not empty. *)
Theorem buildUpstreamURL_v1_once (base rest rawQuery : string) :
  let query := if decide (rawQuery = "") then "" else "?" +:+ rawQuery in
  buildUpstreamURL (base +:+ "/v1") ("/v1/" +:+ rest) rawQuery
  = base +:+ "/v1/" +:+ rest +:+ query
  /\ buildUpstreamURL (base +:+ "/v1") "/v1" rawQuery
     = base +:+ "/v1/" +:+ query
  /\ (forall baseURL path,
        HasSuffix baseURL "/v1" = false -> HasPrefix path "/" = true ->
        buildUpstreamURL baseURL path rawQuery = baseURL +:+ path +:+ query).
Proof.
  cbn zeta. split; [|split].
  - unfold buildUpstreamURL. cbn zeta. rewrite HasSuffix_app.
    change ("/v1/" +:+ rest) with ("/v1" +:+ ("/" +:+ rest)).
    rewrite HasPrefix_app, TrimPrefix_app. cbn [andb].
    rewrite (decide_False (P := "/" +:+ rest = "")) by discriminate.
    rewrite (HasPrefix_app "/" rest). cbn [negb].
    rewrite query_suffix.
    change ("/v1" +:+ "/" +:+ rest) with ("/v1" +:+ ("/" +:+ rest)).
    by rewrite !string_app_assoc.
  - unfold buildUpstreamURL. cbn zeta. rewrite HasSuffix_app.
    change (HasPrefix "/v1" "/v1") with true. cbn [andb].
    change (TrimPrefix "/v1" "/v1") with "".
    rewrite (decide_True (P := "" = "")) by done.
    change (HasPrefix "/" "/") with true. cbn [negb].
    rewrite query_suffix.
    change "/v1/" with ("/v1" +:+ "/").
    by rewrite !string_app_assoc.
  - intros baseURL path Hbase Hpath. unfold buildUpstreamURL. cbn zeta.
    rewrite Hbase. cbn [andb]. rewrite Hpath. cbn [negb].
    rewrite query_suffix. by rewrite !string_app_assoc.
Qed.

(** ** The Responses use case *)

Lemma blank_user : blank "user" = false.
Proof. by vm_compute. Qed.

Lemma blank_tool : blank "tool" = false.
Proof. by vm_compute. Qed.

Lemma buildToolMessage_chat_message msg toolMsg :
  buildToolMessage msg = Some toolMsg -> chat_message toolMsg.
Proof.
  unfold buildToolMessage. cbn zeta.
  destruct (bool_decide _ && blank _); [done|].
  intros [= <-]. split.
  - exists "tool". split; [|exact blank_tool].
    case_decide; by map_lookup.
  - eexists. case_decide; by map_lookup.
Qed.

(** X18: every message read from a Responses input has a role that is not
    blank ([user] when the item gives none) and a string as content, whatever
    the input is. *)
Theorem parseResponsesInput_chat_messages (input : json) :
  Forall chat_message (parseResponsesInput input).
Proof.
  unfold parseResponsesInput. destruct (is_nil input); [done|].
  generalize (match input with JArr list => list | _ => [input] end).
  intros items.
  assert (H : forall acc, Forall chat_message acc ->
    Forall chat_message (List.fold_left
      (fun messages item =>
         match item with
         | JObj msg =>
             let itemType := as_string (get msg "type") in
             if bool_decide (itemType = "tool_output")
                || bool_decide (itemType = "tool_result")
             then
               match buildToolMessage msg with
               | Some toolMsg => messages ++ [toolMsg]
               | None => messages
               end
             else
               let role := as_string (get msg "role") in
               let role := if blank role then "user" else role in
               let content := extractTextFromContent (get msg "content") in
               let message : gmap string json :=
                 {[ "role" := JStr role; "content" := JStr content ]} in
               let message :=
                 if decide (role = "tool") then
                   match is_string (get msg "tool_call_id") with
                   | Some toolID =>
                       if blank toolID then message
                       else <[ "tool_call_id" := JStr toolID ]> message
                   | None => message
                   end
                 else message in
               let message :=
                 match msg !! "tool_calls" with
                 | Some toolCalls => <[ "tool_calls" := toolCalls ]> message
                 | None => message
                 end in
               let message :=
                 match msg !! "function_call" with
                 | Some functionCall =>
                     <[ "function_call" := functionCall ]> message
                 | None => message
                 end in
               messages ++ [message]
         | JStr text =>
             if blank text then messages
             else messages ++
                    [ {[ "role" := JStr "user"; "content" := JStr text ]} ]
         | _ => messages
         end) items acc)); [|by apply H].
  induction items as [|item items IH]; intros acc Hacc; [done|].
  cbn [List.fold_left]. apply IH.
  destruct item as [| | | | |text| |msg]; try done.
  - destruct (blank text); [done|]. apply Forall_app. split; [done|].
    constructor; [|done]. split.
    + exists "user". split; [by map_lookup | exact blank_user].
    + eexists. by map_lookup.
  - cbn zeta. destruct (bool_decide _ || bool_decide _).
    + destruct (buildToolMessage msg) as [toolMsg|] eqn:Htool; [|done].
      apply Forall_app. split; [done|]. constructor; [|done].
      by eapply buildToolMessage_chat_message.
    + apply Forall_app. split; [done|]. constructor; [|done].
      set (role := if blank (as_string (get msg "role")) then "user"
                   else as_string (get msg "role")).
      assert (Hrole : blank role = false).
      { subst role. destruct (blank (as_string (get msg "role"))) eqn:Hb;
          [exact blank_user | done]. }
      split.
      * exists role. split; [|done]. unfold get.
        destruct (decide (role = "tool")), (is_string (default JNull (msg !! "tool_call_id"))) as [toolID|],
          (msg !! "tool_calls"), (msg !! "function_call");
          try destruct (blank toolID); by map_lookup.
      * eexists. unfold get.
        destruct (decide (role = "tool")), (is_string (default JNull (msg !! "tool_call_id"))) as [toolID|],
          (msg !! "tool_calls"), (msg !! "function_call");
          try destruct (blank toolID); by map_lookup.
Qed.

Lemma lookup_copy_eq (src dst : gmap string json) (key : string) :
  copyIfPresent src dst key !! key
  = match src !! key with Some v => Some v | None => dst !! key end.
Proof.
  unfold copyIfPresent. destruct (src !! key) eqn:E; [|done].
  by rewrite lookup_insert_eq.
Qed.

Lemma lookup_copy_ne (src dst : gmap string json) (key k : string) :
  k <> key -> copyIfPresent src dst key !! k = dst !! k.
Proof.
  intros Hne. unfold copyIfPresent. destruct (src !! key); [|done].
  by rewrite lookup_insert_ne.
Qed.

Ltac copy_lookup :=
  repeat first
    [ rewrite lookup_copy_eq
    | rewrite lookup_copy_ne by first [discriminate | congruence] ].

Ltac key_in := by repeat constructor.

Ltac key_not_in :=
  let Hin := fresh "Hin" in
  intros Hin;
  repeat (apply elem_of_cons in Hin as [Hin|Hin];
          [first [discriminate Hin | congruence]|]);
  by apply elem_of_nil in Hin.

(** The chat request before the optional fields are copied. *)
Lemma chat_request_messages (defaultModel : string)
    (payload : gmap string json) :
  let instructions := as_string (get payload "instructions") in
  let messages := parseResponsesInput (get payload "input") in
  let system : list (gmap string json) :=
    if blank instructions then []
    else [ {[ "role" := JStr "system"; "content" := JStr instructions ]} ] in
  let stream :=
    match payload !! "stream" with
    | Some (JBool v) => v
    | _ => false
    end in
  let model :=
    if blank (as_string (get payload "model")) then defaultModel
    else as_string (get payload "model") in
  (system ++ messages = []
   /\ buildChatRequestFromResponses defaultModel payload
      = inl "missing input messages")
  \/ (system ++ messages <> []
      /\ exists chatReq,
           buildChatRequestFromResponses defaultModel payload
           = inr (chatReq, stream)
           /\ chatReq !! "messages" = Some (JArr (JObj <$> system ++ messages))
           /\ chatReq !! "model" = Some (JStr model)
           /\ chatReq !! "stream" = Some (JBool stream)
           /\ chatReq !! "stream_options"
              = (if stream
                 then Some (JObj {[ "include_usage" := JBool true ]})
                 else None)
           /\ chatReq !! "max_tokens"
              = match payload !! "max_output_tokens" with
                | Some v => Some v
                | None => payload !! "max_tokens"
                end
           /\ Forall (fun k => chatReq !! k = payload !! k) copied_keys
           /\ forall k, is_Some (chatReq !! k) -> k ∈ chat_request_keys).
Proof.
  cbn zeta. unfold buildChatRequestFromResponses. cbn zeta.
  set (stream := match payload !! "stream" with
                 | Some (JBool v) => v
                 | _ => false
                 end).
  set (model := if blank (as_string (get payload "model")) then defaultModel
                else as_string (get payload "model")).
  set (messages := parseResponsesInput (get payload "input")).
  set (instructions := as_string (get payload "instructions")).
  set (c0 := if bool_decide (messages <> []) then _ else _).
  assert (Hc0 :
    (c0 !! "messages"
     = if bool_decide ((if blank instructions then []
                        else [ ({[ "role" := JStr "system";
                                   "content" := JStr instructions ]}
                                : gmap string json) ]) ++ messages <> [])
       then Some (JArr (JObj <$>
              (if blank instructions then []
               else [ ({[ "role" := JStr "system";
                          "content" := JStr instructions ]}
                       : gmap string json) ]) ++ messages))
       else None)
    /\ c0 !! "model" = Some (JStr model)
    /\ c0 !! "stream" = Some (JBool stream)
    /\ c0 !! "stream_options"
       = (if stream then Some (JObj {[ "include_usage" := JBool true ]})
          else None)
    /\ forall k, is_Some (c0 !! k) ->
         k ∈ [ "model"; "stream"; "stream_options"; "messages" ]).
  { subst c0. destruct (blank instructions), stream;
      destruct messages as [|m messages];
      cbn [app];
      repeat (rewrite bool_decide_true by done);
      repeat (rewrite bool_decide_false by (by intros H; apply H));
      map_lookup; (split_and !; [done..|]);
      intros k [v Hk];
      repeat (apply lookup_insert_Some in Hk as [[<- _]|[_ Hk]];
              [key_in|]);
      by rewrite lookup_empty in Hk. }
  destruct Hc0 as (Hm & Hmodel & Hstream & Hopts & Hkeys).
  assert (Hbase : forall k, k ∉ [ "model"; "stream"; "stream_options"; "messages" ] ->
                            c0 !! k = None).
  { intros k Hk. destruct (c0 !! k) eqn:Hc; [|done].
    destruct Hk. apply Hkeys. by eexists. }
  revert Hm. set (all := _ ++ messages). intros Hm.
  destruct all as [|first rest] eqn:Hall.
  { left. split; [done|]. by rewrite Hm, bool_decide_false by (by intros H; apply H). }
  rewrite bool_decide_true in Hm by done.
  - right. split; [done|]. rewrite Hm. eexists. split; [reflexivity|].
    set (final := match payload !! "max_output_tokens" with
                  | Some _ => _
                  | None => _
                  end).
    assert (Hfinal : forall k, k <> "max_tokens" ->
      final !! k
      = if bool_decide (k ∈ copied_keys)
        then match payload !! k with Some v => Some v | None => c0 !! k end
        else c0 !! k).
    { intros k Hk.
      assert (forall m : gmap string json,
        match payload !! "max_output_tokens" with
        | Some v => <[ "max_tokens" := v ]> m
        | None => match payload !! "max_tokens" with
                  | Some v => <[ "max_tokens" := v ]> m
                  | None => m
                  end
        end !! k = m !! k) as Hmax.
      { intros m. destruct (payload !! "max_output_tokens");
          [by rewrite lookup_insert_ne|].
        destruct (payload !! "max_tokens"); [by rewrite lookup_insert_ne|done]. }
      subst final. rewrite Hmax. unfold copied_keys.
      repeat match goal with
      | |- context [copyIfPresent payload _ ?key] =>
          lazymatch goal with
          | H : k <> key |- _ => fail
          | _ => idtac
          end;
          destruct (decide (k = key)) as [->|?];
          [rewrite bool_decide_true by key_in; copy_lookup; reflexivity|]
      end.
      rewrite bool_decide_false by key_not_in. by copy_lookup. }
    assert (Hmaxk : final !! "max_tokens"
                    = match payload !! "max_output_tokens" with
                      | Some v => Some v
                      | None => payload !! "max_tokens"
                      end).
    { subst final. destruct (payload !! "max_output_tokens");
        [by rewrite lookup_insert_eq|].
      destruct (payload !! "max_tokens") eqn:Hmt;
        [by rewrite lookup_insert_eq|].
      copy_lookup. apply Hbase. key_not_in. }
    assert (Hfixed : forall k, k <> "max_tokens" -> k ∉ copied_keys ->
                               final !! k = c0 !! k).
    { intros k Hk Hnot. rewrite Hfinal by done. by rewrite bool_decide_false. }
    split_and !.
    + rewrite Hfixed; [done | done | unfold copied_keys; key_not_in].
    + rewrite Hfixed; [done | done | unfold copied_keys; key_not_in].
    + rewrite Hfixed; [done | done | unfold copied_keys; key_not_in].
    + rewrite Hfixed; [done | done | unfold copied_keys; key_not_in].
    + exact Hmaxk.
    + unfold copied_keys at 1.
      repeat (constructor;
        [rewrite Hfinal by done;
         rewrite bool_decide_true by (unfold copied_keys; key_in);
         match goal with
         | |- match payload !! ?k with _ => _ end = _ =>
             destruct (payload !! k); [done|]; apply Hbase; key_not_in
         end|]).
      constructor.
    + intros k Hk. destruct (decide (k = "max_tokens")) as [->|Hkm].
      { unfold chat_request_keys. key_in. }
      rewrite Hfinal in Hk by done. unfold chat_request_keys.
      case_bool_decide as Hin.
      * apply elem_of_app. by right.
      * apply Hkeys in Hk. apply elem_of_app. left.
        repeat (apply elem_of_cons in Hk as [->|Hk]; [key_in|]).
        by apply elem_of_nil in Hk.
Qed.

(** X19: [buildChatRequestFromResponses] fails exactly when the payload has
    no instructions (or blank ones) and its input gives no message; the
    error is then [missing input messages]. *)
Theorem buildChatRequestFromResponses_error (defaultModel : string)
    (payload : gmap string json) :
  (blank (as_string (get payload "instructions")) = true
   /\ parseResponsesInput (get payload "input") = []
   -> buildChatRequestFromResponses defaultModel payload
      = inl "missing input messages")
  /\ (forall e, buildChatRequestFromResponses defaultModel payload = inl e ->
        blank (as_string (get payload "instructions")) = true
        /\ parseResponsesInput (get payload "input") = []).
Proof.
  destruct (chat_request_messages defaultModel payload)
    as [[Hnil Herr]|[Hne (chatReq & Hok & _)]]; cbn zeta in *.
  - destruct (blank (as_string (get payload "instructions"))); [|done].
    by split.
  - split.
    + intros [Hb Hi]. rewrite Hb, Hi in Hne. done.
    + intros e He. rewrite Hok in He. done.
Qed.

Lemma buildChatRequestFromResponses_error_witness :
  buildChatRequestFromResponses "dflt" {[ "model" := JStr "m" ]}
  = inl "missing input messages".
Proof.
  apply (proj1 (buildChatRequestFromResponses_error "dflt"
                  {[ "model" := JStr "m" ]})).
  split; reflexivity.
Defined.

(** X20: when [buildChatRequestFromResponses] succeeds, the messages of the
    chat request are the system message of the instructions, if they are
    not blank, followed by the messages read from the input; the stream
    flag it returns is the payload's boolean [stream] (false when absent or
    not a boolean) and is the request's [stream]; usage is asked for
    exactly when streaming; and the model is the payload's, or the default
    when that is blank or no string. *)
Theorem buildChatRequestFromResponses_messages (defaultModel : string)
    (payload chatReq : gmap string json) (stream : bool)
    (Hok : buildChatRequestFromResponses defaultModel payload
           = inr (chatReq, stream)) :
  let instructions := as_string (get payload "instructions") in
  chatReq !! "messages"
  = Some (JArr (JObj <$>
      (if blank instructions then []
       else [ {[ "role" := JStr "system"; "content" := JStr instructions ]} ])
      ++ parseResponsesInput (get payload "input")))
  /\ stream = match payload !! "stream" with
              | Some (JBool v) => v
              | _ => false
              end
  /\ chatReq !! "stream" = Some (JBool stream)
  /\ chatReq !! "stream_options"
     = (if stream then Some (JObj {[ "include_usage" := JBool true ]})
        else None)
  /\ chatReq !! "model"
     = Some (JStr (if blank (as_string (get payload "model"))
                   then defaultModel
                   else as_string (get payload "model"))).
Proof.
  destruct (chat_request_messages defaultModel payload)
    as [[_ Herr]|[_ (chatReq' & Hok' & Hm & Hmodel & Hs & Ho & _)]];
    cbn zeta in *; [congruence|].
  rewrite Hok in Hok'. injection Hok' as <- ->. by split_and !.
Qed.

(** X21: when [buildChatRequestFromResponses] succeeds, the nine optional
    fields it knows are in the chat request exactly as in the payload
    (absent when absent); [max_tokens] is the payload's
    [max_output_tokens], or else its [max_tokens]; and the request has no
    field besides these, the model, the messages and the stream fields:
    nothing else of the payload is passed on. *)
Theorem buildChatRequestFromResponses_fields (defaultModel : string)
    (payload chatReq : gmap string json) (stream : bool)
    (Hok : buildChatRequestFromResponses defaultModel payload
           = inr (chatReq, stream)) :
  Forall (fun k => chatReq !! k = payload !! k) copied_keys
  /\ chatReq !! "max_tokens"
     = match payload !! "max_output_tokens" with
       | Some v => Some v
       | None => payload !! "max_tokens"
       end
  /\ forall k, is_Some (chatReq !! k) -> k ∈ chat_request_keys.
Proof.
  destruct (chat_request_messages defaultModel payload)
    as [[_ Herr]|[_ (chatReq' & Hok' & _ & _ & _ & _ & Hmax & Hcopy & Hkeys)]];
    cbn zeta in *; [congruence|].
  rewrite Hok in Hok'. injection Hok' as <- _. by split_and !.
Qed.

Lemma responses_payload_ok :
  exists chatReq,
    buildChatRequestFromResponses "dflt" responses_payload
    = inr (chatReq, false).
Proof.
  destruct (chat_request_messages "dflt" responses_payload)
    as [[Hnil _]|[_ (chatReq & Hok & _)]]; cbn zeta in *.
  - exfalso.
    replace (parseResponsesInput (get responses_payload "input"))
      with [ ({[ "role" := JStr "user"; "content" := JStr "hi" ]}
              : gmap string json) ] in Hnil by (vm_compute; reflexivity).
    by destruct (blank _).
  - exists chatReq. rewrite Hok. reflexivity.
Defined.

Lemma buildChatRequestFromResponses_messages_witness :
  exists chatReq,
    buildChatRequestFromResponses "dflt" responses_payload
    = inr (chatReq, false)
    /\ chatReq !! "model" = Some (JStr "m")
    /\ chatReq !! "stream" = Some (JBool false).
Proof.
  destruct responses_payload_ok as [chatReq Hok]. exists chatReq.
  split; [exact Hok|].
  pose proof (buildChatRequestFromResponses_messages "dflt" responses_payload
                chatReq false Hok) as (_ & _ & Hs & _ & Hm).
  split; [|exact Hs]. rewrite Hm. vm_compute. reflexivity.
Defined.

Lemma buildChatRequestFromResponses_fields_witness :
  exists chatReq,
    buildChatRequestFromResponses "dflt" responses_payload
    = inr (chatReq, false)
    /\ chatReq !! "max_tokens" = Some (JInt 64)
    /\ chatReq !! "metadata" = None.
Proof.
  destruct responses_payload_ok as [chatReq Hok]. exists chatReq.
  split; [exact Hok|].
  pose proof (buildChatRequestFromResponses_fields "dflt" responses_payload
                chatReq false Hok) as (_ & Hmax & Hkeys).
  split.
  - rewrite Hmax. vm_compute. reflexivity.
  - destruct (chatReq !! "metadata") eqn:E; [|reflexivity].
    exfalso. specialize (Hkeys "metadata" (mk_is_Some _ _ E)).
    unfold chat_request_keys, copied_keys in Hkeys. cbn [app] in Hkeys.
    repeat (apply elem_of_cons in Hkeys as [Hkeys|Hkeys];
            [discriminate Hkeys|]).
    by apply elem_of_nil in Hkeys.
Defined.

(** ** The Responses use case: the response side *)

Lemma buildResponsesToolCallItems_fold codec calls acc :
  exists items,
    List.fold_left
      (fun items call =>
         let name := TrimSpace (fc_Name (tc_Function call)) in
         if bool_decide (name = "") && blank (fc_Arguments (tc_Function call))
         then items
         else
           items ++
             [ {[ "id" := JStr (tc_ID call);
                  "call_id" := JStr (tc_ID call);
                  "type" := JStr "tool_call";
                  "name" := JStr name;
                  "arguments" :=
                    parseToolCallArguments codec
                      (fc_Arguments (tc_Function call)) ]} ])
      calls acc = acc ++ items
    /\ (length items <= length calls)%nat
    /\ Forall (fun item : gmap string json =>
                 get item "type" = JStr "tool_call"
                 /\ get item "call_id" = get item "id") items.
Proof.
  revert acc. induction calls as [|call calls IH]; intros acc.
  - exists []. by rewrite app_nil_r.
  - cbn [List.fold_left]. cbn zeta.
    destruct (bool_decide _ && blank _).
    + destruct (IH acc) as (items & Heq & Hlen & Hall).
      exists items. split; [exact Heq|]. split; [cbn; lia | done].
    + edestruct IH as (items & Heq & Hlen & Hall).
      eexists (_ :: items).
      split; [etransitivity; [exact Heq | by rewrite <- app_assoc]|].
      split; [cbn; lia|]. constructor; [|done]. split; by map_lookup.
Qed.

(** X22: the [output] of a converted response is the message item, with the
    type [message] and the role [assistant], followed by the tool-call
    items of the first choice's message; these are the very items listed
    under the message item's [tool_calls] (which is absent when there are
    none), there are no more of them than the message has tool calls, and
    each has the type [tool_call] and its id also as [call_id]. *)
Theorem convertOpenAIResponseToResponses_output (codec : JSONCodec)
    (clock : Clock) (openAIResp : OpenAIResponse) (reqModel : string)
    (tick : nat) :
  let response :=
    fst (convertOpenAIResponseToResponses codec clock openAIResp reqModel
           tick) in
  let calls := from_option om_ToolCalls [] (first_message openAIResp) in
  exists (messageItem : gmap string json) (items : list (gmap string json)),
    response !! "output" = Some (JArr (JObj messageItem :: (JObj <$> items)))
    /\ items = buildResponsesToolCallItems codec calls
    /\ get messageItem "type" = JStr "message"
    /\ get messageItem "role" = JStr "assistant"
    /\ messageItem !! "tool_calls"
       = match items with
         | [] => None
         | _ => Some (JArr (JObj <$> items))
         end
    /\ (length items <= length calls)%nat
    /\ Forall (fun item : gmap string json =>
                 get item "type" = JStr "tool_call"
                 /\ get item "call_id" = get item "id") items.
Proof.
  cbn zeta. unfold convertOpenAIResponseToResponses, first_message.
  cbn zeta.
  destruct (responseMessageID clock (or_ID openAIResp) tick) as [messageID t].
  set (message := match or_Choices openAIResp with
                  | choice :: _ => oc_Message choice
                  | [] => None
                  end).
  assert (Hpair :
    (let '(message, finishReason) :=
       match or_Choices openAIResp with
       | choice :: _ => (oc_Message choice, oc_FinishReason choice)
       | [] => (None, "")
       end in message) = message).
  { subst message. by destruct (or_Choices openAIResp). }
  destruct (match or_Choices openAIResp with
            | choice :: _ => (oc_Message choice, oc_FinishReason choice)
            | [] => (None, "")
            end) as [message' finishReason].
  cbn in Hpair. subst message'.
  destruct (buildResponsesToolCallItems_fold codec
              (from_option om_ToolCalls [] message) [])
    as (items & Hitems & Hlen & Hall).
  cbn [app] in Hitems. fold (buildResponsesToolCallItems codec
    (from_option om_ToolCalls [] message)) in Hitems.
  destruct message as [message|]; cbn [from_option] in *.
  - rewrite Hitems. exists
      (if bool_decide (items <> [])
       then <[ "tool_calls" := JArr (JObj <$> items) ]>
              (if decide (TrimSpace (OpenAIContentToString
                                       (om_Content message)) <> "")
               then <[ "content" :=
                         JArr [ JObj {[ "type" := JStr "output_text";
                                        "text" := JStr (TrimSpace
                                          (OpenAIContentToString
                                             (om_Content message))) ]} ] ]>
                      ({[ "id" := JStr messageID;
                          "type" := JStr "message";
                          "role" := JStr "assistant";
                          "content" := JArr [] ]} : gmap string json)
               else {[ "id" := JStr messageID;
                       "type" := JStr "message";
                       "role" := JStr "assistant";
                       "content" := JArr [] ]})
       else
         (if decide (TrimSpace (OpenAIContentToString
                                  (om_Content message)) <> "")
          then <[ "content" :=
                    JArr [ JObj {[ "type" := JStr "output_text";
                                   "text" := JStr (TrimSpace
                                     (OpenAIContentToString
                                        (om_Content message))) ]} ] ]>
                 ({[ "id" := JStr messageID;
                     "type" := JStr "message";
                     "role" := JStr "assistant";
                     "content" := JArr [] ]} : gmap string json)
          else {[ "id" := JStr messageID;
                  "type" := JStr "message";
                  "role" := JStr "assistant";
                  "content" := JArr [] ]})), items.
    destruct items as [|item items].
    + rewrite bool_decide_false by (by intros H; apply H). cbn [fst].
      split; [destruct (decide (finishReason <> "")); by map_lookup|].
      split; [done|].
      destruct (decide (TrimSpace _ <> "")); split_and !; by map_lookup.
    + rewrite bool_decide_true by done. cbn [fst app].
      split; [destruct (decide (finishReason <> "")); by map_lookup|].
      split; [done|].
      destruct (decide (TrimSpace _ <> "")); split_and !; by map_lookup.
  - exists {[ "id" := JStr messageID; "type" := JStr "message";
              "role" := JStr "assistant"; "content" := JArr [] ]}, [].
    cbn [fst app].
    split; [destruct (decide (finishReason <> "")); by map_lookup|].
    split_and !; try done; by map_lookup.
Qed.

(** ** The chat completions route *)



